(** * rdns-server: resolver and key/value record store

    A shallow embedding of the CoreDNS [rdns] plugin's etcd resolver
    ([Records], [get], [loopNodes], [TTL], [shouldInclude], [filterKvs],
    [pathExist]) and of the key/value database driver ([KeyValueBackend]
    over the [Filesystem] and [K8sStore] stores), followed by the
    properties of the specification stated and settled against them.

    Conventions.  Go strings are byte strings: Rocq [string]s.  Go integers
    are [Z] with the wrap-around of each conversion written out.  A Go
    [(value, error)] result is a [result].  Code that reads and writes a
    store is a function from the store to a result and a new store. *)

From Stdlib Require Import ZArith List String Ascii Bool Lia.
From stdpp Require Import base option list sorting gmap strings.

Import ListNotations.
Local Open Scope string_scope.
Local Open Scope Z_scope.

(* ================================================================== *)
(** * Errors and results

    The kinds of errors the program tells apart.  The string an error
    carries names its cause; the text of the libraries' messages is not
    modelled. *)

Inductive error : Type :=
| ErrKeyNotFound                       (* errKeyNotFound of the resolver *)
| ErrBackend (msg : string)            (* transport failure of a backend *)
| ErrDecode (key : string) (msg : string) (* fmt.Errorf("%s: %s", key, err) *)
| ErrJSON (msg : string)               (* an error of encoding/json *)
| ErrExist (path : string)             (* EEXIST / AlreadyExists *)
| ErrNotExist (path : string)          (* ENOENT / NotFound *)
| ErrIsDir (path : string)             (* EISDIR *)
| ErrNotDir (path : string)            (* ENOTDIR *)
| ErrPanic (msg : string).             (* a run-time panic *)

Inductive result (A : Type) : Type :=
| Ok (a : A)
| Err (e : error).
Arguments Ok {A} a.
Arguments Err {A} e.

Definition is_ok {A} (r : result A) : bool :=
  match r with Ok _ => true | Err _ => false end.

(* ================================================================== *)
(** * Machine integers *)

Module Int.
(** [int8(x)]: conversion to a signed 8-bit integer wraps around. *)
Definition int8 (x : Z) : Z := (x + 128) mod 256 - 128.
(** [uint32(x)]: conversion to an unsigned 32-bit integer truncates. *)
Definition uint32 (x : Z) : Z := x mod 2 ^ 32.
Definition in_int8 (x : Z) : Prop := -128 <= x <= 127.
Definition in_int64 (x : Z) : bool := (- 2 ^ 63 <=? x) && (x <? 2 ^ 63).
Definition in_uint32 (x : Z) : bool := (0 <=? x) && (x <? 2 ^ 32).
End Int.

(* ================================================================== *)
(** * Go's [strings] package, as far as the program uses it *)

Module Strings.

Definition HasPrefix (s prefix : string) : bool := String.prefix prefix s.

Definition HasSuffix (s suffix : string) : bool :=
  let n := String.length s in
  let k := String.length suffix in
  (k <=? n)%nat && String.eqb (substring (n - k) k s) suffix.

Definition TrimSuffix (s suffix : string) : string :=
  if HasSuffix s suffix
  then substring 0 (String.length s - String.length suffix) s
  else s.

(** [strings.Split(s, sep)] for a separator of one byte: the fields
    between the separators, one more than there are separators. *)
Fixpoint SplitByte (sep : ascii) (s : string) : list string :=
  match s with
  | EmptyString => [EmptyString]
  | String c s' =>
      if Ascii.eqb c sep then EmptyString :: SplitByte sep s'
      else match SplitByte sep s' with
           | [] => [String c EmptyString]
           | f :: fs => String c f :: fs
           end
  end.

Definition Split (s : string) (sep : ascii) : list string := SplitByte sep s.

(** [strings.Join(elems, sep)] *)
Definition Join (elems : list string) (sep : string) : string :=
  String.concat sep elems.

Definition lower_byte (c : ascii) : ascii :=
  let n := nat_of_ascii c in
  if ((65 <=? n) && (n <=? 90))%nat then ascii_of_nat (n + 32) else c.

Fixpoint ToLower (s : string) : string :=
  match s with
  | EmptyString => EmptyString
  | String c s' => String (lower_byte c) (ToLower s')
  end.

Definition is_digit (c : ascii) : bool :=
  let n := nat_of_ascii c in ((48 <=? n) && (n <=? 57))%nat.

Fixpoint all_bytes (p : ascii -> bool) (s : string) : bool :=
  match s with
  | EmptyString => true
  | String c s' => p c && all_bytes p s'
  end.

End Strings.

(* ================================================================== *)
(** * Go's [encoding/json], as far as the program uses it

    The stored payloads are JSON documents.  [parse] is a parser of the
    JSON grammar (RFC 8259) as [json.Unmarshal] accepts it: one value,
    surrounded by optional white space, nothing after it.  Numbers keep
    their literal, which the typed decoders below convert.  Bytes above
    127 inside strings are kept as they are (the stored names and
    addresses are ASCII). *)

Module JSON.

#[warning="-register-all"]
Inductive value : Type :=
| Null
| Bool (b : bool)
| Number (lit : string)
| Str (s : string)
| Array (elems : list value)
| Object (members : list (string * value)).

Definition is_space (c : ascii) : bool :=
  Ascii.eqb c " " || Ascii.eqb c "009" || Ascii.eqb c "010" || Ascii.eqb c "013".

Fixpoint skip_ws (s : string) : string :=
  match s with
  | String c s' => if is_space c then skip_ws s' else s
  | EmptyString => s
  end.

(** The longest prefix of bytes satisfying [p], and the rest. *)
Fixpoint span (p : ascii -> bool) (s : string) : string * string :=
  match s with
  | String c s' =>
      if p c then let '(a, b) := span p s' in (String c a, b)
      else (EmptyString, s)
  | EmptyString => (EmptyString, EmptyString)
  end.

Definition hex_val (c : ascii) : option N :=
  let n := N_of_ascii c in
  if ((48 <=? n) && (n <=? 57))%N then Some (n - 48)%N
  else if ((97 <=? n) && (n <=? 102))%N then Some (n - 87)%N
  else if ((65 <=? n) && (n <=? 70))%N then Some (n - 55)%N
  else None.

Definition hex4 (s : string) : option (N * string) :=
  match s with
  | String a (String b (String c (String d r))) =>
      match hex_val a, hex_val b, hex_val c, hex_val d with
      | Some x, Some y, Some z, Some w =>
          Some (((x * 16 + y) * 16 + z) * 16 + w, r)%N
      | _, _, _, _ => None
      end
  | _ => None
  end.

Definition byte (n : N) : ascii := ascii_of_N n.

(** UTF-8 encoding of a code point. *)
Definition utf8 (cp : N) : string :=
  (if cp <? 128 then String (byte cp) EmptyString
   else if cp <? 2048 then
     String (byte (192 + cp / 64)) (String (byte (128 + cp mod 64)) EmptyString)
   else if cp <? 65536 then
     String (byte (224 + cp / 4096))
       (String (byte (128 + (cp / 64) mod 64))
          (String (byte (128 + cp mod 64)) EmptyString))
   else
     String (byte (240 + cp / 262144))
       (String (byte (128 + (cp / 4096) mod 64))
          (String (byte (128 + (cp / 64) mod 64))
             (String (byte (128 + cp mod 64)) EmptyString))))%N.

Definition replacement : N := 65533.   (* U+FFFD *)

(** A [\uXXXX] escape whose four digits gave [hi], followed by [r]:
    surrogate halves pair up, a lone half decodes to U+FFFD. *)
Definition unicode_escape (hi : N) (r : string) : string * string :=
  (if (55296 <=? hi) && (hi <? 56320) then
     match r with
     | String "\" (String "u" r') =>
         match hex4 r' with
         | Some (lo, r'') =>
             if (56320 <=? lo) && (lo <? 57344)
             then (utf8 (65536 + (hi - 55296) * 1024 + (lo - 56320)), r'')
             else (utf8 replacement, r)
         | None => (utf8 replacement, r)
         end
     | _ => (utf8 replacement, r)
     end
   else if (56320 <=? hi) && (hi <? 57344) then (utf8 replacement, r)
   else (utf8 hi, r))%N.

(** The body of a string literal, after its opening quote. *)
Fixpoint string_body (fuel : nat) (s : string) : option (string * string) :=
  match fuel with
  | O => None
  | S fuel' =>
      match s with
      | EmptyString => None
      | String c r =>
          if Ascii.eqb c "034" then Some (EmptyString, r)
          else if Ascii.eqb c "\" then
            match r with
            | EmptyString => None
            | String e r' =>
                let simple (b : ascii) :=
                  match string_body fuel' r' with
                  | Some (t, k) => Some (String b t, k)
                  | None => None
                  end in
                if Ascii.eqb e "034" then simple "034"%char
                else if Ascii.eqb e "\" then simple "\"%char
                else if Ascii.eqb e "/" then simple "/"%char
                else if Ascii.eqb e "b" then simple "008"%char
                else if Ascii.eqb e "f" then simple "012"%char
                else if Ascii.eqb e "n" then simple "010"%char
                else if Ascii.eqb e "r" then simple "013"%char
                else if Ascii.eqb e "t" then simple "009"%char
                else if Ascii.eqb e "u" then
                  match hex4 r' with
                  | Some (hi, r'') =>
                      let '(bytes, k) := unicode_escape hi r'' in
                      match string_body fuel' k with
                      | Some (t, k') => Some (bytes ++ t, k')
                      | None => None
                      end
                  | None => None
                  end
                else None
            end
          else if (N_of_ascii c <? 32)%N then None
          else
            match string_body fuel' r with
            | Some (t, k) => Some (String c t, k)
            | None => None
            end
      end
  end.

Definition digits (s : string) : string * string := span Strings.is_digit s.

(** A number literal: an optional minus sign; [0], or a non-zero digit
    followed by digits; an optional fraction (a dot and digits); an
    optional exponent ([e] or [E], an optional sign, digits). *)
Definition number (s : string) : option (string * string) :=
  let '(sign, s1) :=
    match s with
    | String "-" r => ("-", r)
    | _ => (EmptyString, s)
    end in
  let '(int, s2) := digits s1 in
  let int_ok :=
    match int with
    | EmptyString => false
    | String "0" EmptyString => true
    | String "0" _ => false
    | _ => true
    end in
  if negb int_ok then None else
  let frac :=
    match s2 with
    | String "." r =>
        let '(f, s3) := digits r in
        match f with
        | EmptyString => None
        | _ => Some ("." ++ f, s3)
        end
    | _ => Some (EmptyString, s2)
    end in
  match frac with
  | None => None
  | Some (f, s3) =>
      let exp :=
        match s3 with
        | String e r =>
            if Ascii.eqb e "e" || Ascii.eqb e "E" then
              let '(sg, r1) :=
                match r with
                | String "+" r' => ("+", r')
                | String "-" r' => ("-", r')
                | _ => (EmptyString, r)
                end in
              let '(d, s4) := digits r1 in
              match d with
              | EmptyString => None
              | _ => Some (String e sg ++ d, s4)
              end
            else Some (EmptyString, s3)
        | EmptyString => Some (EmptyString, s3)
        end in
      match exp with
      | None => None
      | Some (x, s4) => Some (sign ++ int ++ f ++ x, s4)
      end
  end.

Definition literal (word : string) (v : value) (s : string) : option (value * string) :=
  if String.prefix word s
  then Some (v, substring (String.length word) (String.length s - String.length word) s)
  else None.

Fixpoint parse_value (fuel : nat) (s : string) : option (value * string) :=
  match fuel with
  | O => None
  | S fuel' =>
      match skip_ws s with
      | EmptyString => None
      | String c r as s0 =>
          if Ascii.eqb c "{" then
            match skip_ws r with
            | String "}" r' => Some (Object [], r')
            | r0 =>
                match parse_members fuel' r0 with
                | Some (ms, k) => Some (Object ms, k)
                | None => None
                end
            end
          else if Ascii.eqb c "[" then
            match skip_ws r with
            | String "]" r' => Some (Array [], r')
            | r0 =>
                match parse_elems fuel' r0 with
                | Some (vs, k) => Some (Array vs, k)
                | None => None
                end
            end
          else if Ascii.eqb c "034" then
            match string_body (String.length r) r with
            | Some (t, k) => Some (Str t, k)
            | None => None
            end
          else if Ascii.eqb c "t" then literal "true" (Bool true) s0
          else if Ascii.eqb c "f" then literal "false" (Bool false) s0
          else if Ascii.eqb c "n" then literal "null" Null s0
          else
            match number s0 with
            | Some (lit, k) => Some (Number lit, k)
            | None => None
            end
      end
  end
with parse_members (fuel : nat) (s : string) : option (list (string * value) * string) :=
  match fuel with
  | O => None
  | S fuel' =>
      match skip_ws s with
      | String "034" r =>
          match string_body (String.length r) r with
          | Some (k, r1) =>
              match skip_ws r1 with
              | String ":" r2 =>
                  match parse_value fuel' r2 with
                  | Some (v, r3) =>
                      match skip_ws r3 with
                      | String "," r4 =>
                          match parse_members fuel' r4 with
                          | Some (ms, r5) => Some ((k, v) :: ms, r5)
                          | None => None
                          end
                      | String "}" r4 => Some ([(k, v)], r4)
                      | _ => None
                      end
                  | None => None
                  end
              | _ => None
              end
          | None => None
          end
      | _ => None
      end
  end
with parse_elems (fuel : nat) (s : string) : option (list value * string) :=
  match fuel with
  | O => None
  | S fuel' =>
      match parse_value fuel' s with
      | Some (v, r1) =>
          match skip_ws r1 with
          | String "," r2 =>
              match parse_elems fuel' r2 with
              | Some (vs, r3) => Some (v :: vs, r3)
              | None => None
              end
          | String "]" r2 => Some ([v], r2)
          | _ => None
          end
      | None => None
      end
  end.

(** The whole input is one JSON value. *)
Definition parse (s : string) : option value :=
  match parse_value (2 * String.length s + 2) s with
  | Some (v, r) =>
      match skip_ws r with
      | EmptyString => Some v
      | _ => None
      end
  | None => None
  end.

Definition valid (s : string) : bool :=
  match parse s with Some _ => true | None => false end.

(** Documents are written below with ['] for the double quote. *)
Definition js (s : string) : string :=
  (fix go (s : string) : string :=
     match s with
     | EmptyString => EmptyString
     | String c s' => String (if Ascii.eqb c "'" then "034"%char else c) (go s')
     end) s.

(** ** Typed decoding: what [json.Unmarshal] does for the field types
    of the stored structs *)

Definition Z_of_digits (s : string) : Z :=
  (fix go (acc : Z) (s : string) : Z :=
     match s with
     | EmptyString => acc
     | String c s' => go (acc * 10 + (Z.of_nat (nat_of_ascii c) - 48)) s'
     end) 0 s.

Definition all_digits (s : string) : bool :=
  match s with
  | EmptyString => false
  | _ => Strings.all_bytes Strings.is_digit s
  end.

(** [strconv.ParseInt(lit, 10, 64)] on a number literal: a literal with a
    fraction or an exponent is not an integer. *)
Definition integer (lit : string) : option Z :=
  match lit with
  | String "-" d => if all_digits d then Some (- Z_of_digits d) else None
  | d => if all_digits d then Some (Z_of_digits d) else None
  end.

Definition as_string (v : value) : option string :=
  match v with Str s => Some s | _ => None end.

Definition as_bool (v : value) : option bool :=
  match v with Bool b => Some b | _ => None end.

Definition as_int64 (v : value) : option Z :=
  match v with
  | Number lit =>
      match integer lit with
      | Some z => if Int.in_int64 z then Some z else None
      | None => None
      end
  | _ => None
  end.

(** [strconv.ParseUint(lit, 10, 32)]: no sign at all. *)
Definition as_uint32 (v : value) : option Z :=
  match v with
  | Number lit =>
      if all_digits lit
      then (let z := Z_of_digits lit in if Int.in_uint32 z then Some z else None)
      else None
  | _ => None
  end.

(** A [[]string]: an array whose elements are strings; [null] elements
    are empty strings. *)
Fixpoint as_strings_aux (l : list value) : option (list string) :=
  match l with
  | [] => Some []
  | Str s :: l' => option_map (cons s) (as_strings_aux l')
  | Null :: l' => option_map (cons EmptyString) (as_strings_aux l')
  | _ :: _ => None
  end.

Definition as_strings (v : value) : option (list string) :=
  match v with Array l => as_strings_aux l | _ => None end.

(** A struct is decoded through the table of its fields: the JSON name of
    each field and how a value is stored into it. *)
Definition field (T : Type) : Type := (string * (value -> T -> option T))%type.

(** The field a key names: the one with that very name, else one whose
    name differs in letter case only; a key naming no field is skipped. *)
Definition find_field {T} (key : string) (fs : list (field T))
  : option (value -> T -> option T) :=
  match List.find (fun f => String.eqb (fst f) key) fs with
  | Some f => Some (snd f)
  | None =>
      match List.find
              (fun f => String.eqb (Strings.ToLower (fst f)) (Strings.ToLower key)) fs with
      | Some f => Some (snd f)
      | None => None
      end
  end.

Fixpoint decode_members {T} (fs : list (field T)) (ms : list (string * value)) (t : T)
  : option T :=
  match ms with
  | [] => Some t
  | (k, v) :: ms' =>
      match find_field k fs with
      | None => decode_members fs ms' t
      | Some store =>
          match v with
          | Null => decode_members fs ms' t
          | _ =>
              match store v t with
              | Some t' => decode_members fs ms' t'
              | None => None
              end
          end
      end
  end.

Definition decode_struct {T} (fs : list (field T)) (v : value) (t : T) : option T :=
  match v with
  | Null => Some t
  | Object ms => decode_members fs ms t
  | _ => None
  end.

(** [json.Unmarshal(data, &t)] for a struct [t]. *)
Definition Unmarshal {T} (fs : list (field T)) (data : string) (t : T) : result T :=
  match parse data with
  | None => Err (ErrJSON "invalid JSON")
  | Some v =>
      match decode_struct fs v t with
      | Some t' => Ok t'
      | None => Err (ErrJSON "cannot unmarshal into Go value")
      end
  end.

(** ** Encoding: what [json.Marshal] writes *)

Definition hex_digit (n : N) : ascii :=
  (if n <? 10 then ascii_of_N (48 + n) else ascii_of_N (87 + n))%N.

Definition u00 (c : ascii) : string :=
  let n := N_of_ascii c in
  "\u00" ++ String (hex_digit (n / 16)) (String (hex_digit (n mod 16)) EmptyString).

(** A string literal as Go 1.14 writes it: quotes and backslashes
    escaped, [\n], [\r], [\t], other control bytes and [<], [>], [&]
    as [\u00XX]. *)
Fixpoint escape (s : string) : string :=
  match s with
  | EmptyString => EmptyString
  | String c s' =>
      (if Ascii.eqb c "034" then "\" ++ String c EmptyString
       else if Ascii.eqb c "\" then "\\"
       else if Ascii.eqb c "010" then "\n"
       else if Ascii.eqb c "013" then "\r"
       else if Ascii.eqb c "009" then "\t"
       else if (N_of_ascii c <? 32)%N || Ascii.eqb c "<" || Ascii.eqb c ">"
               || Ascii.eqb c "&" then u00 c
       else String c EmptyString) ++ escape s'
  end.

Definition quote (s : string) : string :=
  String "034" (escape s ++ String "034" EmptyString).

Fixpoint nat_digits (fuel : nat) (n : N) (acc : string) : string :=
  match fuel with
  | O => acc
  | S fuel' =>
      let acc' := String (ascii_of_N (48 + n mod 10)) acc in
      if (n / 10 =? 0)%N then acc' else nat_digits fuel' (n / 10)%N acc'
  end.

(** [strconv.FormatInt(z, 10)] *)
Definition itoa (z : Z) : string :=
  let n := Z.to_N (Z.abs z) in
  let d := nat_digits (S (N.to_nat (N.log2 n))) n EmptyString in
  if z <? 0 then String "-" d else d.

(** One member of an object, or none when [omitempty] leaves it out. *)
Definition member : Type := option (string * string).

Definition string_member (name : string) (omitempty : bool) (s : string) : member :=
  if omitempty && String.eqb s EmptyString then None else Some (name, quote s).

Definition int_member (name : string) (omitempty : bool) (z : Z) : member :=
  if omitempty && (z =? 0) then None else Some (name, itoa z).

Definition bool_member (name : string) (omitempty : bool) (b : bool) : member :=
  if omitempty && negb b then None
  else Some (name, if b then "true" else "false").

(** A [[]string]: [null] for the nil slice, else the array. *)
Definition strings_member (name : string) (omitempty : bool) (l : list string) : member :=
  match l with
  | [] => if omitempty then None else Some (name, "null")
  | _ => Some (name, "[" ++ String.concat "," (List.map quote l) ++ "]")
  end.

Definition object (ms : list member) : string :=
  "{" ++ String.concat ","
           (List.map (fun m => quote (fst m) ++ ":" ++ snd m) (omap id ms))
      ++ "}".

End JSON.

(* ================================================================== *)
(** * The DNS library ([miekg/dns]), as far as the resolver uses it *)

Module Dns.
Definition TypeA : Z := 1.
Definition TypeTXT : Z := 16.

(** [dns.SplitDomainName]: the labels of a name, without the root label;
    none for the empty name and for the root.  (Names are taken without
    backslash escapes.) *)
Definition SplitDomainName (s : string) : list string :=
  if String.eqb s EmptyString || String.eqb s "." then []
  else Strings.Split (Strings.TrimSuffix s ".") ".".
End Dns.

(* ================================================================== *)
(** * The [msg] package: services and the path codec *)

Module Msg.

(** Modelled from the spec: the struct [msg.Service], which the source
    imports from [coredns/plugin/rdns/msg]; the specification's data
    model gives it the fields host, text, ttl, priority, mail and key,
    the key being set by the resolver and never read from JSON. *)
Record Service : Type := {
  Host : string;
  Text : string;
  TTL : Z;          (* uint32 *)
  Priority : Z;     (* int *)
  Mail : bool;
  Key : string
}.

Definition zero : Service :=
  {| Host := EmptyString; Text := EmptyString; TTL := 0; Priority := 0;
     Mail := false; Key := EmptyString |}.

Definition with_Host (h : string) (s : Service) : Service :=
  {| Host := h; Text := Text s; TTL := TTL s; Priority := Priority s;
     Mail := Mail s; Key := Key s |}.
Definition with_Text (t : string) (s : Service) : Service :=
  {| Host := Host s; Text := t; TTL := TTL s; Priority := Priority s;
     Mail := Mail s; Key := Key s |}.
Definition with_TTL (t : Z) (s : Service) : Service :=
  {| Host := Host s; Text := Text s; TTL := t; Priority := Priority s;
     Mail := Mail s; Key := Key s |}.
Definition with_Priority (p : Z) (s : Service) : Service :=
  {| Host := Host s; Text := Text s; TTL := TTL s; Priority := p;
     Mail := Mail s; Key := Key s |}.
Definition with_Mail (m : bool) (s : Service) : Service :=
  {| Host := Host s; Text := Text s; TTL := TTL s; Priority := Priority s;
     Mail := m; Key := Key s |}.
Definition with_Key (k : string) (s : Service) : Service :=
  {| Host := Host s; Text := Text s; TTL := TTL s; Priority := Priority s;
     Mail := Mail s; Key := k |}.

#[global] Instance Service_eq_dec : EqDecision Service.
Proof. solve_decision. Defined.

Definition fields : list (JSON.field Service) :=
  [ ("host", fun v s => option_map (fun x => with_Host x s) (JSON.as_string v));
    ("priority", fun v s => option_map (fun x => with_Priority x s) (JSON.as_int64 v));
    ("text", fun v s => option_map (fun x => with_Text x s) (JSON.as_string v));
    ("mail", fun v s => option_map (fun x => with_Mail x s) (JSON.as_bool v));
    ("ttl", fun v s => option_map (fun x => with_TTL x s) (JSON.as_uint32 v)) ].

(** The labels of a name, lower-cased, from the top-level domain down. *)
Definition reversed_labels (s : string) : list string :=
  List.rev (Dns.SplitDomainName (Strings.ToLower s)).

Definition join_path (prefix : string) (labels : list string) : string :=
  "/" ++ prefix ++ String.concat EmptyString (List.map (fun l => "/" ++ l) labels).

(** Modelled from the spec: [msg.Path], the reverse-label encoding of
    section 4.1: [a.b.c.example.com] becomes [/<prefix>/com/example/c/b/a];
    labels are lower-cased and the terminal dot is dropped. *)
Definition Path (s prefix : string) : string :=
  join_path prefix (reversed_labels s).

Fixpoint before_star (labels : list string) : list string * bool :=
  match labels with
  | [] => ([], false)
  | l :: ls =>
      if String.eqb l "*" then ([], true)
      else let '(p, star) := before_star ls in (l :: p, star)
  end.

(** Modelled from the spec: [msg.PathWithWildcard]; a name with the
    label [*] gives the path up to but excluding that label, and
    [star = true]. *)
Definition PathWithWildcard (s prefix : string) : string * bool :=
  let '(labels, star) := before_star (reversed_labels s) in
  (join_path prefix labels, star).

End Msg.

(* ================================================================== *)
(** * The etcd client ([clientv3]), as far as the resolver uses it *)

Module Clientv3.

(** [mvccpb.KeyValue]: the key, the value and the lease of a pair. *)
Record KeyValue : Type := { Key : string; Value : string; Lease : Z (* int64 *) }.

Record GetResponse : Type := { Kvs : list KeyValue; Count : Z }.

(** The key space the client reads, in key order, and whether requests
    fail (the cluster cannot be reached, the deadline passes). *)
Record Client : Type := { keyspace : list KeyValue; failure : option string }.

(** [Client.Get(ctx, key)] and [Client.Get(ctx, key, WithPrefix())] *)
Definition Get (c : Client) (key : string) (withPrefix : bool) : result GetResponse :=
  match failure c with
  | Some m => Err (ErrBackend m)
  | None =>
      let found :=
        List.filter
          (fun kv => if withPrefix then Strings.HasPrefix (Key kv) key
                     else String.eqb (Key kv) key)
          (keyspace c) in
      Ok {| Kvs := found; Count := Z.of_nat (length found) |}
  end.

End Clientv3.

(* ================================================================== *)
(** * The resolver: package [rdns] *)

Module Rdns.
Import Clientv3.

Definition priority : Z := 10.  (* default priority when nothing is set *)
Definition ttl : Z := 300.      (* default ttl when nothing is set *)

Definition errKeyNotFound : error := ErrKeyNotFound.

Record ETCD : Type := {
  Zones : list string;
  PathPrefix : string;
  Client : Clientv3.Client;
  WildcardBound : Z  (* int8 *)
}.

(** [IsNameError] *)
Definition IsNameError (err : error) : bool :=
  match err with ErrKeyNotFound => true | _ => false end.

(** [TTL] returns the smaller of the etcd TTL and the service's TTL.  If
    neither of these are set (have a zero value), a default is used. *)
Definition TTL (kv : KeyValue) (serv : Msg.Service) : Z :=
  let etcdTTL := Int.uint32 (Lease kv) in
  if (etcdTTL =? 0) && (Msg.TTL serv =? 0) then ttl
  else if etcdTTL =? 0 then Msg.TTL serv
  else if Msg.TTL serv =? 0 then etcdTTL
  else if etcdTTL <? Msg.TTL serv then etcdTTL
  else Msg.TTL serv.

(** [shouldInclude] *)
Definition shouldInclude (serv : Msg.Service) (qType : Z) : bool :=
  if qType =? Dns.TypeTXT then negb (String.eqb (Msg.Text serv) EmptyString)
  else negb (String.eqb (Msg.Host serv) EmptyString).

(** The regular expression [^\d{1,3}_\d{1,3}_\d{1,3}_\d{1,3}$]: four
    groups of one to three ASCII digits, separated by underscores. *)
Definition digits_1_3 (s : string) : bool :=
  Strings.all_bytes Strings.is_digit s
  && (1 <=? String.length s)%nat && (String.length s <=? 3)%nat.

Definition MatchIPv4Label (s : string) : bool :=
  match Strings.Split s "_" with
  | [a; b; c; d] => digits_1_3 a && digits_1_3 b && digits_1_3 c && digits_1_3 d
  | _ => false
  end.

Definition len {A} (l : list A) : Z := Z.of_nat (length l).

(** The body of the loop of [filterKvs] for one pair: [Some true] keeps
    it, [Some false] drops it, [None] is the index-out-of-range panic of
    [segments[len(segments)-1:][0]] on an empty [segments]. *)
Definition filterKv (e : ETCD) (segments : list string) (v : KeyValue) : option bool :=
  let ss := Strings.Split (Key v) "/" in
  match List.last (List.map Some segments) None with
  | None => None
  | Some s =>
      let m := MatchIPv4Label s in
      if negb (String.eqb s "*") && m
         && (WildcardBound e =? Int.int8 (Int.int8 (len segments) - 3))
      then Some false
      else
        Some ((negb (String.eqb s "*") && (len ss - len segments =? 1))
              || (String.eqb s "*" && (len ss - (len segments - 1) =? 1)))
  end.

Fixpoint filterKvs_loop (e : ETCD) (segments : list string) (kvs result : list KeyValue)
  : option (list KeyValue) :=
  match kvs with
  | [] => Some result
  | v :: kvs' =>
      match filterKv e segments v with
      | None => None
      | Some true => filterKvs_loop e segments kvs' (result ++ [v])
      | Some false => filterKvs_loop e segments kvs' result
      end
  end.

(** [filterKvs] returns kvs which not contain sub domain records. *)
Definition filterKvs (e : ETCD) (kvs : list KeyValue) (segments : list string) (qType : Z)
  : option (list KeyValue) :=
  if qType =? Dns.TypeA then filterKvs_loop e segments kvs []
  else Some kvs.

(** The inner loop of [loopNodes] over the parts of the name: [false]
    is [continue Nodes]. *)
Fixpoint matchParts (i : nat) (nameParts keyParts : list string) : bool :=
  match nameParts with
  | [] => true
  | n :: rest =>
      if Z.of_nat i >? len keyParts - 1 then false
      else if String.eqb n "*" || String.eqb n "any" then matchParts (S i) rest keyParts
      else if negb (String.eqb (nth i keyParts EmptyString) n) then false
      else matchParts (S i) rest keyParts
  end.

(** The loop of [loopNodes], with the set [bx] of services seen and the
    answer [sx] so far. *)
Fixpoint loopNodes_loop (kv : list KeyValue) (nameParts : list string) (star : bool)
    (qType : Z) (bx sx : list Msg.Service) : result (list Msg.Service) :=
  match kv with
  | [] => Ok sx
  | n :: kv' =>
      if star && negb (matchParts 0 nameParts (Strings.Split (Key n) "/"))
      then loopNodes_loop kv' nameParts star qType bx sx
      else
        match JSON.Unmarshal Msg.fields (Value n) Msg.zero with
        | Err err =>
            Err (ErrDecode (Key n)
                   (match err with ErrJSON m => m | _ => EmptyString end))
        | Ok serv =>
            let serv := Msg.with_Key (Key n) serv in
            if bool_decide (serv ∈ bx)
            then loopNodes_loop kv' nameParts star qType bx sx
            else
              let bx := serv :: bx in
              let serv := Msg.with_TTL (TTL n serv) serv in
              let serv :=
                if Msg.Priority serv =? 0 then Msg.with_Priority priority serv
                else serv in
              if shouldInclude serv qType
              then loopNodes_loop kv' nameParts star qType bx (sx ++ [serv])
              else loopNodes_loop kv' nameParts star qType bx sx
        end
  end.

Definition loopNodes (kv : list KeyValue) (nameParts : list string) (star : bool)
    (qType : Z) : result (list Msg.Service) :=
  loopNodes_loop kv nameParts star qType [] [].

Definition pathExist (e : ETCD) (ss : list string) : bool :=
  let '(path, _) := Msg.PathWithWildcard (Strings.Join ss ".") (PathPrefix e) in
  match Get (Client e) path true with
  | Err _ => false
  | Ok r => Count r >? 0
  end.

Definition get (e : ETCD) (path : string) (recursive : bool) : result GetResponse :=
  if recursive then
    let path := if negb (Strings.HasSuffix path "/") then path ++ "/" else path in
    match Get (Client e) path true with
    | Err err => Err err
    | Ok r =>
        if Count r =? 0 then
          let path := Strings.TrimSuffix path "/" in
          match Get (Client e) path false with
          | Err err => Err err
          | Ok r => if Count r =? 0 then Err errKeyNotFound else Ok r
          end
        else Ok r
    end
  else
    match Get (Client e) path false with
    | Err err => Err err
    | Ok r => if Count r =? 0 then Err errKeyNotFound else Ok r
    end.

(** The name the lookup uses: with a wildcard bound, a name of more
    labels than the bound under which nothing is stored collapses to
    [*.] and its last [WildcardBound] labels. *)
Definition collapse (e : ETCD) (name : string) (qType : Z) : string :=
  if (WildcardBound e >? 0) && negb (qType =? Dns.TypeTXT) then
    let temp := Dns.SplitDomainName name in
    if (Int.int8 (len temp) >? WildcardBound e) && negb (pathExist e temp) then
      let start := Int.int8 (Int.int8 (len temp) - WildcardBound e) in
      "*." ++ Strings.Join (List.skipn (Z.to_nat start) temp) "."
    else name
  else name.

(** [Records] looks up records in etcd; [name] and [qType] are the name
    and the type of the question. *)
Definition Records (e : ETCD) (name : string) (qType : Z) (exact : bool)
  : result (list Msg.Service) :=
  if List.existsb (fun zone => Strings.HasPrefix name zone) (Zones e) then Ok []
  else
    let name := collapse e name qType in
    let '(path, star) := Msg.PathWithWildcard name (PathPrefix e) in
    match get e path (negb exact) with
    | Err err => Err err
    | Ok r =>
        let segments := Strings.Split (Msg.Path name (PathPrefix e)) "/" in
        match filterKvs e (Kvs r) segments qType with
        | None => Err (ErrPanic "index out of range")
        | Some kvs => loopNodes kvs segments star qType
        end
    end.

End Rdns.

(* ================================================================== *)
(** * Stateful code: a store threaded through calls that may fail *)

Definition M (St A : Type) : Type := St -> result A * St.

Definition ret {St A} (a : A) : M St A := fun s => (Ok a, s).

Definition fail {St A} (e : error) : M St A := fun s => (Err e, s).

Definition bind {St A B} (m : M St A) (k : A -> M St B) : M St B :=
  fun s =>
    match m s with
    | (Ok a, s') => k a s'
    | (Err e, s') => (Err e, s')
    end.

Notation "x <- m ;; k" := (bind m (fun x => k))
  (at level 100, m at next level, right associativity).

(** [for _, x := range xs { ... }] with a body that may return an error. *)
Fixpoint for_each {St A} (xs : list A) (body : A -> M St unit) : M St unit :=
  match xs with
  | [] => ret tt
  | x :: xs' => _ <- body x ;; for_each xs' body
  end.

(** A loop that appends to a slice. *)
Fixpoint collect {St A B} (xs : list A) (body : A -> M St (option B)) (acc : list B)
  : M St (list B) :=
  match xs with
  | [] => ret acc
  | x :: xs' =>
      r <- body x ;;
      collect xs' body (match r with Some b => (acc ++ [b])%list | None => acc end)
  end.

(* ================================================================== *)
(** * The structs the stores hold, with their JSON forms *)

(** How a struct goes to and from JSON: the zero value, the table of
    fields of the decoder, and [json.Marshal]. *)
Class Codec (T : Type) : Type := {
  zero : T;
  fields : list (JSON.field T);
  Marshal : T -> result string
}.

(** [json.Unmarshal(data, &metadata)] where [metadata] is an
    [interface{}] that holds a pointer to a struct: [Some x] is a pointer
    to a variable holding [x], [None] the nil pointer.  Through a pointer
    the struct is decoded in place.  With the nil pointer the document is
    decoded into the interface value of the callee, a local: the caller's
    pointer stays nil, and only a malformed document is an error. *)
Definition Unmarshal {T} `{Codec T} (data : string) (metadata : option T)
  : result (option T) :=
  match metadata with
  | Some x =>
      match JSON.Unmarshal fields data x with
      | Ok x' => Ok (Some x')
      | Err e => Err e
      end
  | None =>
      if JSON.valid data then Ok None else Err (ErrJSON "invalid JSON")
  end.

Module FrozenPrefix.
Record t : Type := { Token : string; CreatedOn : Z (* int64 *) }.

Definition with_CreatedOn (c : Z) (x : t) : t :=
  {| Token := Token x; CreatedOn := c |}.

#[global] Instance codec : Codec t := {
  zero := {| Token := EmptyString; CreatedOn := 0 |};
  fields :=
    [ ("token", fun v x =>
         option_map (fun s => {| Token := s; CreatedOn := CreatedOn x |}) (JSON.as_string v));
      ("createdOn", fun v x =>
         option_map (fun c => with_CreatedOn c x) (JSON.as_int64 v)) ];
  Marshal x :=
    Ok (JSON.object [ JSON.string_member "token" true (Token x);
                      JSON.int_member "createdOn" true (CreatedOn x) ])
}.
End FrozenPrefix.

Module Token.
Record t : Type := { Token : string; Fqdn : string; CreatedOn : Z (* int64 *) }.

#[global] Instance codec : Codec t := {
  zero := {| Token := EmptyString; Fqdn := EmptyString; CreatedOn := 0 |};
  fields :=
    [ ("token", fun v x =>
         option_map (fun s => {| Token := s; Fqdn := Fqdn x; CreatedOn := CreatedOn x |})
           (JSON.as_string v));
      ("fqdn", fun v x =>
         option_map (fun s => {| Token := Token x; Fqdn := s; CreatedOn := CreatedOn x |})
           (JSON.as_string v));
      ("createdOn", fun v x =>
         option_map (fun c => {| Token := Token x; Fqdn := Fqdn x; CreatedOn := c |})
           (JSON.as_int64 v)) ];
  Marshal x :=
    Ok (JSON.object [ JSON.string_member "token" true (Token x);
                      JSON.string_member "fqdn" true (Fqdn x);
                      JSON.int_member "createdOn" true (CreatedOn x) ])
}.
End Token.

(** The anonymous [struct{ CreatedOn int64 }] of [GetExpiredValues]. *)
Module CreatedOnRecord.
Record t : Type := { CreatedOn : Z }.

#[global] Instance codec : Codec t := {
  zero := {| CreatedOn := 0 |};
  fields :=
    [ ("CreatedOn", fun v _ => option_map (fun c => {| CreatedOn := c |}) (JSON.as_int64 v)) ];
  Marshal x := Ok (JSON.object [ JSON.int_member "CreatedOn" false (CreatedOn x) ])
}.
End CreatedOnRecord.

(** The package [model], which the source imports and which is not among
    the files at hand. *)
Module Model.

(** [model.Token], with the fields [QueryToken] fills. *)
Module Token.
Record t : Type := { ID : Z; Token : string; Fqdn : string; CreatedOn : Z }.
End Token.

(** Modelled from the spec: [model.RecordA], of the data model's shape
    [{fqdn, hosts[], tid, text?}]. *)
Module RecordA.
Record t : Type := { Fqdn : string; Hosts : list string; TID : Z; Text : string }.

#[global] Instance codec : Codec t := {
  zero := {| Fqdn := EmptyString; Hosts := []; TID := 0; Text := EmptyString |};
  fields :=
    [ ("fqdn", fun v x =>
         option_map (fun s => {| Fqdn := s; Hosts := Hosts x; TID := TID x; Text := Text x |})
           (JSON.as_string v));
      ("hosts", fun v x =>
         option_map (fun l => {| Fqdn := Fqdn x; Hosts := l; TID := TID x; Text := Text x |})
           (JSON.as_strings v));
      ("tid", fun v x =>
         option_map (fun i => {| Fqdn := Fqdn x; Hosts := Hosts x; TID := i; Text := Text x |})
           (JSON.as_int64 v));
      ("text", fun v x =>
         option_map (fun s => {| Fqdn := Fqdn x; Hosts := Hosts x; TID := TID x; Text := s |})
           (JSON.as_string v)) ];
  Marshal x :=
    Ok (JSON.object [ JSON.string_member "fqdn" false (Fqdn x);
                      JSON.strings_member "hosts" false (Hosts x);
                      JSON.int_member "tid" false (TID x);
                      JSON.string_member "text" true (Text x) ])
}.
End RecordA.

(** Modelled from the spec: [model.SubRecordA], of the same shape as
    [RecordA]. *)
Module SubRecordA.
Record t : Type := { Fqdn : string; Hosts : list string; TID : Z; Text : string }.

#[global] Instance codec : Codec t := {
  zero := {| Fqdn := EmptyString; Hosts := []; TID := 0; Text := EmptyString |};
  fields :=
    [ ("fqdn", fun v x =>
         option_map (fun s => {| Fqdn := s; Hosts := Hosts x; TID := TID x; Text := Text x |})
           (JSON.as_string v));
      ("hosts", fun v x =>
         option_map (fun l => {| Fqdn := Fqdn x; Hosts := l; TID := TID x; Text := Text x |})
           (JSON.as_strings v));
      ("tid", fun v x =>
         option_map (fun i => {| Fqdn := Fqdn x; Hosts := Hosts x; TID := i; Text := Text x |})
           (JSON.as_int64 v));
      ("text", fun v x =>
         option_map (fun s => {| Fqdn := Fqdn x; Hosts := Hosts x; TID := TID x; Text := s |})
           (JSON.as_string v)) ];
  Marshal x :=
    Ok (JSON.object [ JSON.string_member "fqdn" false (Fqdn x);
                      JSON.strings_member "hosts" false (Hosts x);
                      JSON.int_member "tid" false (TID x);
                      JSON.string_member "text" true (Text x) ])
}.
End SubRecordA.

(** Modelled from the spec: [model.RecordCNAME], [{fqdn, target, tid}]. *)
Module RecordCNAME.
Record t : Type := { Fqdn : string; Target : string; TID : Z }.

#[global] Instance codec : Codec t := {
  zero := {| Fqdn := EmptyString; Target := EmptyString; TID := 0 |};
  fields :=
    [ ("fqdn", fun v x =>
         option_map (fun s => {| Fqdn := s; Target := Target x; TID := TID x |})
           (JSON.as_string v));
      ("target", fun v x =>
         option_map (fun s => {| Fqdn := Fqdn x; Target := s; TID := TID x |})
           (JSON.as_string v));
      ("tid", fun v x =>
         option_map (fun i => {| Fqdn := Fqdn x; Target := Target x; TID := i |})
           (JSON.as_int64 v)) ];
  Marshal x :=
    Ok (JSON.object [ JSON.string_member "fqdn" false (Fqdn x);
                      JSON.string_member "target" false (Target x);
                      JSON.int_member "tid" false (TID x) ])
}.
End RecordCNAME.

(** Modelled from the spec: [model.RecordTXT], [{fqdn, text, tid}]. *)
Module RecordTXT.
Record t : Type := { Fqdn : string; Text : string; TID : Z }.

#[global] Instance codec : Codec t := {
  zero := {| Fqdn := EmptyString; Text := EmptyString; TID := 0 |};
  fields :=
    [ ("fqdn", fun v x =>
         option_map (fun s => {| Fqdn := s; Text := Text x; TID := TID x |})
           (JSON.as_string v));
      ("text", fun v x =>
         option_map (fun s => {| Fqdn := Fqdn x; Text := s; TID := TID x |})
           (JSON.as_string v));
      ("tid", fun v x =>
         option_map (fun i => {| Fqdn := Fqdn x; Text := Text x; TID := i |})
           (JSON.as_int64 v)) ];
  Marshal x :=
    Ok (JSON.object [ JSON.string_member "fqdn" false (Fqdn x);
                      JSON.string_member "text" false (Text x);
                      JSON.int_member "tid" false (TID x) ])
}.
End RecordTXT.

End Model.


(* ================================================================== *)
(** * The key/value driver: package [keyvalue] *)

Module Keyvalue.

Definition DriverName : string := "keyvalue".

Definition TokenValueType : string := "token".
Definition FrozenPrefixValueType : string := "frozen-prefix".
Definition SubARecordValueType : string := "sub-a-record".
Definition ARecordValueType : string := "a-record".
Definition CNAMERecordValueType : string := "cname-record".
Definition TXTRecordValueType : string := "txt-record".

Definition ValueTypes : list string :=
  [FrozenPrefixValueType; SubARecordValueType; ARecordValueType;
   CNAMERecordValueType; TXTRecordValueType; TokenValueType].

(** The interface [KeyValueStore] over a store of type [St].  [metadata]
    of [GetValue] is the pointer the caller passes ([None]: nil); the
    result carries the variable behind it after the call.  The time of
    [GetExpiredValues] is given as [t.UnixNano()]. *)
Class KeyValueStore (St : Type) : Type := {
  GetValue : forall {T : Type} {C : Codec T},
    string -> string -> option T -> M St (string * option T);
  SetValue : forall {T : Type} {C : Codec T}, string -> string -> T -> M St unit;
  UpdateValue : forall {T : Type} {C : Codec T}, string -> string -> T -> M St unit;
  DeleteValue : string -> string -> M St unit;
  ListValues : string -> M St (list string);
  GetExpiredValues : string -> Z -> M St (list string)
}.

(** The variable behind a pointer that is not nil. *)
Definition pointee {T} `{Codec T} (p : option T) : T :=
  match p with Some x => x | None => zero end.

(** The methods of [KeyValueBackend].  A method that reads the wall
    clock takes [now], the value of [time.Now().UnixNano()] at its
    call. *)
Section KeyValueBackend.
Context {St : Type} {store : KeyValueStore St}.

Definition InsertFrozen (now : Z) (prefix : string) : M St unit :=
  SetValue prefix FrozenPrefixValueType
    {| FrozenPrefix.Token := EmptyString; FrozenPrefix.CreatedOn := now |}.

Definition QueryFrozen (prefix : string) : M St string :=
  let metadata : option FrozenPrefix.t := None in   (* var metadata *FrozenPrefix *)
  r <- GetValue prefix FrozenPrefixValueType metadata ;;
  match snd r with
  | None => ret EmptyString
  | Some _ => ret prefix
  end.

Definition RenewFrozen (now : Z) (prefix : string) : M St unit :=
  let metadata : option FrozenPrefix.t := None in   (* var metadata *FrozenPrefix *)
  r <- GetValue prefix FrozenPrefixValueType metadata ;;
  match snd r with
  | None => ret tt
  | Some metadata =>
      SetValue prefix FrozenPrefixValueType (FrozenPrefix.with_CreatedOn now metadata)
  end.

Definition DeleteFrozen (prefix : string) : M St unit :=
  DeleteValue prefix FrozenPrefixValueType.

Definition DeleteExpiredFrozen (t : Z) : M St unit :=
  expired <- GetExpiredValues FrozenPrefixValueType t ;;
  for_each expired (fun name => DeleteValue name FrozenPrefixValueType).

Definition MigrateFrozen (prefix : string) (expiration : Z) : M St unit :=
  SetValue prefix FrozenPrefixValueType
    {| FrozenPrefix.Token := EmptyString; FrozenPrefix.CreatedOn := expiration |}.

Definition InsertToken (now : Z) (token name : string) : M St Z :=
  let t := {| Token.Token := token; Token.Fqdn := name; Token.CreatedOn := now |} in
  _ <- SetValue name TokenValueType t ;;
  ret (Token.CreatedOn t).

Definition QueryTokenCount : M St Z :=
  tokens <- ListValues TokenValueType ;;
  ret (Z.of_nat (length tokens)).

Definition QueryToken (name : string) : M St Model.Token.t :=
  r <- GetValue name TokenValueType (Some (zero : Token.t)) ;;   (* var token Token *)
  let token := pointee (snd r) in
  ret {| Model.Token.ID := Token.CreatedOn token;
         Model.Token.Token := Token.Token token;
         Model.Token.Fqdn := Token.Fqdn token;
         Model.Token.CreatedOn := Token.CreatedOn token |}.

Definition QueryExpiredTokens (t : Z) : M St (list Model.Token.t) :=
  expired <- GetExpiredValues TokenValueType t ;;
  collect expired (fun name => token <- QueryToken name ;; ret (Some token)) [].

Definition RenewToken (now : Z) (name : string) : M St (Z * Z) :=
  to <- QueryToken name ;;
  let t := {| Token.Token := Model.Token.Token to;
              Token.Fqdn := Model.Token.Fqdn to;
              Token.CreatedOn := now |} in
  _ <- UpdateValue name TokenValueType t ;;
  ret (Token.CreatedOn t, Token.CreatedOn t).

Definition DeleteToken (token : string) : M St unit :=
  names <- ListValues TokenValueType ;;
  for_each names (fun name =>
    t <- QueryToken name ;;
    if String.eqb (Model.Token.Token t) token
    then DeleteValue (Model.Token.Fqdn t) TokenValueType
    else ret tt).

Definition MigrateToken (token name : string) (expiration : Z) : M St unit :=
  SetValue name TokenValueType
    {| Token.Token := token; Token.Fqdn := name; Token.CreatedOn := expiration |}.

Definition InsertA (a : Model.RecordA.t) : M St Z :=
  _ <- SetValue (Model.RecordA.Fqdn a) ARecordValueType a ;; ret 0.

Definition QueryA (name : string) : M St Model.RecordA.t :=
  r <- GetValue name ARecordValueType (Some (zero : Model.RecordA.t)) ;;
  ret (pointee (snd r)).

Definition UpdateA (a : Model.RecordA.t) : M St Z :=
  _ <- UpdateValue (Model.RecordA.Fqdn a) ARecordValueType a ;; ret 0.

Definition DeleteA (name : string) : M St unit :=
  DeleteValue name ARecordValueType.

Definition InsertSubA (a : Model.SubRecordA.t) : M St Z :=
  _ <- SetValue (Model.SubRecordA.Fqdn a) SubARecordValueType a ;; ret 0.

Definition UpdateSubA (a : Model.SubRecordA.t) : M St Z :=
  _ <- UpdateValue (Model.SubRecordA.Fqdn a) SubARecordValueType a ;; ret 0.

Definition QuerySubA (name : string) : M St Model.SubRecordA.t :=
  r <- GetValue name SubARecordValueType (Some (zero : Model.SubRecordA.t)) ;;
  ret (pointee (snd r)).

(** [ListSubA(id)]: the loop appends every record it reads. *)
Definition ListSubA (id : Z) : M St (list Model.SubRecordA.t) :=
  names <- ListValues SubARecordValueType ;;
  collect names (fun name => r <- QuerySubA name ;; ret (Some r)) [].

Definition DeleteSubA (name : string) : M St unit :=
  DeleteValue name SubARecordValueType.

Definition InsertCNAME (c : Model.RecordCNAME.t) : M St Z :=
  _ <- SetValue (Model.RecordCNAME.Fqdn c) CNAMERecordValueType c ;; ret 0.

Definition UpdateCNAME (c : Model.RecordCNAME.t) : M St Z :=
  _ <- UpdateValue (Model.RecordCNAME.Fqdn c) CNAMERecordValueType c ;; ret 0.

Definition QueryCNAME (name : string) : M St Model.RecordCNAME.t :=
  r <- GetValue name CNAMERecordValueType (Some (zero : Model.RecordCNAME.t)) ;;
  ret (pointee (snd r)).

Definition DeleteCNAME (name : string) : M St unit :=
  DeleteValue name CNAMERecordValueType.

Definition InsertTXT (a : Model.RecordTXT.t) : M St Z :=
  _ <- SetValue (Model.RecordTXT.Fqdn a) TXTRecordValueType a ;; ret 0.

Definition UpdateTXT (a : Model.RecordTXT.t) : M St Z :=
  _ <- UpdateValue (Model.RecordTXT.Fqdn a) TXTRecordValueType a ;; ret 0.

Definition DeleteTXT (name : string) : M St unit :=
  DeleteValue name TXTRecordValueType.

Definition QueryTXT (name : string) : M St Model.RecordTXT.t :=
  r <- GetValue name TXTRecordValueType (Some (zero : Model.RecordTXT.t)) ;;
  ret (pointee (snd r)).

(** [QueryExpiredTXTs(id)]: the loop appends the records whose [TID]
    is [id]. *)
Definition QueryExpiredTXTs (id : Z) : M St (list Model.RecordTXT.t) :=
  names <- ListValues TXTRecordValueType ;;
  collect names
    (fun name =>
       r <- QueryTXT name ;;
       ret (if Model.RecordTXT.TID r =? id then Some r else None)) [].

End KeyValueBackend.

End Keyvalue.


(* ================================================================== *)
(** * Go's [path] package and the file system under [os] *)

Module Path.

(** A cleaned path: whether it is rooted, and its components.  The path
    [.] is the relative path without components. *)
Definition t : Type := (bool * list string)%type.

(** One component met by [path.Clean]: empty components and [.] are
    dropped, [..] removes the component before it, stays in front of a
    relative path, and is dropped at the root. *)
Definition clean_step (rooted : bool) (stack : list string) (c : string) : list string :=
  if String.eqb c EmptyString || String.eqb c "." then stack
  else if String.eqb c ".." then
    match List.rev stack with
    | [] => if rooted then stack else (stack ++ [c])%list
    | top :: _ =>
        if String.eqb top ".." then (stack ++ [c])%list else List.removelast stack
    end
  else (stack ++ [c])%list.

Definition Clean (s : string) : t :=
  let rooted := Strings.HasPrefix s "/" in
  (rooted, List.fold_left (clean_step rooted) (Strings.Split s "/") []).

Fixpoint drop_empty (elem : list string) : list string :=
  match elem with
  | e :: rest => if String.eqb e EmptyString then drop_empty rest else elem
  | [] => []
  end.

(** [path.Join(elem...)]: the elements from the first non-empty one on,
    joined by slashes and cleaned; [None] is the empty string, returned
    when every element is empty. *)
Definition Join (elem : list string) : option t :=
  match drop_empty elem with
  | [] => None
  | es => Some (Clean (Strings.Join es "/"))
  end.

Definition to_string (p : option t) : string :=
  match p with
  | None => EmptyString
  | Some (true, cs) => "/" ++ Strings.Join cs "/"
  | Some (false, []) => "."
  | Some (false, cs) => Strings.Join cs "/"
  end.

(** A name a directory entry can have. *)
Definition is_file_name (c : string) : bool :=
  negb (String.eqb c EmptyString) && negb (String.eqb c ".") && negb (String.eqb c "..")
  && Strings.all_bytes (fun b => negb (Ascii.eqb b "/")) c.

End Path.

Module Os.

Inductive node : Type :=
| File (data : string)
| Dir.

(** The disk: the node at each cleaned path.  The root, the working
    directory and every path that ends in [..] are directories that are
    always there. *)
Abbreviation disk := (gmap Path.t node).

Definition implicit_dir (p : Path.t) : bool :=
  match List.last (List.map Some (snd p)) None with
  | None => true
  | Some c => String.eqb c ".."
  end.

Definition node_at (d : disk) (p : Path.t) : option node :=
  if implicit_dir p then Some Dir else d !! p.

(** Walking down to the directory that holds the last component:
    [ENOENT] at a missing directory, [ENOTDIR] at a file. *)
Fixpoint walk (d : disk) (rooted : bool) (above rest : list string) : option error :=
  match rest with
  | [] => None
  | [_] => None
  | c :: rest' =>
      let dir := (above ++ [c])%list in
      match node_at d (rooted, dir) with
      | None => Some (ErrNotExist (Path.to_string (Some (rooted, dir))))
      | Some (File _) => Some (ErrNotDir (Path.to_string (Some (rooted, dir))))
      | Some Dir => walk d rooted dir rest'
      end
  end.

(** The node a file name denotes, if any.  The empty name denotes none. *)
Definition resolve (d : disk) (filename : option Path.t) : result (Path.t * option node) :=
  match filename with
  | None => Err (ErrNotExist EmptyString)
  | Some p =>
      match walk d (fst p) [] (snd p) with
      | Some e => Err e
      | None => Ok (p, node_at d p)
      end
  end.

Definition IsNotExist (err : error) : bool :=
  match err with ErrNotExist _ => true | _ => false end.

(** [os.OpenFile(filename, O_RDWR|O_CREATE, 0600)], with [O_EXCL] when
    [excl]: the disk once the file is open.  The file is created empty
    when it is not there; a file that is there keeps its bytes. *)
Definition OpenFile (d : disk) (filename : option Path.t) (excl : bool) : result disk :=
  match resolve d filename with
  | Err e => Err e
  | Ok (p, Some Dir) =>
      if excl then Err (ErrExist (Path.to_string filename))
      else Err (ErrIsDir (Path.to_string filename))
  | Ok (p, Some (File _)) =>
      if excl then Err (ErrExist (Path.to_string filename)) else Ok d
  | Ok (p, None) => Ok (<[p := File EmptyString]> d)
  end.

(** [f.Write(b)] on a file just opened: the bytes go over the start of
    the file; what the file holds beyond them stays. *)
Definition overwrite (old b : string) : string :=
  b ++ substring (String.length b) (String.length old - String.length b) old.

Definition Write (d : disk) (filename : option Path.t) (b : string) : disk :=
  match filename with
  | Some p =>
      match d !! p with
      | Some (File old) => <[p := File (overwrite old b)]> d
      | _ => d
      end
  | None => d
  end.

(** [os.Open(filename)]: the node opened for reading. *)
Definition Open (d : disk) (filename : option Path.t) : result node :=
  match resolve d filename with
  | Err e => Err e
  | Ok (_, None) => Err (ErrNotExist (Path.to_string filename))
  | Ok (_, Some n) => Ok n
  end.

(** [ioutil.ReadAll(f)] *)
Definition ReadAll (f : node) : result string :=
  match f with
  | File data => Ok data
  | Dir => Err (ErrIsDir EmptyString)
  end.

(** [os.Stat(filename)] *)
Definition Stat (d : disk) (filename : option Path.t) : result node :=
  Open d filename.

(** [os.Remove(filename)] of a file. *)
Definition Remove (d : disk) (filename : option Path.t) : result disk :=
  match resolve d filename with
  | Err e => Err e
  | Ok (p, Some (File _)) => Ok (delete p d)
  | Ok (p, Some Dir) => Err (ErrIsDir (Path.to_string filename))
  | Ok (p, None) => Err (ErrNotExist (Path.to_string filename))
  end.

(** [os.Mkdir(name, 0700)] *)
Definition Mkdir (d : disk) (name : option Path.t) : result disk :=
  match resolve d name with
  | Err e => Err e
  | Ok (p, Some _) => Err (ErrExist (Path.to_string name))
  | Ok (p, None) => Ok (<[p := Dir]> d)
  end.

(** The name under which [q] is an entry of the directory [p]. *)
Definition entry_of (p q : Path.t) : option string :=
  if Bool.eqb (fst p) (fst q) then
    match List.rev (snd q) with
    | c :: above =>
        if bool_decide (List.rev above = snd p) && Path.is_file_name c
        then Some c else None
    | [] => None
    end
  else None.

Definition entries (d : disk) (p : Path.t) : gset string :=
  set_omap (entry_of p) (dom d).

#[global] Instance string_le_dec (a b : string) : Decision (String.leb a b = true).
Proof. unfold Decision. decide equality. Defined.

(** [ioutil.ReadDir(dirname)]: the names of the entries of a directory,
    sorted by name. *)
Definition ReadDir (d : disk) (dirname : option Path.t) : result (list string) :=
  match resolve d dirname with
  | Err e => Err e
  | Ok (p, Some Dir) =>
      Ok (merge_sort (fun a b => String.leb a b = true) (elements (entries d p)))
  | Ok (p, Some (File _)) => Err (ErrNotDir (Path.to_string dirname))
  | Ok (p, None) => Err (ErrNotExist (Path.to_string dirname))
  end.

End Os.

(* ================================================================== *)
(** * The file-system store: package [filesystem] *)

Module Filesystem.
Import Keyvalue.

(** The store: the directory it was made for, and the disk. *)
Record Filesystem : Type := { path : string; disk : gmap Path.t Os.node }.

Definition with_disk (d : gmap Path.t Os.node) (fs : Filesystem) : Filesystem :=
  {| path := path fs; disk := d |}.

(** [dirExists]; [None] is the nil dereference of [info.IsDir()] after
    an error of [os.Stat] other than not-exist. *)
Definition dirExists (d : gmap Path.t Os.node) (filename : option Path.t) : option bool :=
  match Os.Stat d filename with
  | Err err => if Os.IsNotExist err then Some false else None
  | Ok Os.Dir => Some true
  | Ok (Os.File _) => Some false
  end.

(** [fileExists] *)
Definition fileExists (d : gmap Path.t Os.node) (filename : option Path.t) : option bool :=
  match Os.Stat d filename with
  | Err err => if Os.IsNotExist err then Some false else None
  | Ok Os.Dir => Some false
  | Ok (Os.File _) => Some true
  end.

Fixpoint make_directories (d : gmap Path.t Os.node) (directories : list (option Path.t))
  : result (gmap Path.t Os.node) :=
  match directories with
  | [] => Ok d
  | directory :: rest =>
      match dirExists d directory with
      | None => Err (ErrPanic "nil pointer dereference")
      | Some true => make_directories d rest
      | Some false =>
          match Os.Mkdir d directory with
          | Err err => Err err
          | Ok d' => make_directories d' rest
          end
      end
  end.

(** [New(dsn, valueTypes)] on a disk. *)
Definition New (dsn : string) (valueTypes : list string) (d : gmap Path.t Os.node)
  : result Filesystem :=
  let directories :=
    (Path.Join [dsn] :: List.map (fun dir => Path.Join [dsn; dir]) valueTypes)%list in
  match make_directories d directories with
  | Err err => Err err
  | Ok d' => Ok {| path := dsn; disk := d' |}
  end.

Definition writeValue {T} {C : Codec T} (name valueType : string) (metadata : T)
    (update : bool) : M Filesystem unit :=
  fun fs =>
    let filename := Path.Join [path fs; valueType; name] in
    (* flag := os.O_EXCL | os.O_RDWR | os.O_CREATE, without O_EXCL on update *)
    match Os.OpenFile (disk fs) filename (negb update) with
    | Err err => (Err err, fs)
    | Ok opened =>
        match Marshal metadata with
        | Err err => (Err err, with_disk opened fs)
        | Ok j => (Ok tt, with_disk (Os.Write opened filename j) fs)
        end
    end.

Definition SetValue {T} {C : Codec T} (name valueType : string) (metadata : T)
  : M Filesystem unit :=
  writeValue name valueType metadata false.

Definition UpdateValue {T} {C : Codec T} (name valueType : string) (metadata : T)
  : M Filesystem unit :=
  writeValue name valueType metadata true.

Definition GetValue {T} {C : Codec T} (name valueType : string) (metadata : option T)
  : M Filesystem (string * option T) :=
  fun fs =>
    let filename := Path.Join [path fs; valueType; name] in
    match Os.Open (disk fs) filename with
    | Err err =>
        if Os.IsNotExist err then (Ok (EmptyString, metadata), fs) else (Err err, fs)
    | Ok f =>
        match Os.ReadAll f with
        | Err err => (Err err, fs)
        | Ok data =>
            match Unmarshal data metadata with
            | Err err => (Err err, fs)
            | Ok metadata' => (Ok (data, metadata'), fs)
            end
        end
    end.

Definition GetExpiredValues (valueType : string) (t : Z) : M Filesystem (list string) :=
  fun fs =>
    let dirname := Path.Join [path fs; valueType] in
    match Os.ReadDir (disk fs) dirname with
    | Err err => (Err err, fs)
    | Ok files =>
        collect files
          (fun file =>
             r <- GetValue file valueType (Some (zero : CreatedOnRecord.t)) ;;
             let record := pointee (snd r) in
             ret (if CreatedOnRecord.CreatedOn record <? t then Some file else None))
          [] fs
    end.

Definition DeleteValue (name valueType : string) : M Filesystem unit :=
  fun fs =>
    let filename := Path.Join [path fs; valueType; name] in
    match fileExists (disk fs) filename with
    | None => (Err (ErrPanic "nil pointer dereference"), fs)
    | Some true =>
        match Os.Remove (disk fs) filename with
        | Err err => (Err err, fs)
        | Ok d => (Ok tt, with_disk d fs)
        end
    | Some false => (Ok tt, fs)
    end.

Definition ListValues (valueType : string) : M Filesystem (list string) :=
  fun fs =>
    match Os.ReadDir (disk fs) (Path.Join [path fs; valueType]) with
    | Err err => (Err err, fs)
    | Ok names => (Ok names, fs)
    end.

#[global] Instance store : KeyValueStore Filesystem := {
  GetValue := @GetValue;
  SetValue := @SetValue;
  UpdateValue := @UpdateValue;
  DeleteValue := DeleteValue;
  ListValues := ListValues;
  GetExpiredValues := GetExpiredValues
}.

End Filesystem.


(* ================================================================== *)
(** * MD5 ([crypto/md5], RFC 1321), for the object names of the
    config-map store *)

Module Md5.
Local Open Scope N_scope.

Definition mask32 (x : N) : N := x mod 4294967296.
Definition add32 (a b : N) : N := mask32 (a + b).
Definition not32 (x : N) : N := N.lxor x 4294967295.
Definition rotl32 (x c : N) : N :=
  mask32 (N.lor (N.shiftl x c) (N.shiftr x (32 - c))).

(** The constants [floor(2^32 * abs(sin(i + 1)))]. *)
Definition K : list N :=
  [
    3614090360; 3905402710; 606105819; 3250441966; 4118548399; 1200080426;
    2821735955; 4249261313; 1770035416; 2336552879; 4294925233; 2304563134;
    1804603682; 4254626195; 2792965006; 1236535329; 4129170786; 3225465664;
    643717713; 3921069994; 3593408605; 38016083; 3634488961; 3889429448;
    568446438; 3275163606; 4107603335; 1163531501; 2850285829; 4243563512;
    1735328473; 2368359562; 4294588738; 2272392833; 1839030562; 4259657740;
    2763975236; 1272893353; 4139469664; 3200236656; 681279174; 3936430074;
    3572445317; 76029189; 3654602809; 3873151461; 530742520; 3299628645;
    4096336452; 1126891415; 2878612391; 4237533241; 1700485571; 2399980690;
    4293915773; 2240044497; 1873313359; 4264355552; 2734768916; 1309151649;
    4149444226; 3174756917; 718787259; 3951481745 ].

(** The shift of each round. *)
Definition S : list N :=
  [
    7; 12; 17; 22; 7; 12; 17; 22; 7; 12; 17; 22; 7; 12; 17; 22; 5; 9; 14;
    20; 5; 9; 14; 20; 5; 9; 14; 20; 5; 9; 14; 20; 4; 11; 16; 23; 4; 11; 16;
    23; 4; 11; 16; 23; 4; 11; 16; 23; 6; 10; 15; 21; 6; 10; 15; 21; 6; 10;
    15; 21; 6; 10; 15; 21 ].

Definition nth_N (l : list N) (i : nat) : N := List.nth i l 0.

(** The bytes of [n], least significant first, [k] of them. *)
Fixpoint le_bytes (k : nat) (n : N) : list N :=
  match k with
  | O => []
  | Datatypes.S k' => (n mod 256) :: le_bytes k' (n / 256)
  end.

(** The message followed by the byte 128, zeros up to 56 modulo 64, and
    its length in bits on eight bytes. *)
Definition pad (msg : list N) : list N :=
  let n := List.length msg in
  let zeros := ((55 + 64 - n mod 64) mod 64)%nat in
  (msg ++ [128] ++ List.repeat 0 zeros ++ le_bytes 8 (N.of_nat n * 8))%list.

Definition word_of_bytes (b0 b1 b2 b3 : N) : N :=
  b0 + 256 * (b1 + 256 * (b2 + 256 * b3)).

(** The 32-bit words of a run of bytes, four bytes to a word. *)
Fixpoint words (fuel : nat) (bytes : list N) : list N :=
  match fuel with
  | O => []
  | Datatypes.S fuel' =>
      match bytes with
      | b0 :: b1 :: b2 :: b3 :: rest => word_of_bytes b0 b1 b2 b3 :: words fuel' rest
      | _ => []
      end
  end.

Definition state : Type := (N * N * N * N)%type.

Definition step (M : list N) (st : state) (i : nat) : state :=
  let '(A, B, C, D) := st in
  let '(F, g) :=
    if (i <? 16)%nat then (N.lor (N.land B C) (N.land (not32 B) D), i)
    else if (i <? 32)%nat then
      (N.lor (N.land D B) (N.land (not32 D) C), ((5 * i + 1) mod 16)%nat)
    else if (i <? 48)%nat then (N.lxor B (N.lxor C D), ((3 * i + 5) mod 16)%nat)
    else (N.lxor C (N.lor B (not32 D)), ((7 * i) mod 16)%nat) in
  let F := add32 (add32 (add32 F A) (nth_N K i)) (nth_N M g) in
  (D, add32 B (rotl32 F (nth_N S i)), B, C).

Definition block (st : state) (M : list N) : state :=
  let '(a0, b0, c0, d0) := st in
  let '(A, B, C, D) := List.fold_left (step M) (List.seq 0 64) st in
  (add32 a0 A, add32 b0 B, add32 c0 C, add32 d0 D).

Fixpoint blocks (fuel : nat) (st : state) (ws : list N) : state :=
  match fuel with
  | O => st
  | Datatypes.S fuel' =>
      match ws with
      | [] => st
      | _ => blocks fuel' (block st (List.firstn 16 ws)) (List.skipn 16 ws)
      end
  end.

Definition init : state := (1732584193, 4023233417, 2562383102, 271733878).

Fixpoint bytes_of_string (s : string) : list N :=
  match s with
  | EmptyString => []
  | String c s' => N_of_ascii c :: bytes_of_string s'
  end.

(** [md5.Sum(data)], as its four words. *)
Definition Sum (data : string) : state :=
  let bytes := pad (bytes_of_string data) in
  let ws := words (List.length bytes) bytes in
  blocks (List.length ws) init ws.

Definition hex_byte (b : N) (rest : string) : string :=
  String (JSON.hex_digit (b / 16)) (String (JSON.hex_digit (b mod 16)) rest).

(** A word printed by [%x] as part of the sum: its four bytes, least
    significant first, two digits each. *)
Definition hex_word (w : N) (rest : string) : string :=
  hex_byte (w mod 256)
    (hex_byte ((w / 256) mod 256)
       (hex_byte ((w / 65536) mod 256)
          (hex_byte ((w / 16777216) mod 256) rest))).

(** [fmt.Sprintf("%x", md5.Sum(data))] *)
Definition hex (data : string) : string :=
  let '(a, b, c, d) := Sum data in
  hex_word a (hex_word b (hex_word c (hex_word d EmptyString))).

End Md5.


(* ================================================================== *)
(** * The Kubernetes client, as far as the config-map store uses it *)

Module K8sClient.

(** [corev1.ConfigMap], with the fields the store reads and writes. *)
Record ConfigMap : Type := {
  Name : string;
  Namespace : string;
  Annotations : gmap string string;
  Labels : gmap string string;
  Data : gmap string string
}.

(** What the client talks to: the namespaces, the config maps by
    namespace and name, and whether requests fail. *)
Record Manager : Type := {
  namespaces : gset string;
  configMaps : gmap (string * string) ConfigMap;
  outage : option string
}.

Definition with_configMaps (cms : gmap (string * string) ConfigMap) (m : Manager)
  : Manager :=
  {| namespaces := namespaces m; configMaps := cms; outage := outage m |}.

Definition IsNotFound (err : error) : bool :=
  match err with ErrNotExist _ => true | _ => false end.

Definition GetNamespace (m : Manager) (name : string) : result string :=
  match outage m with
  | Some msg => Err (ErrBackend msg)
  | None =>
      if bool_decide (name ∈ namespaces m) then Ok name else Err (ErrNotExist name)
  end.

Definition Get (m : Manager) (namespace name : string) : result ConfigMap :=
  match outage m with
  | Some msg => Err (ErrBackend msg)
  | None =>
      match configMaps m !! (namespace, name) with
      | Some cm => Ok cm
      | None => Err (ErrNotExist name)
      end
  end.

Definition Create (m : Manager) (cm : ConfigMap) : result Manager :=
  match outage m with
  | Some msg => Err (ErrBackend msg)
  | None =>
      match configMaps m !! (Namespace cm, Name cm) with
      | Some _ => Err (ErrExist (Name cm))
      | None => Ok (with_configMaps (<[(Namespace cm, Name cm) := cm]> (configMaps m)) m)
      end
  end.

Definition Update (m : Manager) (cm : ConfigMap) : result Manager :=
  match outage m with
  | Some msg => Err (ErrBackend msg)
  | None =>
      match configMaps m !! (Namespace cm, Name cm) with
      | Some _ => Ok (with_configMaps (<[(Namespace cm, Name cm) := cm]> (configMaps m)) m)
      | None => Err (ErrNotExist (Name cm))
      end
  end.

Definition Delete (m : Manager) (cm : ConfigMap) : result Manager :=
  match outage m with
  | Some msg => Err (ErrBackend msg)
  | None =>
      match configMaps m !! (Namespace cm, Name cm) with
      | Some _ => Ok (with_configMaps (delete (Namespace cm, Name cm) (configMaps m)) m)
      | None => Err (ErrNotExist (Name cm))
      end
  end.

Definition selected (namespace label value : string) (cm : ConfigMap) : bool :=
  String.eqb (Namespace cm) namespace
  && bool_decide (Labels cm !! label = Some value).

(** [List] in a namespace, with one matching label. *)
Definition List (m : Manager) (namespace label value : string) : result (list ConfigMap) :=
  match outage m with
  | Some msg => Err (ErrBackend msg)
  | None =>
      Ok (List.map snd
            (map_to_list
               (filter (fun entry => selected namespace label value (snd entry) = true)
                  (configMaps m))))
  end.

End K8sClient.

(* ================================================================== *)
(** * The config-map store: package [k8s] *)

Module K8s.
Import Keyvalue K8sClient.

Definition StorageName : string := "k8s".

Record K8sStore : Type := { mgr : Manager; namespace : string }.

Definition with_mgr (m : Manager) (s : K8sStore) : K8sStore :=
  {| mgr := m; namespace := namespace s |}.

Definition New (mgr : Manager) (namespace : string) : result K8sStore :=
  match GetNamespace mgr namespace with
  | Err err => Err err
  | Ok ns => Ok {| mgr := mgr; namespace := ns |}
  end.

Definition generateName (name valueType : string) : string :=
  let name := Md5.hex name in
  Strings.Join [name; valueType] "-".

(** [writeValue]; its parameter [update] is not read. *)
Definition writeValue {T} {C : Codec T} (name valueType : string) (metadata : T)
    (update : bool) : M K8sStore unit :=
  fun s =>
    let rname := generateName name valueType in
    let cm := {| Name := rname; Namespace := namespace s;
                 Annotations := ∅; Labels := ∅; Data := ∅ |} in
    (* Get fills [cm] when the object is there; [create] when it is not *)
    let got :=
      match Get (mgr s) (Namespace cm) (Name cm) with
      | Err err => if negb (IsNotFound err) then Err err else Ok (cm, true)
      | Ok found => Ok (found, false)
      end in
    match got with
    | Err err => (Err err, s)
    | Ok (cm, create) =>
        let cm := {| Name := Name cm; Namespace := Namespace cm;
                     Annotations := <["rdns-name" := name]> (Annotations cm);
                     Labels := <["rnds-value" := "true"]>
                                 (<["rdns-value-type" := valueType]> (Labels cm));
                     Data := Data cm |} in
        match Marshal metadata with
        | Err err => (Err err, s)
        | Ok j =>
            let cm := {| Name := Name cm; Namespace := Namespace cm;
                         Annotations := Annotations cm; Labels := Labels cm;
                         Data := <["data" := j]> (Data cm) |} in
            match (if create then Create (mgr s) cm else Update (mgr s) cm) with
            | Err err => (Err err, s)
            | Ok m => (Ok tt, with_mgr m s)
            end
        end
    end.

Definition SetValue {T} {C : Codec T} (name valueType : string) (metadata : T)
  : M K8sStore unit :=
  writeValue name valueType metadata false.

Definition UpdateValue {T} {C : Codec T} (name valueType : string) (metadata : T)
  : M K8sStore unit :=
  writeValue name valueType metadata true.

Definition DeleteValue (name valueType : string) : M K8sStore unit :=
  fun s =>
    let rname := generateName name valueType in
    match Get (mgr s) (namespace s) rname with
    | Err err => if IsNotFound err then (Ok tt, s) else (Err err, s)
    | Ok cm =>
        match Delete (mgr s) cm with
        | Err err => (Err err, s)
        | Ok m => (Ok tt, with_mgr m s)
        end
    end.

Definition ListValues (valueType : string) : M K8sStore (list string) :=
  fun s =>
    match List (mgr s) (namespace s) "rdns-value-type" valueType with
    | Err err => (Err err, s)
    | Ok items =>
        (Ok (List.map (fun cm => default EmptyString (Annotations cm !! "rdns-name")) items),
         s)
    end.

Definition GetValue {T} {C : Codec T} (name valueType : string) (metadata : option T)
  : M K8sStore (string * option T) :=
  fun s =>
    let rname := generateName name valueType in
    match Get (mgr s) (namespace s) rname with
    | Err err =>
        if negb (IsNotFound err) then (Err err, s)
        else (Ok (EmptyString, metadata), s)
    | Ok cm =>
        let data := default EmptyString (Data cm !! "data") in
        match Unmarshal data metadata with
        | Err err => (Err err, s)
        | Ok metadata' => (Ok (data, metadata'), s)
        end
    end.

Definition GetExpiredValues (valueType : string) (t : Z) : M K8sStore (list string) :=
  names <- ListValues valueType ;;
  collect names
    (fun name =>
       r <- GetValue name valueType (Some (zero : CreatedOnRecord.t)) ;;
       let record := pointee (snd r) in
       ret (if CreatedOnRecord.CreatedOn record <? t then Some name else None))
    [].

#[global] Instance store : KeyValueStore K8sStore := {
  GetValue := @GetValue;
  SetValue := @SetValue;
  UpdateValue := @UpdateValue;
  DeleteValue := DeleteValue;
  ListValues := ListValues;
  GetExpiredValues := GetExpiredValues
}.

End K8s.


(* ================================================================== *)
(** * Scenarios and predicates of the properties of the resolver *)

Module ResolverScenarios.
Import Clientv3 Rdns.
Local Open Scope list_scope.

(** The rule of the specification for one pair, from its words: [n] is
    the number of segments of the query path, [leaf] its last segment,
    [l] the number of segments of the key. *)
Definition sibling_rule (wildcardBound n : Z) (leaf : string) (l : Z) : bool :=
  negb (MatchIPv4Label leaf && (wildcardBound =? n - 3))
  && ((negb (String.eqb leaf "*") && (l - n =? 1))
      || (String.eqb leaf "*" && (l - (n - 1) =? 1))).

Definition S3_config (keys : list KeyValue) : ETCD :=
  {| Zones := ["lb.example."]; PathPrefix := "rdnsv3";
     Client := {| keyspace := keys; failure := None |}; WildcardBound := 3 |}.

Definition S3_host1 : KeyValue :=
  {| Key := "/rdnsv3/example/lb/host1/1_1_1_1";
     Value := JSON.js "{'host':'1.1.1.1'}"; Lease := 0 |}.
Definition S3_sub : KeyValue :=
  {| Key := "/rdnsv3/example/lb/host1/sub/2_2_2_2";
     Value := JSON.js "{'host':'2.2.2.2'}"; Lease := 0 |}.

Definition S1_config (keys : list KeyValue) : ETCD :=
  {| Zones := ["lb.example."]; PathPrefix := "rdnsv3";
     Client := {| keyspace := keys; failure := None |}; WildcardBound := 3 |}.

Definition S1_query : string := "foo.bar.baz.1_2_3_4.lb.example.".

(** The one pair of the scenario, with the key as the specification
    writes it. *)
Definition S1_pair : KeyValue :=
  {| Key := "rdnsv3/example/lb/*/1_2_3_4";
     Value := JSON.js "{'host':'1.2.3.4'}"; Lease := 100 |}.

(** The same pair with the leading slash of the path codec. *)
Definition S1_pair_rooted : KeyValue :=
  {| Key := "/rdnsv3/example/lb/*/1_2_3_4";
     Value := JSON.js "{'host':'1.2.3.4'}"; Lease := 100 |}.

(** The pair stored one level under the path of the collapsed name. *)
Definition S1_pair_under_path : KeyValue :=
  {| Key := "/rdnsv3/example/lb/1_2_3_4/1_2_3_4";
     Value := JSON.js "{'host':'1.2.3.4'}"; Lease := 100 |}.

(** Whether [loopNodes] reaches the decoding of a pair: always without
    [star], and with [star] when the key matches the parts of the name. *)
Definition examined (star : bool) (nameParts : list string) (n : KeyValue) : bool :=
  negb (star && negb (matchParts 0 nameParts (Strings.Split (Key n) "/"))).

Definition decodes (n : KeyValue) : bool :=
  is_ok (JSON.Unmarshal Msg.fields (Value n) Msg.zero).

Definition S_web_good : KeyValue :=
  {| Key := "/rdnsv3/example/lb/web/1_1_1_1";
     Value := JSON.js "{'host':'1.1.1.1'}"; Lease := 0 |}.
Definition S_web_malformed : KeyValue :=
  {| Key := "/rdnsv3/example/lb/web/2_2_2_2";
     Value := JSON.js "{'host':"; Lease := 0 |}.

(** A resolver whose etcd cluster does not answer. *)
Definition unreachable (zones : list string) : ETCD :=
  {| Zones := zones; PathPrefix := "rdnsv3";
     Client := {| keyspace := []; failure := Some "context deadline exceeded" |};
     WildcardBound := 3 |}.

(** What [loopNodes] does with [star] set, for one key: the key has a
    part for every part of the name, and agrees with it wherever the part
    of the name is neither [*] nor [any]. *)
Definition parts_match (nameParts keyParts : list string) : Prop :=
  (length nameParts <= length keyParts)%nat
  /\ forall (i : nat) (n : string),
       nameParts !! i = Some n ->
       n = "*"%string \/ n = "any"%string \/ keyParts !! i = Some n.

(** A service of an answer to a question of type [qType], made from one
    of the pairs [kv]: its key is the key of the pair, its TTL and its
    priority are set, the TTL is not beyond the lease of the pair when
    the pair has one, and it has the field the question asks for. *)
Definition answers (kv : list KeyValue) (qType : Z) (serv : Msg.Service) : Prop :=
  Msg.Priority serv <> 0
  /\ Msg.TTL serv <> 0
  /\ shouldInclude serv qType = true
  /\ exists n, In n kv /\ Msg.Key serv = Key n
               /\ (Int.uint32 (Lease n) <> 0 -> Msg.TTL serv <= Int.uint32 (Lease n)).

End ResolverScenarios.

(* ================================================================== *)
(** * Scenarios and predicates of the properties of the record store *)

Module StoreScenarios.
Import Keyvalue.
Local Open Scope list_scope.

(** The file-system store [New("/data", ValueTypes)] makes on an empty
    disk. *)
Definition data_dir : Filesystem.Filesystem :=
  match Filesystem.New "/data" ValueTypes ∅ with
  | Ok fs => fs
  | Err _ => {| Filesystem.path := "/data"; Filesystem.disk := ∅ |}
  end.

(** The config-map store [New(mgr, "rdns")] makes on a cluster with the
    namespace [rdns] and no config maps. *)
Definition rdns_namespace : K8s.K8sStore :=
  {| K8s.mgr := {| K8sClient.namespaces := {["rdns"%string]};
                   K8sClient.configMaps := ∅;
                   K8sClient.outage := None |};
     K8s.namespace := "rdns" |}.

(** The store after a call, and the result of a call. *)
Definition after {St A} (m : M St A) (s : St) : St := snd (m s).
Definition result_of {St A} (m : M St A) (s : St) : result A := fst (m s).

(** The frozen prefix [abc], created at time 1000. *)
Definition frozen_abc_file : Filesystem.Filesystem :=
  after (InsertFrozen 1000 "abc") data_dir.
Definition frozen_abc_configmap : K8s.K8sStore :=
  after (InsertFrozen 1000 "abc") rdns_namespace.

Definition sub_a_one : Model.SubRecordA.t :=
  {| Model.SubRecordA.Fqdn := "a.abc.lb.example"; Model.SubRecordA.Hosts := ["1.1.1.1"%string];
     Model.SubRecordA.TID := 1; Model.SubRecordA.Text := "" |}.
Definition sub_a_two : Model.SubRecordA.t :=
  {| Model.SubRecordA.Fqdn := "b.xyz.lb.example"; Model.SubRecordA.Hosts := ["2.2.2.2"%string];
     Model.SubRecordA.TID := 2; Model.SubRecordA.Text := "" |}.
Definition txt_one : Model.RecordTXT.t :=
  {| Model.RecordTXT.Fqdn := "a.abc.lb.example"; Model.RecordTXT.Text := "one";
     Model.RecordTXT.TID := 1 |}.
Definition txt_two : Model.RecordTXT.t :=
  {| Model.RecordTXT.Fqdn := "b.xyz.lb.example"; Model.RecordTXT.Text := "two";
     Model.RecordTXT.TID := 2 |}.

(** A store with a sub-A record and a TXT record of token 1, and a
    sub-A record and a TXT record of token 2. *)
Definition two_owners {St} {store : KeyValueStore St} (s : St) : St :=
  after (InsertTXT txt_two)
    (after (InsertTXT txt_one)
       (after (InsertSubA sub_a_two) (after (InsertSubA sub_a_one) s))).

Definition a_two_hosts : Model.RecordA.t :=
  {| Model.RecordA.Fqdn := "abc.lb.example";
     Model.RecordA.Hosts := ["1.1.1.1"%string; "2.2.2.2"%string];
     Model.RecordA.TID := 7; Model.RecordA.Text := "" |}.
Definition a_one_host : Model.RecordA.t :=
  {| Model.RecordA.Fqdn := "abc.lb.example";
     Model.RecordA.Hosts := ["1.1.1.1"%string];
     Model.RecordA.TID := 7; Model.RecordA.Text := "" |}.

Definition file_bytes (fs : Filesystem.Filesystem) (valueType name : string)
  : result string :=
  match Os.Open (Filesystem.disk fs)
          (Path.Join [Filesystem.path fs; valueType; name]) with
  | Ok f => Os.ReadAll f
  | Err e => Err e
  end.

(** [d'] is [d] except, at most, at the path [filename]. *)
Definition touches_only (filename : option Path.t) (d d' : gmap Path.t Os.node) : Prop :=
  forall q, Some q <> filename -> d' !! q = d !! q.

(** The config maps are stored under their namespace and name, and one
    that carries the label of a type is named for that type: what holds
    of a namespace in which the store alone writes. *)
Definition named_by_type (m : K8sClient.Manager) : Prop :=
  forall ns rname cm,
    K8sClient.configMaps m !! (ns, rname) = Some cm ->
    K8sClient.Namespace cm = ns /\ K8sClient.Name cm = rname
    /\ (forall t, K8sClient.Labels cm !! "rdns-value-type"%string = Some t ->
                  exists n, rname = K8s.generateName n t).

(** [s'] is [s] except, at most, at the config map of the name [n1] under
    the type [t1], which is gone, as before, or labelled [t1]. *)
Definition config_map_step (s s' : K8s.K8sStore) (n1 t1 : string) : Prop :=
  K8s.namespace s' = K8s.namespace s
  /\ K8sClient.outage (K8s.mgr s') = K8sClient.outage (K8s.mgr s)
  /\ (forall q, q <> (K8s.namespace s, K8s.generateName n1 t1) ->
                K8sClient.configMaps (K8s.mgr s') !! q
                = K8sClient.configMaps (K8s.mgr s) !! q)
  /\ (forall cm,
        K8sClient.configMaps (K8s.mgr s') !! (K8s.namespace s, K8s.generateName n1 t1)
        = Some cm ->
        (K8sClient.Labels cm !! "rdns-value-type"%string = Some t1
         /\ K8sClient.Namespace cm = K8s.namespace s
         /\ K8sClient.Name cm = K8s.generateName n1 t1)
        \/ K8sClient.configMaps (K8s.mgr s) !! (K8s.namespace s, K8s.generateName n1 t1)
           = Some cm).

(** A mutation of a store: [Set], [Update] or [Delete]. *)
Inductive mutation (T : Type) : Type :=
| DoSet (metadata : T)
| DoUpdate (metadata : T)
| DoDelete.
Arguments DoSet {T} metadata.
Arguments DoUpdate {T} metadata.
Arguments DoDelete {T}.

Definition mutate {St} {store : KeyValueStore St} {T} {C : Codec T}
    (m : mutation T) (name valueType : string) : M St unit :=
  match m with
  | DoSet metadata => SetValue name valueType metadata
  | DoUpdate metadata => UpdateValue name valueType metadata
  | DoDelete => DeleteValue name valueType
  end.

(** What is read under a type: [Get] of a name, [List], [GetExpired]. *)
Definition reads {St} {store : KeyValueStore St} {U} {CU : Codec U}
    (valueType name : string) (target : option U) (cutoff : Z) (s : St)
  : result (string * option U) * result (list string) * result (list string) :=
  (result_of (GetValue name valueType target) s,
   result_of (ListValues valueType) s,
   result_of (GetExpiredValues valueType cutoff) s).

Definition token_evil : Token.t :=
  {| Token.Token := "x"; Token.Fqdn := "evil"; Token.CreatedOn := 1 |}.

Definition no_token : Model.Token.t :=
  {| Model.Token.ID := 0; Model.Token.Token := ""; Model.Token.Fqdn := "";
     Model.Token.CreatedOn := 0 |}.

(** Nothing is stored for [name] under [valueType] on the file-system
    store: the name is a file name, the directory of the type is there and
    it holds no entry of that name. *)
Definition absent_file (fs : Filesystem.Filesystem) (valueType name : string) : Prop :=
  Path.is_file_name name = true
  /\ exists p : Path.t,
       Os.resolve (Filesystem.disk fs)
         (Path.Join [Filesystem.path fs; valueType]) = Ok (p, Some Os.Dir)
       /\ Filesystem.disk fs !! (fst p, snd p ++ [name]) = None.

(** Nothing is stored for [name] under [valueType] on the config-map
    store: requests are answered, and no config map has the object name. *)
Definition absent_config_map (s : K8s.K8sStore) (valueType name : string) : Prop :=
  K8sClient.outage (K8s.mgr s) = None
  /\ K8sClient.configMaps (K8s.mgr s)
       !! (K8s.namespace s, K8s.generateName name valueType) = None.

(** A call that leaves the store as it was, whatever it returns. *)
Definition read_only {St A} (m : M St A) : Prop := forall s : St, after m s = s.

(** A lower-case hexadecimal digit, as [%x] prints one. *)
Definition is_lower_hex (c : ascii) : bool :=
  let n := nat_of_ascii c in
  ((48 <=? n) && (n <=? 57) || (97 <=? n) && (n <=? 102))%nat.

(** The store after a run of mutations, each of a name under a type. *)
Definition run {St} {store : KeyValueStore St} {T} {C : Codec T}
    (ops : list (mutation T * string * string)) (s : St) : St :=
  List.fold_left (fun s op => after (mutate (fst (fst op)) (snd (fst op)) (snd op)) s)
    ops s.

End StoreScenarios.

(* ================================================================== *)
(** * The library models on known values *)

Section LibraryChecks.
Import Keyvalue.
Local Open Scope list_scope.

(** The test suite of RFC 1321. *)
Example Md5_test_suite :
  Md5.hex "" = "d41d8cd98f00b204e9800998ecf8427e"%string
  /\ Md5.hex "a" = "0cc175b9c0f1b6a831c399e269772661"%string
  /\ Md5.hex "abc" = "900150983cd24fb0d6963f7d28e17f72"%string
  /\ Md5.hex "message digest" = "f96b697d7cb7938d525a2f31aaf161d0"%string
  /\ Md5.hex "abcdefghijklmnopqrstuvwxyz" = "c3fcd3d76192e4007dfb496cca67e13b"%string
  /\ Md5.hex "12345678901234567890123456789012345678901234567890123456789012345678901234567890"
     = "57edf4a22be3c955ac49da2e2107b67a"%string.
Proof. repeat apply conj; vm_compute; reflexivity. Qed.

Example generateName_example :
  K8s.generateName "abc" FrozenPrefixValueType
  = "900150983cd24fb0d6963f7d28e17f72-frozen-prefix"%string.
Proof. vm_compute. reflexivity. Qed.

Example JSON_parse_examples :
  JSON.parse (JSON.js "{'host':'1.2.3.4','ttl':50}")
  = Some (JSON.Object [("host"%string, JSON.Str "1.2.3.4");
                       ("ttl"%string, JSON.Number "50")])
  /\ JSON.parse (JSON.js " [1, -2.5e+3, true, null, {'k':[]}] ")
     = Some (JSON.Array [JSON.Number "1"; JSON.Number "-2.5e+3"; JSON.Bool true;
                         JSON.Null; JSON.Object [("k"%string, JSON.Array [])]])
  /\ JSON.parse (JSON.js "{'host':") = None
  /\ JSON.parse (JSON.js "{'a':1,}") = None
  /\ JSON.parse (JSON.js "{'a':1}x") = None
  /\ JSON.parse "01" = None
  /\ JSON.parse "" = None.
Proof. repeat apply conj; vm_compute; reflexivity. Qed.

(** Decoding: keys match without regard to case, unknown keys are
    skipped, a number does not go into a string field. *)
Example Unmarshal_examples :
  Unmarshal (JSON.js "{'token':'s3','fqdn':'abc.lb.example','createdOn':7}")
    (Some (zero : Token.t))
  = Ok (Some {| Token.Token := "s3"; Token.Fqdn := "abc.lb.example"; Token.CreatedOn := 7 |})
  /\ Unmarshal (JSON.js "{'createdOn':7,'other':[1,2]}") (Some (zero : CreatedOnRecord.t))
     = Ok (Some {| CreatedOnRecord.CreatedOn := 7 |})
  /\ Unmarshal (JSON.js "{'token':5}") (Some (zero : Token.t))
     = Err (ErrJSON "cannot unmarshal into Go value")
  /\ Unmarshal (JSON.js "{'createdOn':1.5}") (Some (zero : Token.t))
     = Err (ErrJSON "cannot unmarshal into Go value")
  /\ Unmarshal (JSON.js "{'token':'s3'}") (None : option Token.t) = Ok None
  /\ Unmarshal (JSON.js "{'token':") (None : option Token.t) = Err (ErrJSON "invalid JSON").
Proof. repeat apply conj; vm_compute; reflexivity. Qed.

Example Marshal_examples :
  Marshal {| Token.Token := "s3"; Token.Fqdn := "abc.lb.example"; Token.CreatedOn := 7 |}
  = Ok (JSON.js "{'token':'s3','fqdn':'abc.lb.example','createdOn':7}")
  /\ Marshal {| FrozenPrefix.Token := ""; FrozenPrefix.CreatedOn := 1000 |}
     = Ok (JSON.js "{'createdOn':1000}")
  /\ Marshal (zero : Token.t) = Ok "{}"%string.
Proof. repeat apply conj; vm_compute; reflexivity. Qed.

Example Path_Join_examples :
  Path.Join ["/data"; "token"; "abc.lb.example"]%string
  = Some (true, ["data"; "token"; "abc.lb.example"]%string)
  /\ Path.Join ["/data"; "a-record"; "../token/evil"]%string
     = Some (true, ["data"; "token"; "evil"]%string)
  /\ Path.Join ["data//"; "./token"; ""]%string = Some (false, ["data"; "token"]%string)
  /\ Path.Join ["/"; ".."; "x"]%string = Some (true, ["x"%string])
  /\ Path.Join [""; ""]%string = None.
Proof. repeat apply conj; vm_compute; reflexivity. Qed.

Example Msg_Path_examples :
  Msg.Path "a.b.c.example.com" "rdnsv3" = "/rdnsv3/com/example/c/b/a"%string
  /\ Msg.Path "Host1.LB.example." "rdnsv3" = "/rdnsv3/example/lb/host1"%string
  /\ Msg.PathWithWildcard "*.host1.lb.example." "rdnsv3"
     = ("/rdnsv3/example/lb/host1"%string, true)
  /\ Msg.PathWithWildcard "host1.lb.example." "rdnsv3"
     = ("/rdnsv3/example/lb/host1"%string, false).
Proof. repeat apply conj; vm_compute; reflexivity. Qed.

End LibraryChecks.

(* ================================================================== *)
(** * Properties of [strings.Split] *)

Section SplitProps.
Local Open Scope list_scope.

Lemma SplitByte_nonempty (sep : ascii) (s : string) : Strings.SplitByte sep s <> [].
Proof.
  destruct s as [| c s]; simpl; [discriminate |].
  destruct (Ascii.eqb c sep); [discriminate |].
  destruct (Strings.SplitByte sep s); discriminate.
Qed.

Lemma SplitByte_no_sep (sep : ascii) (s : string) :
  Strings.all_bytes (fun b => negb (Ascii.eqb b sep)) s = true ->
  Strings.SplitByte sep s = [s].
Proof.
  induction s as [| c s IH]; simpl; [reflexivity |].
  intros H. apply andb_true_iff in H as [Hc Hs].
  apply negb_true_iff in Hc. rewrite Hc, (IH Hs). reflexivity.
Qed.

Lemma SplitByte_app (sep : ascii) (a b : string) :
  Strings.SplitByte sep (a ++ String sep b)%string
  = Strings.SplitByte sep a ++ Strings.SplitByte sep b.
Proof.
  induction a as [| c a IH]; simpl.
  - rewrite Ascii.eqb_refl. reflexivity.
  - destruct (Ascii.eqb c sep); [rewrite IH; reflexivity |].
    rewrite IH. pose proof (SplitByte_nonempty sep a) as Hne.
    destruct (Strings.SplitByte sep a); [contradiction | reflexivity].
Qed.

Lemma append_assoc (a b c : string) : ((a ++ b) ++ c = a ++ (b ++ c))%string.
Proof.
  induction a as [| x a IH]; [reflexivity |].
  change (String x ((a ++ b) ++ c)%string = String x (a ++ (b ++ c))%string).
  rewrite IH. reflexivity.
Qed.

Lemma append_empty (s : string) : (s ++ EmptyString)%string = s.
Proof.
  induction s as [| c s IH]; [reflexivity |].
  change (String c (s ++ EmptyString)%string = String c s). rewrite IH. reflexivity.
Qed.

(** A run of fields, each behind a separator, splits into the fields. *)
Lemma SplitByte_fields (sep : ascii) (first : string) (fields : list string) :
  Forall (fun f => Strings.all_bytes (fun b => negb (Ascii.eqb b sep)) f = true)
    (first :: fields) ->
  Strings.SplitByte sep
    (first ++ String.concat EmptyString
                (List.map (fun f => String sep f) fields))%string
  = first :: fields.
Proof.
  revert first. induction fields as [| f fields IH]; intros first H.
  - inversion H; subst. simpl. rewrite append_empty. apply SplitByte_no_sep. assumption.
  - inversion H as [| ? ? Hfirst Hrest]; subst.
    replace (String.concat EmptyString (List.map (fun f => String sep f) (f :: fields)))
      with (String sep (f ++ String.concat EmptyString
                                (List.map (fun f => String sep f) fields))%string).
    + rewrite SplitByte_app, (IH f Hrest), (SplitByte_no_sep _ _ Hfirst). reflexivity.
    + destruct fields as [| g fields]; simpl; [rewrite append_empty |]; reflexivity.
Qed.

End SplitProps.

(* ================================================================== *)
(** * Properties of the resolver *)

Section ResolverProps.
Import Clientv3 Rdns ResolverScenarios.
Local Open Scope list_scope.

(** ** TTL negotiation *)

Lemma uint32_small (x : Z) : 0 <= x < 2 ^ 32 -> Int.uint32 x = x.
Proof. intros H. unfold Int.uint32. apply Z.mod_small. exact H. Qed.

(** C2: the TTL of an answer.  With [leaseTTL] the lease of the pair as
    the resolver reads it (its 32-bit value) and [serviceTTL] the [ttl]
    field of the service: 300 when both are zero, the non-zero one when
    exactly one is zero, the minimum when both are non-zero; lease 200
    with ttl 50 gives 50, both zero give 300, lease 77 with ttl 0 gives
    77. *)
Theorem TTL_negotiation (kv : KeyValue) (serv : Msg.Service) :
  let leaseTTL := Int.uint32 (Lease kv) in
  let serviceTTL := Msg.TTL serv in
  ((leaseTTL = 0 /\ serviceTTL = 0 -> TTL kv serv = 300)
   /\ (leaseTTL = 0 /\ serviceTTL <> 0 -> TTL kv serv = serviceTTL)
   /\ (leaseTTL <> 0 /\ serviceTTL = 0 -> TTL kv serv = leaseTTL)
   /\ (leaseTTL <> 0 /\ serviceTTL <> 0 -> TTL kv serv = Z.min leaseTTL serviceTTL))
  /\ TTL {| Key := Key kv; Value := Value kv; Lease := 200 |} (Msg.with_TTL 50 serv) = 50
  /\ TTL {| Key := Key kv; Value := Value kv; Lease := 0 |} (Msg.with_TTL 0 serv) = 300
  /\ TTL {| Key := Key kv; Value := Value kv; Lease := 77 |} (Msg.with_TTL 0 serv) = 77.
Proof.
  cbv zeta. unfold TTL, ttl. simpl Lease. simpl Msg.TTL.
  repeat split; try reflexivity.
  - intros [-> ->]. reflexivity.
  - intros [-> Hs]. simpl. destruct (Z.eqb_spec (Msg.TTL serv) 0); [contradiction | reflexivity].
  - intros [Hl ->]. destruct (Z.eqb_spec (Int.uint32 (Lease kv)) 0); [contradiction | reflexivity].
  - intros [Hl Hs].
    destruct (Z.eqb_spec (Int.uint32 (Lease kv)) 0); [contradiction |].
    destruct (Z.eqb_spec (Msg.TTL serv) 0); [contradiction |]. simpl.
    destruct (Z.ltb_spec (Int.uint32 (Lease kv)) (Msg.TTL serv)); lia.
Qed.

(** A lease that fits 32 bits is read as it is. *)
Lemma TTL_lease_in_range (kv : KeyValue) (serv : Msg.Service) :
  0 < Lease kv < 2 ^ 32 -> 0 < Msg.TTL serv ->
  TTL kv serv = Z.min (Lease kv) (Msg.TTL serv).
Proof.
  intros Hl Hs. unfold TTL. rewrite uint32_small by lia.
  destruct (Z.eqb_spec (Lease kv) 0); [lia |].
  destruct (Z.eqb_spec (Msg.TTL serv) 0); [lia |]. simpl.
  destruct (Z.ltb_spec (Lease kv) (Msg.TTL serv)); lia.
Qed.

(** ** The sibling filter *)

Lemma last_Some_app {A} (l : list A) (x : A) :
  List.last (List.map Some (l ++ [x])%list) None = Some x.
Proof. rewrite List.map_app. simpl. apply List.last_last. Qed.

Lemma int8_minus_3 (n : Z) : 0 <= n <= 130 -> Int.int8 (Int.int8 n - 3) = n - 3.
Proof. intros H. unfold Int.int8. Z.to_euclidean_division_equations. lia. Qed.

Lemma MatchIPv4Label_not_star (s : string) :
  MatchIPv4Label s = true -> String.eqb s "*" = false.
Proof.
  intros H. destruct (String.eqb_spec s "*") as [-> | ]; [discriminate H | reflexivity].
Qed.

(** What the loop body of [filterKvs] computes, the 8-bit arithmetic
    included. *)
Lemma filterKv_last (e : ETCD) (init : list string) (leaf : string) (v : KeyValue) :
  let segments := (init ++ [leaf])%list in
  filterKv e segments v =
    Some (negb (MatchIPv4Label leaf
                && (WildcardBound e =? Int.int8 (Int.int8 (len segments) - 3)))
          && ((negb (String.eqb leaf "*")
               && (len (Strings.Split (Key v) "/") - len segments =? 1))
              || (String.eqb leaf "*"
                  && (len (Strings.Split (Key v) "/") - (len segments - 1) =? 1)))).
Proof.
  cbv zeta. unfold filterKv. rewrite last_Some_app.
  destruct (MatchIPv4Label leaf) eqn:Hm.
  - rewrite (MatchIPv4Label_not_star _ Hm). simpl.
    destruct (WildcardBound e =? _); reflexivity.
  - rewrite andb_false_r. reflexivity.
Qed.

Lemma filterKvs_loop_filter (e : ETCD) (init : list string) (leaf : string)
    (kvs acc : list KeyValue) :
  filterKvs_loop e (init ++ [leaf])%list kvs acc =
    Some (acc ++ List.filter
                   (fun v => match filterKv e (init ++ [leaf])%list v with
                             | Some b => b
                             | None => false
                             end) kvs).
Proof.
  revert acc. induction kvs as [| v kvs IH]; intros acc; simpl.
  - rewrite app_nil_r. reflexivity.
  - pose proof (filterKv_last e init leaf v) as Hv. cbv zeta in Hv.
    rewrite Hv. destruct (negb _ && _).
    + rewrite IH. rewrite <- app_assoc. reflexivity.
    + apply IH.
Qed.

(** The segments of a query path: an empty segment for the leading
    slash, the path prefix, and the labels from the top-level domain
    down, when neither the prefix nor a label holds a slash. *)
Lemma Path_segments (name prefix : string) :
  Forall (fun f => Strings.all_bytes (fun b => negb (Ascii.eqb b "/")) f = true)
    (prefix :: Msg.reversed_labels name) ->
  Strings.Split (Msg.Path name prefix) "/"
  = EmptyString :: prefix :: Msg.reversed_labels name.
Proof.
  intros H. unfold Strings.Split, Msg.Path, Msg.join_path.
  change ("/" ++ prefix
          ++ String.concat EmptyString
               (List.map (fun l => "/" ++ l) (Msg.reversed_labels name)))%string
    with (String "/" (prefix
          ++ String.concat EmptyString
               (List.map (fun l => String "/" l) (Msg.reversed_labels name)))%string).
  cbn [Strings.SplitByte]. rewrite Ascii.eqb_refl. f_equal.
  apply SplitByte_fields, H.
Qed.

(** A name of at most 128 labels (a DNS name has at most 127, a collapsed
    one a star more than the bound) under a prefix of one segment has a
    path of at most 130 segments. *)
Lemma Path_segments_bound (name prefix : string) :
  Forall (fun f => Strings.all_bytes (fun b => negb (Ascii.eqb b "/")) f = true)
    (prefix :: Msg.reversed_labels name) ->
  (length (Msg.reversed_labels name) <= 128)%nat ->
  len (Strings.Split (Msg.Path name prefix) "/") <= 130.
Proof.
  intros H Hn. rewrite (Path_segments name prefix H). unfold len. simpl length. lia.
Qed.

(** C5: the sibling filter.  On a query of type A whose path has the
    segments [init ++ [leaf]] (at most 130 of them, which every DNS name
    under a one-segment path prefix satisfies), [filterKvs] keeps, in
    order, exactly the pairs that satisfy the rule of the specification;
    on any other query type it returns the pairs unchanged. *)
Theorem filterKvs_sibling_rule (e : ETCD) (kvs : list KeyValue)
    (init : list string) (leaf : string) (qType : Z) :
  len (init ++ [leaf])%list <= 130 ->
  (qType = Dns.TypeA ->
   filterKvs e kvs (init ++ [leaf])%list qType =
     Some (List.filter
             (fun v => sibling_rule (WildcardBound e) (len (init ++ [leaf])%list) leaf
                         (len (Strings.Split (Key v) "/"))) kvs))
  /\ (qType <> Dns.TypeA -> filterKvs e kvs (init ++ [leaf])%list qType = Some kvs).
Proof.
  intros Hlen. split.
  - intros ->. unfold filterKvs. simpl (Dns.TypeA =? Dns.TypeA).
    rewrite filterKvs_loop_filter. simpl app. f_equal.
    apply List.filter_ext. intros v.
    pose proof (filterKv_last e init leaf v) as Hv. cbv zeta in Hv. rewrite Hv.
    unfold sibling_rule. rewrite int8_minus_3; [reflexivity |].
    unfold len in *. lia.
  - intros Hq. unfold filterKvs.
    destruct (Z.eqb_spec qType Dns.TypeA); [contradiction | reflexivity].
Qed.

Lemma filterKvs_sibling_rule_witness :
  len (["" ; "rdnsv3"; "example"; "lb"] ++ ["host1"])%list <= 130
  /\ filterKvs (S3_config []) [S3_host1; S3_sub]
       (["" ; "rdnsv3"; "example"; "lb"] ++ ["host1"])%list Dns.TypeA
     = Some [S3_host1].
Proof.
  split; [vm_compute; discriminate |].
  rewrite (proj1 (filterKvs_sibling_rule (S3_config []) [S3_host1; S3_sub]
                    ["" ; "rdnsv3"; "example"; "lb"] "host1" Dns.TypeA
                    ltac:(vm_compute; discriminate)) eq_refl).
  reflexivity.
Defined.

(** ** Scenario S1: wildcard collapse *)

Lemma Records_S1_eval :
  Records (S1_config [S1_pair]) S1_query Dns.TypeA false = Err ErrKeyNotFound.
Proof. vm_compute. reflexivity. Qed.

(** C1, as stated, fails: in scenario S1 [Records] does not return one
    service with host 1.2.3.4, ttl 100 and priority 10; it returns no
    service at all. *)
Lemma Records_S1_as_stated_fails :
  ~ (exists s : Msg.Service,
       Records (S1_config [S1_pair]) S1_query Dns.TypeA false = Ok [s]
       /\ Msg.Host s = "1.2.3.4"%string /\ Msg.TTL s = 100 /\ Msg.Priority s = 10).
Proof. intros [s [H _]]. rewrite Records_S1_eval in H. discriminate H. Qed.

(** C1, amended: in scenario S1 the query collapses to
    [*.1_2_3_4.lb.example], whose path is [/rdnsv3/example/lb/1_2_3_4]
    with [star] set; nothing is stored under that path when the store
    holds only [rdnsv3/example/lb/*/1_2_3_4] (with or without a leading
    slash), and [Records] fails with key-not-found.  With the pair
    stored under that path, at [/rdnsv3/example/lb/1_2_3_4/1_2_3_4],
    [Records] returns exactly one service, of host 1.2.3.4, ttl 100 and
    priority 10. *)
Theorem Records_S1_collapse :
  collapse (S1_config [S1_pair]) S1_query Dns.TypeA = "*.1_2_3_4.lb.example"%string
  /\ Msg.PathWithWildcard "*.1_2_3_4.lb.example" "rdnsv3"
     = ("/rdnsv3/example/lb/1_2_3_4"%string, true)
  /\ Records (S1_config [S1_pair]) S1_query Dns.TypeA false = Err ErrKeyNotFound
  /\ Records (S1_config [S1_pair_rooted]) S1_query Dns.TypeA false = Err ErrKeyNotFound
  /\ Records (S1_config [S1_pair_under_path]) S1_query Dns.TypeA false
     = Ok [ {| Msg.Host := "1.2.3.4"; Msg.Text := ""; Msg.TTL := 100;
               Msg.Priority := 10; Msg.Mail := false;
               Msg.Key := "/rdnsv3/example/lb/1_2_3_4/1_2_3_4" |} ].
Proof. repeat apply conj; vm_compute; reflexivity. Qed.

(** ** Malformed records *)

Lemma loopNodes_loop_malformed (pre post : list KeyValue) (n : KeyValue)
    (nameParts : list string) (star : bool) (qType : Z) (bx sx : list Msg.Service) :
  List.forallb (fun k => negb (examined star nameParts k) || decodes k) pre = true ->
  examined star nameParts n = true ->
  decodes n = false ->
  exists m, loopNodes_loop (pre ++ n :: post) nameParts star qType bx sx
            = Err (ErrDecode (Key n) m).
Proof.
  intros Hpre Hex Hbad. revert bx sx.
  induction pre as [| k pre IH]; intros bx sx; simpl.
  - unfold examined in Hex. apply negb_true_iff in Hex. rewrite Hex.
    unfold decodes in Hbad.
    destruct (JSON.Unmarshal Msg.fields (Value n) Msg.zero) as [serv | err];
      [discriminate Hbad | eauto].
  - simpl in Hpre. apply andb_true_iff in Hpre as [Hk Hpre].
    specialize (IH Hpre). unfold examined, decodes in Hk.
    destruct (star && negb (matchParts 0 nameParts (Strings.Split (Key k) "/"))); [apply IH |].
    simpl in Hk.
    destruct (JSON.Unmarshal Msg.fields (Value k) Msg.zero) as [serv | err];
      [| discriminate Hk].
    destruct (bool_decide _); [apply IH |].
    destruct (shouldInclude _ qType); apply IH.
Qed.

(** What [Records] returns once the zone filter has let the name pass,
    the fetch has succeeded and the sibling filter has run. *)
Lemma Records_loopNodes (e : ETCD) (name : string) (qType : Z) (exact : bool)
    (r : GetResponse) (kvs : list KeyValue) :
  let name' := collapse e name qType in
  let segments := Strings.Split (Msg.Path name' (PathPrefix e)) "/" in
  List.existsb (fun zone => Strings.HasPrefix name zone) (Zones e) = false ->
  get e (fst (Msg.PathWithWildcard name' (PathPrefix e))) (negb exact) = Ok r ->
  filterKvs e (Kvs r) segments qType = Some kvs ->
  Records e name qType exact
  = loopNodes kvs segments (snd (Msg.PathWithWildcard name' (PathPrefix e))) qType.
Proof.
  cbv zeta. intros Hz Hg Hf. unfold Records. rewrite Hz.
  destruct (Msg.PathWithWildcard _ _) as [path star]. simpl in *.
  rewrite Hg, Hf. reflexivity.
Qed.

(** C4, as stated, fails: with one well-formed and one malformed record
    under [web.lb.example.], [Records] returns no services; it fails,
    and the error names the key of the malformed record. *)
Lemma Records_malformed_not_skipped :
  decodes S_web_good = true
  /\ decodes S_web_malformed = false
  /\ Records (S1_config [S_web_good]) "web.lb.example." Dns.TypeA false
     = Ok [ {| Msg.Host := "1.1.1.1"; Msg.Text := ""; Msg.TTL := 300;
               Msg.Priority := 10; Msg.Mail := false;
               Msg.Key := "/rdnsv3/example/lb/web/1_1_1_1" |} ]
  /\ (exists m, Records (S1_config [S_web_good; S_web_malformed]) "web.lb.example."
                  Dns.TypeA false
                = Err (ErrDecode "/rdnsv3/example/lb/web/2_2_2_2" m))
  /\ ~ (exists sx, Records (S1_config [S_web_good; S_web_malformed])
                     "web.lb.example." Dns.TypeA false = Ok sx).
Proof.
  assert (H : exists m, Records (S1_config [S_web_good; S_web_malformed])
                          "web.lb.example." Dns.TypeA false
                        = Err (ErrDecode "/rdnsv3/example/lb/web/2_2_2_2" m))
    by (eexists; vm_compute; reflexivity).
  repeat apply conj; try (vm_compute; reflexivity); try exact H.
  destruct H as [m H]. intros [sx Hsx]. rewrite H in Hsx. discriminate Hsx.
Qed.

(** C4, amended: a record whose value does not decode is not skipped.
    When the pairs that pass the sibling filter are [pre ++ n :: post],
    the pairs of [pre] that [loopNodes] examines decode, and [n] is
    examined and does not decode, [Records] fails with an error that
    names the key of [n], whatever the other records hold. *)
Theorem Records_fails_on_malformed (e : ETCD) (name : string) (qType : Z) (exact : bool)
    (r : GetResponse) (pre post : list KeyValue) (n : KeyValue) :
  let name' := collapse e name qType in
  let segments := Strings.Split (Msg.Path name' (PathPrefix e)) "/" in
  let star := snd (Msg.PathWithWildcard name' (PathPrefix e)) in
  List.existsb (fun zone => Strings.HasPrefix name zone) (Zones e) = false ->
  get e (fst (Msg.PathWithWildcard name' (PathPrefix e))) (negb exact) = Ok r ->
  filterKvs e (Kvs r) segments qType = Some (pre ++ n :: post) ->
  List.forallb (fun k => negb (examined star segments k) || decodes k) pre = true ->
  examined star segments n = true ->
  decodes n = false ->
  exists m, Records e name qType exact = Err (ErrDecode (Key n) m).
Proof.
  cbv zeta. intros Hz Hg Hf Hpre Hex Hbad.
  rewrite (Records_loopNodes e name qType exact r _ Hz Hg Hf).
  unfold loopNodes. apply loopNodes_loop_malformed; assumption.
Qed.

Lemma Records_fails_on_malformed_witness :
  exists m, Records (S1_config [S_web_good; S_web_malformed]) "web.lb.example."
              Dns.TypeA false
            = Err (ErrDecode "/rdnsv3/example/lb/web/2_2_2_2" m).
Proof.
  apply (Records_fails_on_malformed (S1_config [S_web_good; S_web_malformed])
           "web.lb.example." Dns.TypeA false
           {| Kvs := [S_web_good; S_web_malformed]; Count := 2 |}
           [S_web_good] [] S_web_malformed);
    vm_compute; reflexivity.
Defined.

(** ** No panic *)

Lemma loopNodes_loop_not_panic (kv : list KeyValue) (nameParts : list string)
    (star : bool) (qType : Z) (bx sx : list Msg.Service) (m : string) :
  loopNodes_loop kv nameParts star qType bx sx <> Err (ErrPanic m).
Proof.
  revert bx sx. induction kv as [| n kv IH]; intros bx sx; simpl; [discriminate |].
  destruct (star && negb (matchParts 0 nameParts (Strings.Split (Key n) "/")));
    [apply IH |].
  destruct (JSON.Unmarshal Msg.fields (Value n) Msg.zero) as [serv | err];
    [| discriminate].
  destruct (bool_decide _); [apply IH |].
  destruct (shouldInclude _ qType); apply IH.
Qed.

Lemma Get_not_panic (c : Clientv3.Client) (key : string) (withPrefix : bool) (m : string) :
  Get c key withPrefix <> Err (ErrPanic m).
Proof. unfold Get. destruct (failure c); discriminate. Qed.

Lemma get_not_panic (e : ETCD) (path : string) (recursive : bool) (m : string) :
  get e path recursive <> Err (ErrPanic m).
Proof.
  unfold get. destruct recursive.
  - destruct (Get (Client e) _ true) as [r | err] eqn:H1;
      [| intros H; rewrite H in H1; exact (Get_not_panic _ _ _ _ H1)].
    destruct (Count r =? 0); [| discriminate].
    destruct (Get (Client e) _ false) as [r' | err] eqn:H2;
      [| intros H; rewrite H in H2; exact (Get_not_panic _ _ _ _ H2)].
    destruct (Count r' =? 0); discriminate.
  - destruct (Get (Client e) path false) as [r | err] eqn:H1;
      [| intros H; rewrite H in H1; exact (Get_not_panic _ _ _ _ H1)].
    destruct (Count r =? 0); discriminate.
Qed.

(** The segments [Records] passes to [filterKvs] come from
    [strings.Split] and are never empty: the index in [filterKvs] is in
    range and [Records] does not panic. *)
Lemma Records_not_panic (e : ETCD) (name : string) (qType : Z) (exact : bool)
    (m : string) :
  Records e name qType exact <> Err (ErrPanic m).
Proof.
  unfold Records. destruct (List.existsb _ _); [discriminate |].
  destruct (Msg.PathWithWildcard _ _) as [path star].
  destruct (get e path (negb exact)) as [r | err] eqn:Hg;
    [| intros H; inversion H; subst err; exact (get_not_panic _ _ _ _ Hg)].
  unfold Strings.Split.
  destruct (exists_last (SplitByte_nonempty "/"
              (Msg.Path (collapse e name qType) (PathPrefix e)))) as (init & leaf & ->).
  unfold filterKvs. destruct (qType =? Dns.TypeA).
  - rewrite filterKvs_loop_filter. apply loopNodes_loop_not_panic.
  - apply loopNodes_loop_not_panic.
Qed.

End ResolverProps.



(* ================================================================== *)
(** * Properties of the record store *)

Section StoreProps.
Import Keyvalue StoreScenarios.
Local Open Scope list_scope.

(** ** The stores of the examples *)

Lemma data_dir_New : Filesystem.New "/data" ValueTypes ∅ = Ok data_dir.
Proof.
  assert (H : is_ok (Filesystem.New "/data" ValueTypes ∅) = true)
    by (vm_compute; reflexivity).
  unfold data_dir. destruct (Filesystem.New "/data" ValueTypes ∅); [reflexivity |].
  discriminate H.
Qed.

Lemma rdns_namespace_New :
  K8s.New (K8s.mgr rdns_namespace) "rdns" = Ok rdns_namespace.
Proof.
  unfold K8s.New, K8sClient.GetNamespace. simpl.
  rewrite bool_decide_eq_true_2 by set_solver. reflexivity.
Qed.

(** ** RenewFrozen *)

Lemma Filesystem_GetValue_state {T} {C : Codec T} (name valueType : string)
    (metadata : option T) (fs : Filesystem.Filesystem) :
  snd (Filesystem.GetValue name valueType metadata fs) = fs.
Proof.
  unfold Filesystem.GetValue.
  destruct (Os.Open _ _) as [f | err]; [| destruct (Os.IsNotExist err); reflexivity].
  destruct (Os.ReadAll f); [| reflexivity].
  destruct (Unmarshal _ _); reflexivity.
Qed.

Lemma K8s_GetValue_state {T} {C : Codec T} (name valueType : string)
    (metadata : option T) (s : K8s.K8sStore) :
  snd (K8s.GetValue name valueType metadata s) = s.
Proof.
  unfold K8s.GetValue.
  destruct (K8sClient.Get _ _ _) as [cm | err];
    [| destruct (negb (K8sClient.IsNotFound err)); reflexivity].
  destruct (Unmarshal _ _); reflexivity.
Qed.

Lemma Unmarshal_nil {T} {C : Codec T} (data : string) (p : option T) :
  Unmarshal data None = Ok p -> p = None.
Proof.
  unfold Unmarshal. destruct (JSON.valid data); intros H; inversion H; reflexivity.
Qed.

(** The pointer a store gives back for the nil pointer is nil. *)
Lemma Filesystem_GetValue_nil {T} {C : Codec T} (name valueType : string)
    (fs : Filesystem.Filesystem) (r : string * option T) :
  fst (Filesystem.GetValue name valueType None fs) = Ok r -> snd r = None.
Proof.
  unfold Filesystem.GetValue.
  destruct (Os.Open _ _) as [f | err].
  - destruct (Os.ReadAll f); [| discriminate].
    destruct (Unmarshal _ _) as [p |] eqn:Hu; [| discriminate].
    simpl. intros H. inversion H. simpl. eapply Unmarshal_nil, Hu.
  - destruct (Os.IsNotExist err); [| discriminate].
    simpl. intros H. inversion H. reflexivity.
Qed.

Lemma K8s_GetValue_nil {T} {C : Codec T} (name valueType : string)
    (s : K8s.K8sStore) (r : string * option T) :
  fst (K8s.GetValue name valueType None s) = Ok r -> snd r = None.
Proof.
  unfold K8s.GetValue.
  destruct (K8sClient.Get _ _ _) as [cm | err].
  - destruct (Unmarshal _ _) as [p |] eqn:Hu; [| discriminate].
    simpl. intros H. inversion H. simpl. eapply Unmarshal_nil, Hu.
  - destruct (negb (K8sClient.IsNotFound err)); [discriminate |].
    simpl. intros H. inversion H. reflexivity.
Qed.

Lemma RenewFrozen_Filesystem_unchanged (now : Z) (prefix : string)
    (fs : Filesystem.Filesystem) :
  after (RenewFrozen now prefix) fs = fs.
Proof.
  unfold after, RenewFrozen, bind. cbn [GetValue Filesystem.store].
  pose proof (Filesystem_GetValue_state (T := FrozenPrefix.t) prefix
                FrozenPrefixValueType None fs) as Hs.
  pose proof (Filesystem_GetValue_nil (T := FrozenPrefix.t) prefix
                FrozenPrefixValueType fs) as Hn.
  destruct (Filesystem.GetValue prefix FrozenPrefixValueType None fs) as [[r | err] fs'].
  - simpl in Hs. subst fs'. rewrite (Hn r eq_refl). reflexivity.
  - exact Hs.
Qed.

Lemma RenewFrozen_K8s_unchanged (now : Z) (prefix : string) (s : K8s.K8sStore) :
  after (RenewFrozen now prefix) s = s.
Proof.
  unfold after, RenewFrozen, bind. cbn [GetValue K8s.store].
  pose proof (K8s_GetValue_state (T := FrozenPrefix.t) prefix
                FrozenPrefixValueType None s) as Hs.
  pose proof (K8s_GetValue_nil (T := FrozenPrefix.t) prefix
                FrozenPrefixValueType s) as Hn.
  destruct (K8s.GetValue prefix FrozenPrefixValueType None s) as [[r | err] s'].
  - simpl in Hs. subst s'. rewrite (Hn r eq_refl). reflexivity.
  - exact Hs.
Qed.

(** C3: [RenewFrozen] writes nothing.  On both stores it leaves the
    store as it was, whatever the prefix and the time.  For the frozen
    prefix [abc] created at time 1000 and renewed at time 5000, it
    returns no error and the stored [createdOn] is still 1000. *)
Theorem RenewFrozen_writes_nothing :
  (forall now prefix (fs : Filesystem.Filesystem),
      after (RenewFrozen now prefix) fs = fs)
  /\ (forall now prefix (s : K8s.K8sStore), after (RenewFrozen now prefix) s = s)
  /\ result_of (RenewFrozen 5000 "abc") frozen_abc_file = Ok tt
  /\ result_of (GetValue "abc" FrozenPrefixValueType (Some (zero : FrozenPrefix.t)))
       (after (RenewFrozen 5000 "abc") frozen_abc_file)
     = Ok (JSON.js "{'createdOn':1000}",
           Some {| FrozenPrefix.Token := ""; FrozenPrefix.CreatedOn := 1000 |})
  /\ result_of (RenewFrozen 5000 "abc") frozen_abc_configmap = Ok tt
  /\ result_of (GetValue "abc" FrozenPrefixValueType (Some (zero : FrozenPrefix.t)))
       (after (RenewFrozen 5000 "abc") frozen_abc_configmap)
     = Ok (JSON.js "{'createdOn':1000}",
           Some {| FrozenPrefix.Token := ""; FrozenPrefix.CreatedOn := 1000 |}).
Proof.
  split; [exact RenewFrozen_Filesystem_unchanged |].
  split; [exact RenewFrozen_K8s_unchanged |].
  repeat apply conj; vm_compute; reflexivity.
Qed.

(** ** ListSubA *)

(** C7: [ListSubA] does not look at its token id.  Its result is the
    same for every id; on a store with a sub-A record of token 1 and one
    of token 2, [ListSubA(1)] returns both, on both stores, where
    [QueryExpiredTXTs(1)] returns the TXT record of token 1 only. *)
Theorem ListSubA_ignores_id :
  (forall (St : Type) (store : KeyValueStore St) (id id' : Z) (s : St),
      ListSubA id s = ListSubA id' s)
  /\ result_of (ListSubA 1) (two_owners data_dir) = Ok [sub_a_one; sub_a_two]
  /\ result_of (QueryExpiredTXTs 1) (two_owners data_dir) = Ok [txt_one]
  /\ (exists rs, result_of (ListSubA 1) (two_owners rdns_namespace) = Ok rs
                 /\ sub_a_two ∈ rs /\ length rs = 2%nat)
  /\ result_of (QueryExpiredTXTs 1) (two_owners rdns_namespace) = Ok [txt_one].
Proof.
  split; [reflexivity |].
  split; [vm_compute; reflexivity |].
  split; [vm_compute; reflexivity |].
  split; [| vm_compute; reflexivity].
  destruct (result_of (ListSubA 1) (two_owners rdns_namespace)) as [rs | e] eqn:H;
    vm_compute in H; [| discriminate H].
  exists rs. inversion H. subst rs. split; [reflexivity |].
  split; [| reflexivity].
  apply list_elem_of_In. simpl. tauto.
Qed.

(** ** Paths of plain names *)

Lemma file_name_no_slash (c : string) :
  Path.is_file_name c = true ->
  Strings.all_bytes (fun b => negb (Ascii.eqb b "/")) c = true.
Proof. unfold Path.is_file_name. intros H. apply andb_true_iff in H as [_ H]. exact H. Qed.

Lemma file_name_facts (c : string) :
  Path.is_file_name c = true ->
  String.eqb c "" = false /\ String.eqb c "." = false /\ String.eqb c ".." = false.
Proof.
  unfold Path.is_file_name. intros H.
  apply andb_true_iff in H as [H _]. apply andb_true_iff in H as [H H3].
  apply andb_true_iff in H as [H1 H2].
  apply negb_true_iff in H1, H2, H3. auto.
Qed.

Lemma clean_step_file_name (rooted : bool) (stack : list string) (c : string) :
  Path.is_file_name c = true -> Path.clean_step rooted stack c = stack ++ [c].
Proof.
  intros H. destruct (file_name_facts c H) as (H1 & H2 & H3).
  unfold Path.clean_step. rewrite H1, H2, H3. reflexivity.
Qed.

Lemma clean_fold_file_names (rooted : bool) (names stack : list string) :
  Forall (fun c => Path.is_file_name c = true) names ->
  List.fold_left (Path.clean_step rooted) names stack = stack ++ names.
Proof.
  revert stack. induction names as [| c names IH]; intros stack H; simpl.
  - rewrite app_nil_r. reflexivity.
  - inversion H as [| ? ? Hc Hn]; subst.
    rewrite (clean_step_file_name _ _ _ Hc), (IH _ Hn), <- app_assoc. reflexivity.
Qed.

Lemma Split_Join_file_names (c : string) (names : list string) :
  Forall (fun c => Path.is_file_name c = true) (c :: names) ->
  Strings.Split (Strings.Join (c :: names) "/") "/" = c :: names.
Proof.
  revert c. induction names as [| d names IH]; intros c H.
  - inversion H; subst. apply SplitByte_no_sep, file_name_no_slash. assumption.
  - inversion H as [| ? ? Hc Hn]; subst.
    change (Strings.Join (c :: d :: names) "/")
      with (c ++ String "/" (Strings.Join (d :: names) "/"))%string.
    unfold Strings.Split in *. rewrite SplitByte_app, (IH d Hn).
    rewrite (SplitByte_no_sep _ _ (file_name_no_slash _ Hc)). reflexivity.
Qed.

Lemma prefix_empty (s : string) : String.prefix EmptyString s = true.
Proof. destruct s; reflexivity. Qed.

Lemma prefix_cons (a b : ascii) (s1 s2 : string) :
  String.prefix (String a s1) (String b s2)
  = if ascii_dec a b then String.prefix s1 s2 else false.
Proof. reflexivity. Qed.

Lemma prefix_slash_app (a b : string) :
  a <> EmptyString -> String.prefix "/" (a ++ b) = String.prefix "/" a.
Proof.
  destruct a as [| c a]; [contradiction |]. intros _.
  change (String c a ++ b)%string with (String c (a ++ b)%string).
  rewrite !prefix_cons. destruct (ascii_dec "/" c); [| reflexivity].
  rewrite !prefix_empty. reflexivity.
Qed.

Lemma file_name_not_rooted (c : string) :
  Path.is_file_name c = true -> String.prefix "/" c = false.
Proof.
  intros H. pose proof (file_name_no_slash c H) as Hs.
  destruct c as [| b c]; [reflexivity |].
  simpl in Hs. apply andb_true_iff in Hs as [Hb _]. apply negb_true_iff in Hb.
  rewrite prefix_cons. destruct (ascii_dec "/" b) as [<- | ]; [| reflexivity].
  rewrite Ascii.eqb_refl in Hb. discriminate Hb.
Qed.

Lemma file_name_nonempty (c : string) : Path.is_file_name c = true -> c <> EmptyString.
Proof. intros H ->. discriminate H. Qed.

(** Under a directory [root], the path of plain names is the cleaned
    root followed by the names. *)
Lemma Join_file_names (root c : string) (names : list string) :
  Forall (fun c => Path.is_file_name c = true) (c :: names) ->
  Path.Join (root :: c :: names)
  = Some (fst (Path.Clean root), snd (Path.Clean root) ++ c :: names).
Proof.
  intros H. pose proof (Split_Join_file_names c names H) as Hsplit.
  inversion H as [| ? ? Hc Hn]; subst.
  destruct (file_name_facts c Hc) as (Hc1 & _).
  unfold Path.Join. simpl Path.drop_empty.
  destruct (String.eqb_spec root EmptyString) as [-> | Hroot].
  - rewrite Hc1. unfold Path.Clean. rewrite Hsplit.
    rewrite (clean_fold_file_names _ _ _ H). simpl. f_equal. f_equal.
    destruct names as [| d names]; unfold Strings.HasPrefix.
    + apply (file_name_not_rooted c Hc).
    + change (Strings.Join (c :: d :: names) "/")
        with (c ++ String "/" (Strings.Join (d :: names) "/"))%string.
      rewrite prefix_slash_app by (apply file_name_nonempty, Hc).
      apply (file_name_not_rooted c Hc).
  - change (Strings.Join (root :: c :: names) "/")
      with (root ++ String "/" (Strings.Join (c :: names) "/"))%string.
    unfold Path.Clean, Strings.Split, Strings.HasPrefix.
    rewrite SplitByte_app. unfold Strings.Split in Hsplit. rewrite Hsplit.
    rewrite prefix_slash_app by assumption.
    rewrite List.fold_left_app, (clean_fold_file_names _ _ _ H). reflexivity.
Qed.

(** ** Disks that differ at one path *)

Lemma touches_only_refl (filename : option Path.t) (d : gmap Path.t Os.node) :
  touches_only filename d d.
Proof. intros q _. reflexivity. Qed.

Lemma touches_only_insert (p : Path.t) (n : Os.node) (d : gmap Path.t Os.node) :
  touches_only (Some p) d (<[p := n]> d).
Proof. intros q Hq. apply lookup_insert_ne. congruence. Qed.

Lemma touches_only_delete (p : Path.t) (d : gmap Path.t Os.node) :
  touches_only (Some p) d (delete p d).
Proof. intros q Hq. apply lookup_delete_ne. congruence. Qed.

Lemma touches_only_trans (filename : option Path.t) (d1 d2 d3 : gmap Path.t Os.node) :
  touches_only filename d1 d2 -> touches_only filename d2 d3 ->
  touches_only filename d1 d3.
Proof. intros H12 H23 q Hq. rewrite (H23 q Hq). apply H12, Hq. Qed.

Lemma node_at_touches (filename : option Path.t) (d d' : gmap Path.t Os.node)
    (q : Path.t) :
  touches_only filename d d' -> Some q <> filename -> Os.node_at d' q = Os.node_at d q.
Proof.
  intros Ht Hq. unfold Os.node_at. destruct (Os.implicit_dir q); [reflexivity |].
  apply Ht, Hq.
Qed.

Lemma walk_ext (d d' : gmap Path.t Os.node) (rooted : bool) (rest above : list string) :
  (forall k, (1 <= k < length rest)%nat ->
             Os.node_at d' (rooted, above ++ take k rest)
             = Os.node_at d (rooted, above ++ take k rest)) ->
  Os.walk d' rooted above rest = Os.walk d rooted above rest.
Proof.
  revert above. induction rest as [| c rest IH]; intros above H; [reflexivity |].
  destruct rest as [| c' rest]; [reflexivity |].
  cbn [Os.walk].
  pose proof (H 1%nat ltac:(simpl; lia)) as H1.
  change (take 1 (c :: c' :: rest)) with [c] in H1. rewrite H1.
  destruct (Os.node_at d (rooted, above ++ [c])) as [[data |] |]; try reflexivity.
  apply IH. intros k Hk. specialize (H (S k)).
  change (take (S k) (c :: c' :: rest)) with (c :: take k (c' :: rest)) in H.
  rewrite <- app_assoc. apply H. simpl in *. lia.
Qed.

Lemma resolve_path (d : gmap Path.t Os.node) (filename : option Path.t) (p : Path.t)
    (n : option Os.node) :
  Os.resolve d filename = Ok (p, n) -> filename = Some p.
Proof.
  unfold Os.resolve. destruct filename as [q |]; [| discriminate].
  destruct (Os.walk _ _ _ _); [discriminate |]. intros H. inversion H. reflexivity.
Qed.

(** A path none of whose prefixes is [filename] resolves alike on both
    disks. *)
Lemma resolve_touches (filename : option Path.t) (d d' : gmap Path.t Os.node)
    (rooted : bool) (comps : list string) :
  touches_only filename d d' ->
  (forall k, Some (rooted, take k comps) <> filename) ->
  Os.resolve d' (Some (rooted, comps)) = Os.resolve d (Some (rooted, comps)).
Proof.
  intros Ht Hk. unfold Os.resolve. simpl.
  rewrite (walk_ext d d' rooted comps []).
  - rewrite (node_at_touches filename d d' (rooted, comps) Ht); [reflexivity |].
    specialize (Hk (length comps)). rewrite take_ge in Hk by lia. exact Hk.
  - intros k _. simpl. apply (node_at_touches filename); [exact Ht | apply Hk].
Qed.

Lemma entries_touches (filename : option Path.t) (d d' : gmap Path.t Os.node)
    (p : Path.t) :
  touches_only filename d d' ->
  (forall q, filename = Some q -> Os.entry_of p q = None) ->
  Os.entries d' p = Os.entries d p.
Proof.
  intros Ht Hq. unfold Os.entries. apply set_eq. intros x.
  rewrite !elem_of_set_omap.
  split; intros (y & Hy & Hf); exists y; (split; [| exact Hf]);
    apply elem_of_dom; apply elem_of_dom in Hy.
  - rewrite <- (Ht y); [exact Hy |]. intros Heq. symmetry in Heq.
    rewrite (Hq y Heq) in Hf. discriminate Hf.
  - rewrite (Ht y); [exact Hy |]. intros Heq. symmetry in Heq.
    rewrite (Hq y Heq) in Hf. discriminate Hf.
Qed.

Lemma ReadDir_touches (filename : option Path.t) (d d' : gmap Path.t Os.node)
    (rooted : bool) (comps : list string) :
  touches_only filename d d' ->
  (forall k, Some (rooted, take k comps) <> filename) ->
  (forall q, filename = Some q -> Os.entry_of (rooted, comps) q = None) ->
  Os.ReadDir d' (Some (rooted, comps)) = Os.ReadDir d (Some (rooted, comps)).
Proof.
  intros Ht Hk Hq. unfold Os.ReadDir.
  rewrite (resolve_touches filename d d' rooted comps Ht Hk).
  destruct (Os.resolve d (Some (rooted, comps))) as [[p [[data |] |]] | e] eqn:Hr;
    try reflexivity.
  apply resolve_path in Hr. inversion Hr; subst p.
  rewrite (entries_touches filename d d' _ Ht Hq). reflexivity.
Qed.

(** The names [ReadDir] returns are file names. *)
Lemma ReadDir_file_names (d : gmap Path.t Os.node) (dirname : option Path.t)
    (names : list string) (x : string) :
  Os.ReadDir d dirname = Ok names -> x ∈ names -> Path.is_file_name x = true.
Proof.
  unfold Os.ReadDir.
  destruct (Os.resolve d dirname) as [[p [[data |] |]] | e]; try discriminate.
  intros H Hx. inversion H; subst names.
  rewrite merge_sort_Permutation in Hx.
  apply elem_of_elements in Hx. unfold Os.entries in Hx.
  apply elem_of_set_omap in Hx as (q & _ & Hq).
  unfold Os.entry_of in Hq. destruct (Bool.eqb _ _); [| discriminate].
  destruct (List.rev (snd q)) as [| c above]; [discriminate |].
  destruct (bool_decide _ && Path.is_file_name c) eqn:Hc; [| discriminate].
  inversion Hq; subst x. apply andb_true_iff in Hc as [_ Hc]. exact Hc.
Qed.

(** ** Set over a value that is there *)

(** The file-system store creates with [O_EXCL]: over a node that is
    there, [SetValue] fails with already-exists and the store stays as
    it was. *)
Lemma Filesystem_SetValue_exists {T} {C : Codec T} (name valueType : string)
    (metadata : T) (fs : Filesystem.Filesystem) (p : Path.t) (n : Os.node) :
  Os.resolve (Filesystem.disk fs)
    (Path.Join [Filesystem.path fs; valueType; name]) = Ok (p, Some n) ->
  Filesystem.SetValue name valueType metadata fs
  = (Err (ErrExist (Path.to_string (Path.Join [Filesystem.path fs; valueType; name]))),
     fs).
Proof.
  intros H. unfold Filesystem.SetValue, Filesystem.writeValue, Os.OpenFile.
  rewrite H. destruct n; reflexivity.
Qed.

(** On the config-map store [SetValue] is [UpdateValue]: [writeValue]
    does not read [update]. *)
Lemma K8s_SetValue_is_UpdateValue {T} {C : Codec T} (name valueType : string)
    (metadata : T) (s : K8s.K8sStore) :
  K8s.SetValue name valueType metadata s = K8s.UpdateValue name valueType metadata s.
Proof. reflexivity. Qed.

(** Over a config map that is there, [SetValue] of the config-map store
    returns no error and stores the new document. *)
Lemma K8s_SetValue_existing {T} {C : Codec T} (name valueType : string) (metadata : T)
    (s : K8s.K8sStore) (cm : K8sClient.ConfigMap) (j : string) :
  named_by_type (K8s.mgr s) ->
  K8sClient.outage (K8s.mgr s) = None ->
  K8sClient.configMaps (K8s.mgr s)
    !! (K8s.namespace s, K8s.generateName name valueType) = Some cm ->
  Marshal metadata = Ok j ->
  result_of (K8s.SetValue name valueType metadata) s = Ok tt
  /\ exists cm',
       K8sClient.configMaps (K8s.mgr (after (K8s.SetValue name valueType metadata) s))
         !! (K8s.namespace s, K8s.generateName name valueType) = Some cm'
       /\ K8sClient.Data cm' !! "data"%string = Some j.
Proof.
  intros Hwf Hout Hcm Hj. destruct (Hwf _ _ _ Hcm) as (Hns & Hn & _).
  destruct cm as [fname fns fann flab fdata]. simpl in Hns, Hn. subst fname fns.
  unfold result_of, after, K8s.SetValue, K8s.writeValue, K8sClient.Get.
  cbn [K8sClient.Name K8sClient.Namespace]. rewrite Hout, Hcm, Hj.
  unfold K8sClient.Update. cbn [K8sClient.Name K8sClient.Namespace].
  rewrite Hout, Hcm. cbn. split; [reflexivity |].
  eexists. rewrite lookup_insert_eq. split; [reflexivity |]. cbn.
  apply lookup_insert_eq.
Qed.

(** C6: [Set] over a value that is there.  The file-system store
    refuses: inserting the frozen prefix [abc] a second time fails with
    already-exists and leaves the store as it was.  The config-map store
    does not: the second insert returns no error and the stored value is
    the new one; so it is for every name, type and value over a config map
    that is there. *)
Theorem K8s_SetValue_overwrites :
  InsertFrozen 2000 "abc" frozen_abc_file
  = (Err (ErrExist "/data/frozen-prefix/abc"), frozen_abc_file)
  /\ result_of (InsertFrozen 2000 "abc") frozen_abc_configmap = Ok tt
  /\ result_of (GetValue "abc" FrozenPrefixValueType (Some (zero : FrozenPrefix.t)))
       frozen_abc_configmap
     = Ok (JSON.js "{'createdOn':1000}",
           Some {| FrozenPrefix.Token := ""; FrozenPrefix.CreatedOn := 1000 |})
  /\ result_of (GetValue "abc" FrozenPrefixValueType (Some (zero : FrozenPrefix.t)))
       (after (InsertFrozen 2000 "abc") frozen_abc_configmap)
     = Ok (JSON.js "{'createdOn':2000}",
           Some {| FrozenPrefix.Token := ""; FrozenPrefix.CreatedOn := 2000 |})
  /\ (forall (T : Type) (C : Codec T) (name valueType : string) (metadata : T)
             (s : K8s.K8sStore) (cm : K8sClient.ConfigMap) (j : string),
        named_by_type (K8s.mgr s) ->
        K8sClient.outage (K8s.mgr s) = None ->
        K8sClient.configMaps (K8s.mgr s)
          !! (K8s.namespace s, K8s.generateName name valueType) = Some cm ->
        Marshal metadata = Ok j ->
        result_of (SetValue name valueType metadata) s = Ok tt
        /\ exists cm',
             K8sClient.configMaps (K8s.mgr (after (SetValue name valueType metadata) s))
               !! (K8s.namespace s, K8s.generateName name valueType) = Some cm'
             /\ K8sClient.Data cm' !! "data"%string = Some j).
Proof.
  split.
  - unfold InsertFrozen. cbn [SetValue Filesystem.store].
    erewrite Filesystem_SetValue_exists; [reflexivity |].
    vm_compute. reflexivity.
  - split; [vm_compute; reflexivity |].
    split; [vm_compute; reflexivity |].
    split; [vm_compute; reflexivity |].
    intros T C name valueType metadata s cm j. apply K8s_SetValue_existing.
Qed.

(** ** Update and read back *)

Lemma substring_none (n : nat) (s : string) : substring n 0 s = EmptyString.
Proof.
  revert n. induction s as [| c s IH]; intros [| n]; simpl; auto.
Qed.

(** Bytes written over a file that is not longer replace it. *)
Lemma overwrite_not_longer (old b : string) :
  (String.length old <= String.length b)%nat -> Os.overwrite old b = b.
Proof.
  intros H. unfold Os.overwrite.
  replace (String.length old - String.length b)%nat with 0%nat by lia.
  rewrite substring_none. apply append_empty.
Qed.

Lemma node_at_file (d : gmap Path.t Os.node) (p : Path.t) (data : string) :
  Os.node_at d p = Some (Os.File data) ->
  Os.implicit_dir p = false /\ d !! p = Some (Os.File data).
Proof.
  unfold Os.node_at. destruct (Os.implicit_dir p); [discriminate | auto].
Qed.

(** The path of a file still resolves once the file has other bytes. *)
Lemma resolve_after_write (d : gmap Path.t Os.node) (p : Path.t) (old new : string) :
  Os.resolve d (Some p) = Ok (p, Some (Os.File old)) ->
  Os.resolve (<[p := Os.File new]> d) (Some p) = Ok (p, Some (Os.File new)).
Proof.
  destruct p as [rooted comps]. unfold Os.resolve. simpl.
  destruct (Os.walk d rooted [] comps) eqn:Hw; [discriminate |].
  intros H. inversion H as [Hnode]. apply node_at_file in Hnode as [Himp _].
  rewrite (walk_ext d (<[(rooted, comps) := Os.File new]> d) rooted comps []), Hw.
  - unfold Os.node_at. rewrite Himp, lookup_insert_eq. reflexivity.
  - intros k Hk. simpl.
    apply (node_at_touches (Some (rooted, comps))); [apply touches_only_insert |].
    intros Heq. inversion Heq as [Hlen]. apply (f_equal length) in Hlen.
    rewrite length_take in Hlen. lia.
Qed.

(** [UpdateValue] over a file writes the document over the start of the
    file and keeps what the file held beyond it. *)
Lemma Filesystem_UpdateValue_bytes {T} {C : Codec T} (name valueType : string)
    (metadata : T) (fs : Filesystem.Filesystem) (p : Path.t) (old j : string) :
  Os.resolve (Filesystem.disk fs)
    (Path.Join [Filesystem.path fs; valueType; name]) = Ok (p, Some (Os.File old)) ->
  Marshal metadata = Ok j ->
  result_of (Filesystem.UpdateValue name valueType metadata) fs = Ok tt
  /\ file_bytes (after (Filesystem.UpdateValue name valueType metadata) fs)
       valueType name = Ok (Os.overwrite old j).
Proof.
  intros Hr Hj. pose proof (resolve_path _ _ _ _ Hr) as Hp.
  unfold result_of, after, Filesystem.UpdateValue, Filesystem.writeValue, Os.OpenFile.
  rewrite Hr, Hj. cbn [negb fst snd]. split; [reflexivity |].
  rewrite Hp in *. unfold Os.resolve in Hr.
  destruct (Os.walk _ _ _ _) eqn:Hw; [discriminate |].
  inversion Hr as [Hnode]. pose proof (node_at_file _ _ _ Hnode) as [_ Hfile].
  unfold Os.Write. rewrite Hfile.
  unfold file_bytes, Os.Open. cbn [Filesystem.path Filesystem.disk Filesystem.with_disk].
  rewrite Hp. rewrite (resolve_after_write _ p old).
  - reflexivity.
  - unfold Os.resolve. rewrite Hw, Hnode. reflexivity.
Qed.

(** C8: an update with a shorter document is not read back on the
    file-system store.  [UpdateValue] over a file writes the new document
    over the start of the file and keeps the bytes the file held beyond
    it, so the file holds the document alone only when the old one was
    not longer.  After inserting the A record of [abc.lb.example] with two
    hosts, updating it to one host succeeds, but the file keeps the tail
    of the longer document, and both [GetValue] and [QueryA] fail on it.
    Updating the other way round, to the longer document, reads back. *)
Theorem Filesystem_update_keeps_tail :
  let fs1 := after (InsertA a_two_hosts) data_dir in
  let fs2 := after (UpdateA a_one_host) fs1 in
  result_of (UpdateA a_one_host) fs1 = Ok 0
  /\ Marshal a_one_host = Ok (JSON.js "{'fqdn':'abc.lb.example','hosts':['1.1.1.1'],'tid':7}")
  /\ file_bytes fs2 ARecordValueType "abc.lb.example"
     = Ok (JSON.js "{'fqdn':'abc.lb.example','hosts':['1.1.1.1'],'tid':7}],'tid':7}")
  /\ (exists m,
        result_of (GetValue "abc.lb.example" ARecordValueType
                     (Some (zero : Model.RecordA.t))) fs2 = Err (ErrJSON m))
  /\ (exists m, result_of (QueryA "abc.lb.example") fs2 = Err (ErrJSON m))
  /\ result_of (QueryA "abc.lb.example")
       (after (UpdateA a_two_hosts) (after (InsertA a_one_host) data_dir))
     = Ok a_two_hosts
  /\ (forall (T : Type) (C : Codec T) (name valueType : string) (metadata : T)
             (fs : Filesystem.Filesystem) (p : Path.t) (old j : string),
        Os.resolve (Filesystem.disk fs)
          (Path.Join [Filesystem.path fs; valueType; name]) = Ok (p, Some (Os.File old)) ->
        Marshal metadata = Ok j ->
        result_of (UpdateValue name valueType metadata) fs = Ok tt
        /\ file_bytes (after (UpdateValue name valueType metadata) fs) valueType name
           = Ok (Os.overwrite old j)
        /\ ((String.length old <= String.length j)%nat -> Os.overwrite old j = j)).
Proof.
  cbv zeta.
  split; [vm_compute; reflexivity |].
  split; [vm_compute; reflexivity |].
  split; [vm_compute; reflexivity |].
  split; [eexists; vm_compute; reflexivity |].
  split; [eexists; vm_compute; reflexivity |].
  split; [vm_compute; reflexivity |].
  intros T C name valueType metadata fs p old j Hr Hj.
  destruct (Filesystem_UpdateValue_bytes name valueType metadata fs p old j Hr Hj)
    as [H1 H2].
  split; [exact H1 |]. split; [exact H2 |]. apply overwrite_not_longer.
Qed.

(** ** What a mutation of the file-system store touches *)

Lemma OpenFile_touches (d d' : gmap Path.t Os.node) (filename : option Path.t)
    (excl : bool) :
  Os.OpenFile d filename excl = Ok d' -> touches_only filename d d'.
Proof.
  unfold Os.OpenFile.
  destruct (Os.resolve d filename) as [[p [[data |] |]] | e] eqn:Hr; try discriminate.
  - destruct excl; [discriminate |]. intros H. inversion H. apply touches_only_refl.
  - destruct excl; discriminate.
  - apply resolve_path in Hr. subst filename. intros H. inversion H.
    apply touches_only_insert.
Qed.

Lemma Write_touches (d : gmap Path.t Os.node) (filename : option Path.t) (b : string) :
  touches_only filename d (Os.Write d filename b).
Proof.
  unfold Os.Write. destruct filename as [p |]; [| apply touches_only_refl].
  destruct (d !! p) as [[old |] |]; try apply touches_only_refl.
  apply touches_only_insert.
Qed.

Lemma writeValue_touches {T} {C : Codec T} (name valueType : string) (metadata : T)
    (update : bool) (fs : Filesystem.Filesystem) :
  let fs' := snd (Filesystem.writeValue name valueType metadata update fs) in
  Filesystem.path fs' = Filesystem.path fs
  /\ touches_only (Path.Join [Filesystem.path fs; valueType; name])
       (Filesystem.disk fs) (Filesystem.disk fs').
Proof.
  cbv zeta. unfold Filesystem.writeValue.
  destruct (Os.OpenFile _ _ _) as [opened | e] eqn:Ho.
  - apply OpenFile_touches in Ho.
    destruct (Marshal metadata) as [j | e]; simpl; (split; [reflexivity |]).
    + eapply touches_only_trans; [exact Ho | apply Write_touches].
    + exact Ho.
  - simpl. split; [reflexivity | apply touches_only_refl].
Qed.

Lemma DeleteValue_touches (name valueType : string) (fs : Filesystem.Filesystem) :
  let fs' := snd (Filesystem.DeleteValue name valueType fs) in
  Filesystem.path fs' = Filesystem.path fs
  /\ touches_only (Path.Join [Filesystem.path fs; valueType; name])
       (Filesystem.disk fs) (Filesystem.disk fs').
Proof.
  cbv zeta. unfold Filesystem.DeleteValue.
  destruct (Filesystem.fileExists _ _) as [[|] |];
    try (simpl; split; [reflexivity | apply touches_only_refl]).
  unfold Os.Remove.
  destruct (Os.resolve _ _) as [[p [[data |] |]] | e] eqn:Hr;
    try (simpl; split; [reflexivity | apply touches_only_refl]).
  apply resolve_path in Hr. rewrite Hr. simpl. split; [reflexivity |].
  apply touches_only_delete.
Qed.

(** ** What the reads of the file-system store depend on *)

Lemma Filesystem_GetValue_touches {T} {C : Codec T} (filename : option Path.t)
    (name valueType : string) (metadata : option T) (fs fs' : Filesystem.Filesystem)
    (rooted : bool) (comps : list string) :
  Filesystem.path fs' = Filesystem.path fs ->
  touches_only filename (Filesystem.disk fs) (Filesystem.disk fs') ->
  Path.Join [Filesystem.path fs; valueType; name] = Some (rooted, comps) ->
  (forall k, Some (rooted, take k comps) <> filename) ->
  fst (Filesystem.GetValue name valueType metadata fs')
  = fst (Filesystem.GetValue name valueType metadata fs).
Proof.
  intros Hp Ht Hj Hk. unfold Filesystem.GetValue, Os.Open.
  rewrite Hp, Hj, (resolve_touches filename _ _ rooted comps Ht Hk).
  destruct (Os.resolve _ _) as [[p [n |]] | e]; simpl.
  - destruct (Os.ReadAll n); [| reflexivity].
    destruct (Unmarshal _ _); reflexivity.
  - reflexivity.
  - destruct (Os.IsNotExist e); reflexivity.
Qed.

Lemma Filesystem_ListValues_touches (filename : option Path.t) (valueType : string)
    (fs fs' : Filesystem.Filesystem) (rooted : bool) (comps : list string) :
  Filesystem.path fs' = Filesystem.path fs ->
  touches_only filename (Filesystem.disk fs) (Filesystem.disk fs') ->
  Path.Join [Filesystem.path fs; valueType] = Some (rooted, comps) ->
  (forall k, Some (rooted, take k comps) <> filename) ->
  (forall q, filename = Some q -> Os.entry_of (rooted, comps) q = None) ->
  fst (Filesystem.ListValues valueType fs') = fst (Filesystem.ListValues valueType fs).
Proof.
  intros Hp Ht Hj Hk Hq. unfold Filesystem.ListValues.
  rewrite Hp, Hj, (ReadDir_touches filename _ _ rooted comps Ht Hk Hq).
  destruct (Os.ReadDir _ _); reflexivity.
Qed.

(** A loop whose body reads alike in two stores, and changes neither,
    collects alike. *)
Lemma collect_fst_ext {St A B} (xs : list A) (body : A -> M St (option B))
    (s s' : St) (acc : list B) :
  (forall x, x ∈ xs ->
             snd (body x s) = s /\ snd (body x s') = s'
             /\ fst (body x s') = fst (body x s)) ->
  fst (collect xs body acc s') = fst (collect xs body acc s).
Proof.
  revert acc. induction xs as [| x xs IH]; intros acc H; [reflexivity |].
  simpl. unfold bind.
  destruct (H x (list_elem_of_here x xs)) as (H1 & H2 & H3).
  destruct (body x s) as [r1 s1], (body x s') as [r2 s2]. simpl in *. subst.
  destruct r1 as [a | e]; [| reflexivity].
  apply IH. intros y Hy. apply H. apply list_elem_of_further, Hy.
Qed.

(** ** Disjoint directories *)

Lemma take_two_ne (base : list string) (t1 n1 t2 n2 : string) (k : nat) :
  t1 <> t2 -> take k (base ++ [t2; n2]) <> base ++ [t1; n1].
Proof.
  intros Ht Heq. destruct (decide (length base + 2 <= k)%nat) as [Hk | Hk].
  - rewrite take_ge in Heq by (rewrite length_app; simpl; lia).
    apply app_inv_head in Heq. congruence.
  - apply (f_equal length) in Heq.
    rewrite length_take, !length_app in Heq. simpl in Heq. lia.
Qed.

Lemma take_one_ne (base : list string) (t1 n1 t2 : string) (k : nat) :
  take k (base ++ [t2]) <> base ++ [t1; n1].
Proof.
  intros Heq. apply (f_equal length) in Heq.
  rewrite length_take, !length_app in Heq. simpl in Heq. lia.
Qed.

Lemma entry_of_other (rooted : bool) (base : list string) (t1 n1 t2 : string) :
  t1 <> t2 -> Os.entry_of (rooted, base ++ [t2]) (rooted, base ++ [t1; n1]) = None.
Proof.
  intros Ht. unfold Os.entry_of. simpl fst. simpl snd.
  destruct (Bool.eqb rooted rooted); [| reflexivity].
  replace (base ++ [t1; n1]) with ((base ++ [t1]) ++ [n1])
    by (rewrite <- app_assoc; reflexivity).
  rewrite List.rev_unit, List.rev_involutive.
  rewrite bool_decide_eq_false_2; [reflexivity |].
  intros Heq. apply app_inv_head in Heq. congruence.
Qed.

Lemma ValueTypes_file_names (t : string) :
  t ∈ ValueTypes -> Path.is_file_name t = true.
Proof.
  unfold ValueTypes. rewrite !elem_of_cons, elem_of_nil.
  intros [-> | [-> | [-> | [-> | [-> | [-> | []]]]]]]; reflexivity.
Qed.

(** A store that differs from [fs] at most at the file of the name [n1]
    under the type [t1] reads alike under another type [t2]. *)
Lemma Filesystem_reads_alike {U} {CU : Codec U} (fs fs' : Filesystem.Filesystem)
    (t1 n1 t2 n2 : string) (target : option U) (cutoff : Z) :
  Path.is_file_name t1 = true -> Path.is_file_name n1 = true ->
  Path.is_file_name t2 = true -> Path.is_file_name n2 = true ->
  t1 <> t2 ->
  Filesystem.path fs' = Filesystem.path fs ->
  touches_only (Path.Join [Filesystem.path fs; t1; n1])
    (Filesystem.disk fs) (Filesystem.disk fs') ->
  fst (Filesystem.GetValue n2 t2 target fs') = fst (Filesystem.GetValue n2 t2 target fs)
  /\ fst (Filesystem.ListValues t2 fs') = fst (Filesystem.ListValues t2 fs)
  /\ fst (Filesystem.GetExpiredValues t2 cutoff fs')
     = fst (Filesystem.GetExpiredValues t2 cutoff fs).
Proof.
  intros Ht1 Hn1 Ht2 Hn2 Hne Hp Ht.
  rewrite (Join_file_names (Filesystem.path fs) t1 [n1]) in Ht
    by (repeat constructor; assumption).
  set (rooted := fst (Path.Clean (Filesystem.path fs))) in *.
  set (base := snd (Path.Clean (Filesystem.path fs))) in *.
  assert (Hget : forall n, Path.is_file_name n = true ->
            fst (Filesystem.GetValue n t2 target fs')
            = fst (Filesystem.GetValue n t2 target fs)).
  { intros n Hn.
    eapply Filesystem_GetValue_touches; [exact Hp | exact Ht | |].
    - apply Join_file_names. repeat constructor; assumption.
    - intros k Heq. inversion Heq as [Hk]. revert Hk. apply take_two_ne. congruence. }
  assert (Hdir : Os.ReadDir (Filesystem.disk fs') (Path.Join [Filesystem.path fs; t2])
                 = Os.ReadDir (Filesystem.disk fs) (Path.Join [Filesystem.path fs; t2])).
  { rewrite (Join_file_names (Filesystem.path fs) t2 []) by (repeat constructor; assumption).
    eapply ReadDir_touches; [exact Ht | |].
    - intros k Heq. inversion Heq as [Hk]. revert Hk. apply take_one_ne.
    - intros q Hq. inversion Hq; subst q. apply entry_of_other. exact Hne. }
  split; [apply Hget, Hn2 |]. split.
  - unfold Filesystem.ListValues. rewrite Hp, Hdir.
    destruct (Os.ReadDir (Filesystem.disk fs) _); reflexivity.
  - unfold Filesystem.GetExpiredValues. rewrite Hp, Hdir.
    destruct (Os.ReadDir (Filesystem.disk fs) _) as [files | e] eqn:Hfiles;
      [| reflexivity].
    apply collect_fst_ext. intros file Hfile.
    pose proof (ReadDir_file_names _ _ _ _ Hfiles Hfile) as Hname.
    unfold bind.
    pose proof (Filesystem_GetValue_state file t2 (Some (zero : CreatedOnRecord.t)) fs) as Hs.
    pose proof (Filesystem_GetValue_state file t2 (Some (zero : CreatedOnRecord.t)) fs') as Hs'.
    assert (Hg : fst (Filesystem.GetValue file t2 (Some (zero : CreatedOnRecord.t)) fs')
                 = fst (Filesystem.GetValue file t2 (Some (zero : CreatedOnRecord.t)) fs)).
    { eapply Filesystem_GetValue_touches; [exact Hp | exact Ht | |].
      - apply Join_file_names. repeat constructor; assumption.
      - intros k Heq. inversion Heq as [Hk]. revert Hk. apply take_two_ne. congruence. }
    destruct (Filesystem.GetValue file t2 _ fs) as [r1 s1],
             (Filesystem.GetValue file t2 _ fs') as [r2 s2].
    simpl in *. subst. destruct r1; simpl; auto.
Qed.

(** ** Object names of the config-map store *)

Lemma Md5_hex_length (data : string) : String.length (Md5.hex data) = 32%nat.
Proof. unfold Md5.hex. destruct (Md5.Sum data) as [[[a b] c] d]. reflexivity. Qed.

Lemma append_inj_length (a b x y : string) :
  String.length a = String.length b -> (a ++ x = b ++ y)%string -> a = b /\ x = y.
Proof.
  revert b. induction a as [| c a IH]; intros [| c' b] Hlen Heq;
    simpl in Hlen; try discriminate.
  - auto.
  - change (String c (a ++ x)%string = String c' (b ++ y)%string) in Heq.
    inversion Heq; subst. destruct (IH b) as [-> ->]; auto.
Qed.

Lemma generateName_eq (name valueType : string) :
  K8s.generateName name valueType = (Md5.hex name ++ String "-" valueType)%string.
Proof. reflexivity. Qed.

(** The type is read off the object name. *)
Lemma generateName_type (n1 t1 n2 t2 : string) :
  K8s.generateName n1 t1 = K8s.generateName n2 t2 -> t1 = t2.
Proof.
  rewrite !generateName_eq. intros H.
  apply append_inj_length in H as [_ H]; [| rewrite !Md5_hex_length; reflexivity].
  inversion H. reflexivity.
Qed.

(** ** What a mutation of the config-map store touches *)

Lemma config_map_step_refl (s : K8s.K8sStore) (n1 t1 : string) :
  config_map_step s s n1 t1.
Proof. repeat split; auto. Qed.

Lemma config_map_step_insert (s : K8s.K8sStore) (n1 t1 : string) (cm : K8sClient.ConfigMap) :
  K8sClient.Labels cm !! "rdns-value-type"%string = Some t1 ->
  K8sClient.Namespace cm = K8s.namespace s ->
  K8sClient.Name cm = K8s.generateName n1 t1 ->
  config_map_step s
    (K8s.with_mgr
       (K8sClient.with_configMaps
          (<[(K8s.namespace s, K8s.generateName n1 t1) := cm]>
             (K8sClient.configMaps (K8s.mgr s))) (K8s.mgr s)) s) n1 t1.
Proof.
  intros Hl Hns Hn. repeat split; simpl.
  - intros q Hq. apply lookup_insert_ne. congruence.
  - intros cm'. rewrite lookup_insert_eq. intros H. inversion H; subst cm'. auto.
Qed.

Lemma writeValue_step {T} {C : Codec T} (name valueType : string) (metadata : T)
    (update : bool) (s : K8s.K8sStore) :
  named_by_type (K8s.mgr s) ->
  config_map_step s (snd (K8s.writeValue name valueType metadata update s))
    name valueType.
Proof.
  intros Hwf. unfold K8s.writeValue. cbn [K8sClient.Name K8sClient.Namespace].
  unfold K8sClient.Get.
  destruct (K8sClient.outage (K8s.mgr s)) as [msg |] eqn:Hout;
    [apply config_map_step_refl |].
  destruct (K8sClient.configMaps (K8s.mgr s)
              !! (K8s.namespace s, K8s.generateName name valueType))
    as [found |] eqn:Hfound; cbn [negb K8sClient.IsNotFound].
  - destruct (Hwf _ _ _ Hfound) as (Hns & Hn & _).
    destruct found as [fname fns fann flab fdata]. simpl in Hns, Hn. subst fname fns.
    destruct (Marshal metadata) as [j | e]; [| apply config_map_step_refl].
    unfold K8sClient.Update. rewrite Hout. cbn [K8sClient.Name K8sClient.Namespace].
    rewrite Hfound. cbn [snd].
    apply config_map_step_insert; cbn; auto.
    rewrite lookup_insert_ne by discriminate. apply lookup_insert_eq.
  - destruct (Marshal metadata) as [j | e]; [| apply config_map_step_refl].
    unfold K8sClient.Create. rewrite Hout. cbn [K8sClient.Name K8sClient.Namespace].
    rewrite Hfound. cbn [snd].
    apply config_map_step_insert; cbn; auto.
Qed.

Lemma DeleteValue_step (name valueType : string) (s : K8s.K8sStore) :
  named_by_type (K8s.mgr s) ->
  config_map_step s (snd (K8s.DeleteValue name valueType s)) name valueType.
Proof.
  intros Hwf. unfold K8s.DeleteValue, K8sClient.Get.
  destruct (K8sClient.outage (K8s.mgr s)) as [msg |] eqn:Hout;
    [apply config_map_step_refl |].
  destruct (K8sClient.configMaps (K8s.mgr s)
              !! (K8s.namespace s, K8s.generateName name valueType))
    as [found |] eqn:Hfound; [| apply config_map_step_refl].
  destruct (Hwf _ _ _ Hfound) as (Hns & Hn & _).
  unfold K8sClient.Delete. rewrite Hout, Hns, Hn, Hfound. cbn [snd].
  repeat split; simpl.
  - intros q Hq. apply lookup_delete_ne. congruence.
  - intros cm. rewrite lookup_delete_eq. discriminate.
Qed.

(** ** What the reads of the config-map store depend on *)

Lemma K8s_GetValue_alike {T} {C : Codec T} (s s' : K8s.K8sStore)
    (n1 t1 n2 t2 : string) (metadata : option T) :
  config_map_step s s' n1 t1 -> t1 <> t2 ->
  fst (K8s.GetValue n2 t2 metadata s') = fst (K8s.GetValue n2 t2 metadata s).
Proof.
  intros (Hns & Hout & Hother & _) Hne. unfold K8s.GetValue, K8sClient.Get.
  rewrite Hns, Hout, Hother.
  - destruct (K8sClient.outage (K8s.mgr s)); [reflexivity |].
    destruct (K8sClient.configMaps (K8s.mgr s) !! _); simpl; [| reflexivity].
    destruct (Unmarshal _ _); reflexivity.
  - intros Heq. inversion Heq as [Hname]. apply generateName_type in Hname. congruence.
Qed.

Lemma not_selected (ns t1 t2 : string) (cm : K8sClient.ConfigMap) :
  K8sClient.Labels cm !! "rdns-value-type"%string = Some t1 -> t1 <> t2 ->
  K8sClient.selected ns "rdns-value-type" t2 cm = true -> False.
Proof.
  intros Hl Hne Hsel. unfold K8sClient.selected in Hsel.
  apply andb_true_iff in Hsel as [_ Hsel]. apply bool_decide_eq_true in Hsel.
  congruence.
Qed.

Lemma named_not_selected (m : K8sClient.Manager) (ns n1 t1 t2 : string)
    (cm : K8sClient.ConfigMap) :
  named_by_type m ->
  K8sClient.configMaps m !! (ns, K8s.generateName n1 t1) = Some cm ->
  t1 <> t2 ->
  K8sClient.selected ns "rdns-value-type" t2 cm = true -> False.
Proof.
  intros Hwf Hcm Hne Hsel. destruct (Hwf _ _ _ Hcm) as (_ & _ & Hl).
  pose proof Hsel as Hsel'. unfold K8sClient.selected in Hsel'.
  apply andb_true_iff in Hsel' as [_ Hsel']. apply bool_decide_eq_true in Hsel'.
  destruct (Hl _ Hsel') as [n Hn]. apply generateName_type in Hn. congruence.
Qed.

Lemma K8s_List_alike (s s' : K8s.K8sStore) (n1 t1 t2 : string) :
  named_by_type (K8s.mgr s) -> config_map_step s s' n1 t1 -> t1 <> t2 ->
  K8sClient.List (K8s.mgr s') (K8s.namespace s') "rdns-value-type" t2
  = K8sClient.List (K8s.mgr s) (K8s.namespace s) "rdns-value-type" t2.
Proof.
  intros Hwf (Hns & Hout & Hother & Hat) Hne. unfold K8sClient.List.
  rewrite Hns, Hout. destruct (K8sClient.outage (K8s.mgr s)); [reflexivity |].
  do 3 f_equal. apply map_eq. intros q. apply option_eq. intros cm.
  rewrite !map_lookup_filter_Some. simpl.
  destruct (decide (q = (K8s.namespace s, K8s.generateName n1 t1))) as [-> | Hq].
  - split; intros [Hcm Hsel]; exfalso.
    + destruct (Hat cm Hcm) as [(Hl & _) | Hold].
      * exact (not_selected _ _ _ _ Hl Hne Hsel).
      * exact (named_not_selected _ _ _ _ _ _ Hwf Hold Hne Hsel).
    + exact (named_not_selected _ _ _ _ _ _ Hwf Hcm Hne Hsel).
  - rewrite (Hother q Hq). reflexivity.
Qed.

Lemma K8s_reads_alike {U} {CU : Codec U} (s s' : K8s.K8sStore)
    (n1 t1 n2 t2 : string) (target : option U) (cutoff : Z) :
  named_by_type (K8s.mgr s) -> config_map_step s s' n1 t1 -> t1 <> t2 ->
  fst (K8s.GetValue n2 t2 target s') = fst (K8s.GetValue n2 t2 target s)
  /\ fst (K8s.ListValues t2 s') = fst (K8s.ListValues t2 s)
  /\ fst (K8s.GetExpiredValues t2 cutoff s') = fst (K8s.GetExpiredValues t2 cutoff s).
Proof.
  intros Hwf Hstep Hne.
  assert (Hlist : fst (K8s.ListValues t2 s') = fst (K8s.ListValues t2 s)).
  { unfold K8s.ListValues. rewrite (K8s_List_alike s s' n1 t1 t2 Hwf Hstep Hne).
    destruct (K8sClient.List _ _ _ _); reflexivity. }
  split; [eapply K8s_GetValue_alike; eassumption |]. split; [exact Hlist |].
  unfold K8s.GetExpiredValues, bind.
  assert (Hs : snd (K8s.ListValues t2 s) = s)
    by (unfold K8s.ListValues; destruct (K8sClient.List _ _ _ _); reflexivity).
  assert (Hs' : snd (K8s.ListValues t2 s') = s')
    by (unfold K8s.ListValues; destruct (K8sClient.List _ _ _ _); reflexivity).
  destruct (K8s.ListValues t2 s) as [r1 x1], (K8s.ListValues t2 s') as [r2 x2].
  simpl in *. subst. destruct r1 as [names | e]; [| reflexivity].
  apply collect_fst_ext. intros name _.
  pose proof (K8s_GetValue_state name t2 (Some (zero : CreatedOnRecord.t)) s) as Hg.
  pose proof (K8s_GetValue_state name t2 (Some (zero : CreatedOnRecord.t)) s') as Hg'.
  pose proof (K8s_GetValue_alike s s' n1 t1 name t2
                (Some (zero : CreatedOnRecord.t)) Hstep Hne) as Ha.
  destruct (K8s.GetValue name t2 _ s) as [r1 x1], (K8s.GetValue name t2 _ s') as [r2 x2].
  simpl in *. subst. destruct r1; simpl; auto.
Qed.

(** The naming of the config maps is kept by every mutation of the
    store, and holds of a namespace without config maps. *)
Lemma named_by_type_step (s s' : K8s.K8sStore) (n1 t1 : string) :
  named_by_type (K8s.mgr s) -> config_map_step s s' n1 t1 ->
  named_by_type (K8s.mgr s').
Proof.
  intros Hwf (Hns & Hout & Hother & Hat) ns rname cm Hcm.
  destruct (decide ((ns, rname) = (K8s.namespace s, K8s.generateName n1 t1)))
    as [Heq | Hq].
  - inversion Heq; subst ns rname.
    destruct (Hat cm Hcm) as [(Hl & Hn & Hname) | Hold]; [| apply (Hwf _ _ _ Hold)].
    repeat split; auto. intros t Ht. exists n1. congruence.
  - rewrite (Hother _ Hq) in Hcm. apply (Hwf _ _ _ Hcm).
Qed.

Lemma named_by_type_empty : named_by_type (K8s.mgr rdns_namespace).
Proof. intros ns rname cm H. simpl in H. rewrite lookup_empty in H. discriminate H. Qed.

(** ** The partitions of the types *)

(** C9, as stated, fails on the file-system store for a name that
    climbs out of its directory: [Set] of the name [../token/evil] under
    the type [a-record] adds [evil] to what [List] returns under the
    type [token]. *)
Lemma Filesystem_partition_escape :
  ARecordValueType ∈ ValueTypes /\ TokenValueType ∈ ValueTypes
  /\ ARecordValueType <> TokenValueType
  /\ result_of (ListValues TokenValueType) data_dir = Ok []
  /\ result_of (ListValues TokenValueType)
       (after (SetValue "../token/evil" ARecordValueType token_evil) data_dir)
     = Ok ["evil"%string]
  /\ reads TokenValueType "evil" (Some (zero : Token.t)) 0
       (after (mutate (DoSet token_evil) "../token/evil" ARecordValueType) data_dir)
     <> reads TokenValueType "evil" (Some (zero : Token.t)) 0 data_dir.
Proof.
  split; [repeat constructor |].
  split; [repeat constructor |].
  split; [discriminate |].
  split; [vm_compute; reflexivity |].
  split; [vm_compute; reflexivity |].
  vm_compute. discriminate.
Qed.

(** C9, amended: for two distinct types [t1] and [t2] of the six, a
    [Set], [Update] or [Delete] under [t1] leaves what [Get], [List] and
    [GetExpired] return under [t2] unchanged: on the file-system store
    for all names [n1], [n2] that are file names (not empty, without a
    slash, neither [.] nor [..]), and on the config-map store for all
    names, in a namespace whose labelled config maps carry the names the
    store gives them. *)
Theorem partitions_disjoint {T} {C : Codec T} {U} {CU : Codec U}
    (m : mutation T) (t1 t2 n1 n2 : string) (target : option U) (cutoff : Z) :
  t1 ∈ ValueTypes -> t2 ∈ ValueTypes -> t1 <> t2 ->
  (forall fs : Filesystem.Filesystem,
      Path.is_file_name n1 = true -> Path.is_file_name n2 = true ->
      reads t2 n2 target cutoff (after (mutate m n1 t1) fs)
      = reads t2 n2 target cutoff fs)
  /\ (forall s : K8s.K8sStore,
        named_by_type (K8s.mgr s) ->
        reads t2 n2 target cutoff (after (mutate m n1 t1) s)
        = reads t2 n2 target cutoff s).
Proof.
  intros Ht1 Ht2 Hne. split.
  - intros fs Hn1 Hn2.
    assert (Hstep : Filesystem.path (after (mutate m n1 t1) fs) = Filesystem.path fs
                    /\ touches_only (Path.Join [Filesystem.path fs; t1; n1])
                         (Filesystem.disk fs)
                         (Filesystem.disk (after (mutate m n1 t1) fs))).
    { unfold after. destruct m; cbn [mutate SetValue UpdateValue DeleteValue Filesystem.store].
      - apply writeValue_touches.
      - apply writeValue_touches.
      - apply DeleteValue_touches. }
    destruct Hstep as [Hp Ht].
    destruct (Filesystem_reads_alike fs (after (mutate m n1 t1) fs) t1 n1 t2 n2
                target cutoff (ValueTypes_file_names _ Ht1) Hn1
                (ValueTypes_file_names _ Ht2) Hn2 Hne Hp Ht) as (Hg & Hl & He).
    unfold reads, result_of. cbn [GetValue ListValues GetExpiredValues Filesystem.store].
    rewrite Hg, Hl, He. reflexivity.
  - intros s Hwf.
    assert (Hstep : config_map_step s (after (mutate m n1 t1) s) n1 t1).
    { unfold after. destruct m; cbn [mutate SetValue UpdateValue DeleteValue K8s.store].
      - apply writeValue_step, Hwf.
      - apply writeValue_step, Hwf.
      - apply DeleteValue_step, Hwf. }
    destruct (K8s_reads_alike s (after (mutate m n1 t1) s) n1 t1 n2 t2 target cutoff
                Hwf Hstep Hne) as (Hg & Hl & He).
    unfold reads, result_of. cbn [GetValue ListValues GetExpiredValues K8s.store].
    rewrite Hg, Hl, He. reflexivity.
Qed.

Lemma partitions_disjoint_witness :
  reads ARecordValueType "abc.lb.example" (Some (zero : Model.RecordA.t)) 2000
    (after (mutate (DoUpdate token_evil) "abc.lb.example" TokenValueType)
       (after (InsertA a_two_hosts) data_dir))
  = reads ARecordValueType "abc.lb.example" (Some (zero : Model.RecordA.t)) 2000
      (after (InsertA a_two_hosts) data_dir)
  /\ reads ARecordValueType "abc.lb.example" (Some (zero : Model.RecordA.t)) 2000
       (after (mutate (DoUpdate token_evil) "abc.lb.example" TokenValueType)
          rdns_namespace)
     = reads ARecordValueType "abc.lb.example" (Some (zero : Model.RecordA.t)) 2000
         rdns_namespace.
Proof.
  assert (H1 : TokenValueType ∈ ValueTypes) by repeat constructor.
  assert (H2 : ARecordValueType ∈ ValueTypes) by repeat constructor.
  assert (H3 : TokenValueType <> ARecordValueType) by discriminate.
  split.
  - apply (proj1 (partitions_disjoint (DoUpdate token_evil) TokenValueType
                    ARecordValueType "abc.lb.example" "abc.lb.example"
                    (Some (zero : Model.RecordA.t)) 2000 H1 H2 H3));
      reflexivity.
  - apply (proj2 (partitions_disjoint (DoUpdate token_evil) TokenValueType
                    ARecordValueType "abc.lb.example" "abc.lb.example"
                    (Some (zero : Model.RecordA.t)) 2000 H1 H2 H3)).
    apply named_by_type_empty.
Defined.

(** ** QueryToken of a name without a token *)

Lemma walk_snoc (d : gmap Path.t Os.node) (rooted : bool) (rest above : list string)
    (c : string) :
  Os.walk d rooted above (rest ++ [c]) =
    match Os.walk d rooted above rest with
    | Some e => Some e
    | None =>
        match rest with
        | [] => None
        | _ =>
            match Os.node_at d (rooted, above ++ rest) with
            | None => Some (ErrNotExist (Path.to_string (Some (rooted, above ++ rest))))
            | Some (Os.File _) =>
                Some (ErrNotDir (Path.to_string (Some (rooted, above ++ rest))))
            | Some Os.Dir => None
            end
        end
    end.
Proof.
  revert above. induction rest as [| x rest IH]; intros above; [reflexivity |].
  destruct rest as [| y rest].
  - simpl. destruct (Os.node_at d (rooted, above ++ [x])) as [[data |] |]; reflexivity.
  - change ((x :: y :: rest) ++ [c]) with (x :: (y :: rest) ++ [c]).
    change (Os.walk d rooted above (x :: (y :: rest) ++ [c]))
      with (match Os.node_at d (rooted, above ++ [x]) with
            | None => Some (ErrNotExist (Path.to_string (Some (rooted, above ++ [x]))))
            | Some (Os.File _) =>
                Some (ErrNotDir (Path.to_string (Some (rooted, above ++ [x]))))
            | Some Os.Dir => Os.walk d rooted (above ++ [x]) ((y :: rest) ++ [c])
            end).
    change (Os.walk d rooted above (x :: y :: rest))
      with (match Os.node_at d (rooted, above ++ [x]) with
            | None => Some (ErrNotExist (Path.to_string (Some (rooted, above ++ [x]))))
            | Some (Os.File _) =>
                Some (ErrNotDir (Path.to_string (Some (rooted, above ++ [x]))))
            | Some Os.Dir => Os.walk d rooted (above ++ [x]) (y :: rest)
            end).
    destruct (Os.node_at d (rooted, above ++ [x])) as [[data |] |]; try reflexivity.
    rewrite IH. rewrite <- app_assoc. reflexivity.
Qed.

Lemma implicit_dir_file_name (rooted : bool) (comps : list string) (name : string) :
  Path.is_file_name name = true -> Os.implicit_dir (rooted, comps ++ [name]) = false.
Proof.
  intros H. unfold Os.implicit_dir. simpl snd.
  rewrite List.map_app. simpl. rewrite List.last_last.
  apply (file_name_facts name H).
Qed.

(** A file name under a directory that is there resolves to what the
    disk holds at that path. *)
Lemma resolve_child (d : gmap Path.t Os.node) (rooted : bool) (comps : list string)
    (name : string) (p : Path.t) :
  Os.resolve d (Some (rooted, comps)) = Ok (p, Some Os.Dir) ->
  Path.is_file_name name = true ->
  Os.resolve d (Some (rooted, comps ++ [name]))
  = Ok ((rooted, comps ++ [name]), d !! (rooted, comps ++ [name])).
Proof.
  intros Hr Hn. unfold Os.resolve in *. simpl in *.
  destruct (Os.walk d rooted [] comps) eqn:Hw; [discriminate |].
  inversion Hr as [[Hp Hnode]].
  rewrite walk_snoc, Hw. simpl app.
  unfold Os.node_at at 2. rewrite (implicit_dir_file_name _ _ _ Hn).
  destruct comps as [| c comps]; [reflexivity |].
  rewrite Hnode. reflexivity.
Qed.

(** [GetValue] of a name for which nothing is stored returns the empty
    string and no error, and leaves the target and the store as they
    were. *)
Lemma Filesystem_GetValue_absent {T} {C : Codec T} (fs : Filesystem.Filesystem)
    (valueType name : string) (metadata : option T) :
  Path.is_file_name valueType = true ->
  absent_file fs valueType name ->
  Filesystem.GetValue name valueType metadata fs = (Ok (EmptyString, metadata), fs).
Proof.
  intros Hvt (Hn & p & Hdir & Hnone).
  pose proof (resolve_path _ _ _ _ Hdir) as Hj.
  rewrite (Join_file_names _ valueType []) in Hj, Hdir
    by (repeat constructor; assumption).
  unfold Filesystem.GetValue, Os.Open.
  rewrite (Join_file_names _ valueType [name]) by (repeat constructor; assumption).
  set (rooted := fst (Path.Clean (Filesystem.path fs))) in *.
  set (base := snd (Path.Clean (Filesystem.path fs))) in *.
  inversion Hj as [Hp]. rewrite <- Hp in Hnone.
  change (Filesystem.disk fs !! (rooted, (base ++ [valueType]) ++ [name]) = None)
    in Hnone.
  replace (base ++ [valueType; name]) with ((base ++ [valueType]) ++ [name])
    by (rewrite <- app_assoc; reflexivity).
  rewrite (resolve_child _ _ _ name _ Hdir Hn), Hnone. reflexivity.
Qed.

Lemma K8s_GetValue_absent {T} {C : Codec T} (s : K8s.K8sStore)
    (valueType name : string) (metadata : option T) :
  absent_config_map s valueType name ->
  K8s.GetValue name valueType metadata s = (Ok (EmptyString, metadata), s).
Proof.
  intros (Hout & Hnone). unfold K8s.GetValue, K8sClient.Get.
  rewrite Hout, Hnone. reflexivity.
Qed.

(** C10: [QueryToken] of a name without a stored token returns the token
    whose fields are all zero, and no error, and leaves the store as it
    was, on the file-system store and on the config-map store; so do
    [QueryA], [QuerySubA], [QueryCNAME] and [QueryTXT] with the zero
    record of their type.  A stored token whose fields are all empty, the
    document [{}], gives the same result as no token. *)
Theorem QueryToken_absent (name : string) :
  (forall fs : Filesystem.Filesystem,
      absent_file fs TokenValueType name ->
      QueryToken name fs = (Ok no_token, fs))
  /\ (forall s : K8s.K8sStore,
        absent_config_map s TokenValueType name ->
        QueryToken name s = (Ok no_token, s))
  /\ (forall fs : Filesystem.Filesystem,
        (absent_file fs ARecordValueType name -> QueryA name fs = (Ok zero, fs))
        /\ (absent_file fs SubARecordValueType name -> QuerySubA name fs = (Ok zero, fs))
        /\ (absent_file fs CNAMERecordValueType name -> QueryCNAME name fs = (Ok zero, fs))
        /\ (absent_file fs TXTRecordValueType name -> QueryTXT name fs = (Ok zero, fs)))
  /\ (forall s : K8s.K8sStore,
        (absent_config_map s ARecordValueType name -> QueryA name s = (Ok zero, s))
        /\ (absent_config_map s SubARecordValueType name
            -> QuerySubA name s = (Ok zero, s))
        /\ (absent_config_map s CNAMERecordValueType name
            -> QueryCNAME name s = (Ok zero, s))
        /\ (absent_config_map s TXTRecordValueType name -> QueryTXT name s = (Ok zero, s)))
  /\ (forall fs : Filesystem.Filesystem,
        file_bytes fs TokenValueType name = Ok "{}"%string ->
        QueryToken name fs = (Ok no_token, fs))
  /\ (forall (s : K8s.K8sStore) (cm : K8sClient.ConfigMap),
        K8sClient.outage (K8s.mgr s) = None ->
        K8sClient.configMaps (K8s.mgr s)
          !! (K8s.namespace s, K8s.generateName name TokenValueType) = Some cm ->
        K8sClient.Data cm !! "data"%string = Some "{}"%string ->
        QueryToken name s = (Ok no_token, s)).
Proof.
  repeat apply conj.
  - intros fs H. unfold QueryToken, bind. cbn [GetValue Filesystem.store].
    rewrite Filesystem_GetValue_absent by (reflexivity || exact H). reflexivity.
  - intros s H. unfold QueryToken, bind. cbn [GetValue K8s.store].
    rewrite K8s_GetValue_absent by exact H. reflexivity.
  - intros fs. repeat apply conj; intros H;
      unfold QueryA, QuerySubA, QueryCNAME, QueryTXT, bind;
      cbn [GetValue Filesystem.store];
      rewrite Filesystem_GetValue_absent by (reflexivity || exact H); reflexivity.
  - intros s. repeat apply conj; intros H;
      unfold QueryA, QuerySubA, QueryCNAME, QueryTXT, bind;
      cbn [GetValue K8s.store];
      rewrite K8s_GetValue_absent by exact H; reflexivity.
  - intros fs Hbytes. unfold QueryToken, bind. cbn [GetValue Filesystem.store].
    unfold Filesystem.GetValue. unfold file_bytes in Hbytes.
    destruct (Os.Open _ _) as [f | e]; [| discriminate Hbytes].
    rewrite Hbytes. reflexivity.
  - intros s cm Hout Hcm Hdata. unfold QueryToken, bind. cbn [GetValue K8s.store].
    unfold K8s.GetValue, K8sClient.Get. rewrite Hout, Hcm, Hdata. reflexivity.
Qed.

Lemma absent_file_data_dir : absent_file data_dir TokenValueType "abc.lb.example".
Proof.
  split; [reflexivity |]. exists (true, ["data"; "token"]%string).
  split; vm_compute; reflexivity.
Defined.

Lemma absent_config_map_rdns_namespace :
  absent_config_map rdns_namespace TokenValueType "abc.lb.example".
Proof. split; vm_compute; reflexivity. Defined.

Lemma QueryToken_absent_witness :
  QueryToken "abc.lb.example" data_dir = (Ok no_token, data_dir)
  /\ QueryToken "abc.lb.example" rdns_namespace = (Ok no_token, rdns_namespace).
Proof.
  split.
  - apply (proj1 (QueryToken_absent "abc.lb.example") data_dir).
    exact absent_file_data_dir.
  - apply (proj1 (proj2 (QueryToken_absent "abc.lb.example")) rdns_namespace).
    exact absent_config_map_rdns_namespace.
Defined.

End StoreProps.

(* ================================================================== *)
(** * Further properties of the resolver *)

Section ResolverCoverage.
Import Clientv3 Rdns ResolverScenarios.
Local Open Scope list_scope.

(** ** The zone filter and the failures of the backend *)

(** X1: a name that starts with a configured zone is answered with no
    services and no error, whatever the key space holds and whether or
    not the backend answers: [Records] returns before it reads. *)
Theorem Records_zone_prefix (e : ETCD) (name zone : string) (qType : Z) (exact : bool) :
  In zone (Zones e) ->
  Strings.HasPrefix name zone = true ->
  Records e name qType exact = Ok [].
Proof.
  intros Hin Hp. unfold Records.
  replace (List.existsb _ (Zones e)) with true; [reflexivity |].
  symmetry. apply List.existsb_exists. exists zone. split; assumption.
Qed.

Lemma Records_zone_prefix_witness :
  Records (unreachable ["lb.example."]) "lb.example.attacker.test." Dns.TypeA false = Ok [].
Proof.
  apply (Records_zone_prefix (unreachable ["lb.example."])
           "lb.example.attacker.test." "lb.example.").
  - simpl. left. reflexivity.
  - vm_compute. reflexivity.
Defined.

Lemma get_backend_failure (e : ETCD) (path : string) (recursive : bool) (m : string) :
  failure (Client e) = Some m -> get e path recursive = Err (ErrBackend m).
Proof.
  intros H. unfold get, Get. rewrite H. destruct recursive; reflexivity.
Qed.

(** X2: when the backend does not answer, a name outside the zone filter
    gets the error of the backend, which is not a name error: an outage
    is not reported as a name that does not exist.  The check of
    [pathExist] before it swallows the same failure without effect. *)
Theorem Records_backend_failure (e : ETCD) (name : string) (qType : Z) (exact : bool)
    (m : string) :
  failure (Client e) = Some m ->
  List.existsb (fun zone => Strings.HasPrefix name zone) (Zones e) = false ->
  Records e name qType exact = Err (ErrBackend m)
  /\ IsNameError (ErrBackend m) = false.
Proof.
  intros Hf Hz. split; [| reflexivity].
  unfold Records. rewrite Hz.
  destruct (Msg.PathWithWildcard _ _) as [path star].
  rewrite (get_backend_failure e path (negb exact) m Hf). reflexivity.
Qed.

Lemma Records_backend_failure_witness :
  Records (unreachable ["lb.example."]) "web.lb.example." Dns.TypeA false
  = Err (ErrBackend "context deadline exceeded")
  /\ IsNameError (ErrBackend "context deadline exceeded") = false.
Proof.
  apply (Records_backend_failure (unreachable ["lb.example."]) "web.lb.example.").
  - reflexivity.
  - vm_compute. reflexivity.
Defined.


(** ** Strings: prefixes and suffixes *)

Lemma prefix_refl (s : string) : String.prefix s s = true.
Proof.
  induction s as [| c s IH]; [reflexivity |].
  simpl. destruct (ascii_dec c c); [exact IH | contradiction].
Qed.

Lemma prefix_app_l (a b s : string) :
  String.prefix (a ++ b)%string s = true -> String.prefix a s = true.
Proof.
  revert s. induction a as [| c a IH]; intros s H.
  - destruct s; reflexivity.
  - destruct s as [| d s]; [discriminate H |].
    change (String.prefix (String c (a ++ b)%string) (String d s) = true) in H.
    simpl in *. destruct (ascii_dec c d); [apply IH; exact H | discriminate H].
Qed.

Lemma prefix_app_r (a b : string) : String.prefix a (a ++ b)%string = true.
Proof.
  induction a as [| c a IH]; [destruct b; reflexivity |].
  change (String.prefix (String c a) (String c (a ++ b)%string) = true).
  simpl. destruct (ascii_dec c c); [exact IH | contradiction].
Qed.

Lemma length_app_string (a b : string) :
  String.length (a ++ b)%string = (String.length a + String.length b)%nat.
Proof.
  induction a as [| c a IH]; [reflexivity |].
  change (S (String.length (a ++ b)%string) = S (String.length a + String.length b)).
  rewrite IH. reflexivity.
Qed.

Lemma substring_app_start (a b : string) :
  substring 0 (String.length a) (a ++ b)%string = a.
Proof.
  induction a as [| c a IH]; [destruct b; reflexivity |].
  change (String c (substring 0 (String.length a) (a ++ b)%string) = String c a).
  rewrite IH. reflexivity.
Qed.

Lemma substring_app_end (a b : string) :
  substring (String.length a) (String.length b) (a ++ b)%string = b.
Proof.
  induction a as [| c a IH]; [| exact IH].
  change (substring 0 (String.length b) b = b).
  induction b as [| c b IHb]; [reflexivity |].
  simpl. rewrite IHb. reflexivity.
Qed.

Lemma HasSuffix_app (a b : string) : Strings.HasSuffix (a ++ b)%string b = true.
Proof.
  unfold Strings.HasSuffix. rewrite length_app_string.
  apply andb_true_iff. split; [apply Nat.leb_le; lia |].
  replace (String.length a + String.length b - String.length b)%nat
    with (String.length a) by lia.
  rewrite substring_app_end. apply String.eqb_refl.
Qed.

Lemma TrimSuffix_app (a b : string) : Strings.TrimSuffix (a ++ b)%string b = a.
Proof.
  unfold Strings.TrimSuffix. rewrite HasSuffix_app, length_app_string.
  replace (String.length a + String.length b - String.length b)%nat
    with (String.length a) by lia.
  apply substring_app_start.
Qed.

Lemma substring_prefix (n : nat) (s : string) : String.prefix (substring 0 n s) s = true.
Proof.
  revert n. induction s as [| c s IH]; intros [| n]; try reflexivity.
  simpl. destruct (ascii_dec c c); [apply IH | contradiction].
Qed.

Lemma prefix_trans (a b c : string) :
  String.prefix a b = true -> String.prefix b c = true -> String.prefix a c = true.
Proof.
  revert b c. induction a as [| x a IH]; intros b c Hab Hbc.
  - destruct c; reflexivity.
  - destruct b as [| y b]; [discriminate Hab |].
    destruct c as [| z c]; [discriminate Hbc |].
    simpl in *. destruct (ascii_dec x y) as [-> |]; [| discriminate Hab].
    destruct (ascii_dec y z) as [-> |]; [| discriminate Hbc].
    eapply IH; eassumption.
Qed.

Lemma TrimSuffix_prefix (s suffix : string) :
  String.prefix (Strings.TrimSuffix s suffix) s = true.
Proof.
  unfold Strings.TrimSuffix. destruct (Strings.HasSuffix s suffix).
  - apply substring_prefix.
  - apply prefix_refl.
Qed.

(** ** The fetch *)

Lemma filter_nil_Forall {A} (f : A -> bool) (l : list A) :
  List.filter f l = [] <-> Forall (fun x => f x = false) l.
Proof.
  induction l as [| x l IH]; simpl.
  - split; [constructor | reflexivity].
  - destruct (f x) eqn:Hx.
    + split; [discriminate | intros H; inversion H; congruence].
    + rewrite IH. split; [intros H; constructor; assumption | intros H; inversion H; assumption].
Qed.

Lemma Get_found (c : Clientv3.Client) (key : string) (withPrefix : bool) (r : GetResponse) :
  Get c key withPrefix = Ok r ->
  Count r = len (Kvs r)
  /\ Forall (fun kv => In kv (keyspace c)
                       /\ (if withPrefix then Strings.HasPrefix (Key kv) key = true
                           else Key kv = key)) (Kvs r).
Proof.
  unfold Get. destruct (failure c); [discriminate |].
  intros H. inversion H. simpl. split; [reflexivity |].
  apply List.Forall_forall. intros kv Hkv. apply List.filter_In in Hkv as [Hin Hf].
  split; [exact Hin |]. destruct withPrefix; [exact Hf | apply String.eqb_eq, Hf].
Qed.

Lemma Count_zero (r : GetResponse) : Count r = len (Kvs r) -> (Count r =? 0) = false -> Kvs r <> [].
Proof.
  intros Hc Hz Hnil. rewrite Hc, Hnil in Hz. discriminate Hz.
Qed.

(** X3: what a fetch that succeeds returns.  The response is never
    empty, its count is the number of its pairs, and every pair is a
    pair of the key space whose key starts with the path (the path
    without its final slash); an exact fetch returns pairs of that very
    key. *)
Theorem get_found (e : ETCD) (path : string) (recursive : bool) (r : GetResponse) :
  get e path recursive = Ok r ->
  Kvs r <> []
  /\ Count r = len (Kvs r)
  /\ Forall (fun kv => In kv (keyspace (Client e))
                       /\ Strings.HasPrefix (Key kv) (Strings.TrimSuffix path "/") = true
                       /\ (recursive = false -> Key kv = path)) (Kvs r).
Proof.
  unfold get. destruct recursive.
  - set (dir := if negb (Strings.HasSuffix path "/") then (path ++ "/")%string else path).
    assert (Hdir : String.prefix (Strings.TrimSuffix path "/") dir = true).
    { unfold dir. destruct (Strings.HasSuffix path "/") eqn:Hs; simpl.
      - apply TrimSuffix_prefix.
      - unfold Strings.TrimSuffix. rewrite Hs. apply prefix_app_r. }
    assert (Htrim : Strings.TrimSuffix dir "/" = Strings.TrimSuffix path "/").
    { unfold dir. destruct (Strings.HasSuffix path "/") eqn:Hs; simpl; [reflexivity |].
      rewrite TrimSuffix_app. unfold Strings.TrimSuffix. rewrite Hs. reflexivity. }
    destruct (Get (Client e) dir true) as [r1 | err] eqn:H1; [| discriminate].
    destruct (Get_found _ _ _ _ H1) as [Hc1 Hk1].
    destruct (Count r1 =? 0) eqn:Hz1.
    + destruct (Get (Client e) (Strings.TrimSuffix dir "/") false) as [r2 | err] eqn:H2;
        [| discriminate].
      destruct (Get_found _ _ _ _ H2) as [Hc2 Hk2].
      destruct (Count r2 =? 0) eqn:Hz2; [discriminate |].
      intros H. inversion H. subst r2.
      split; [exact (Count_zero r Hc2 Hz2) |]. split; [exact Hc2 |].
      eapply List.Forall_impl; [| exact Hk2]. simpl. intros kv [Hin Hkey].
      split; [exact Hin |]. split; [| discriminate].
      rewrite Hkey, Htrim. apply prefix_refl.
    + intros H. inversion H. subst r1.
      split; [exact (Count_zero r Hc1 Hz1) |]. split; [exact Hc1 |].
      eapply List.Forall_impl; [| exact Hk1]. simpl. intros kv [Hin Hkey].
      split; [exact Hin |]. split; [| discriminate].
      unfold Strings.HasPrefix in *. eapply prefix_trans; eassumption.
  - destruct (Get (Client e) path false) as [r1 | err] eqn:H1; [| discriminate].
    destruct (Get_found _ _ _ _ H1) as [Hc1 Hk1].
    destruct (Count r1 =? 0) eqn:Hz1; [discriminate |].
    intros H. inversion H. subst r1.
    split; [exact (Count_zero r Hc1 Hz1) |]. split; [exact Hc1 |].
    eapply List.Forall_impl; [| exact Hk1]. simpl. intros kv [Hin Hkey].
    split; [exact Hin |]. split; [| intros _; exact Hkey].
    rewrite Hkey. apply TrimSuffix_prefix.
Qed.


Lemma get_found_witness :
  let r := {| Kvs := [S1_pair_under_path]; Count := 1 |} in
  Kvs r <> []
  /\ Count r = len (Kvs r)
  /\ Forall (fun kv => In kv [S1_pair_under_path]
                       /\ Strings.HasPrefix (Key kv)
                            (Strings.TrimSuffix "/rdnsv3/example/lb/1_2_3_4" "/") = true
                       /\ (true = false -> Key kv = "/rdnsv3/example/lb/1_2_3_4"%string))
       (Kvs r).
Proof.
  apply (get_found (S1_config [S1_pair_under_path]) "/rdnsv3/example/lb/1_2_3_4" true).
  vm_compute. reflexivity.
Defined.

Lemma Get_count_zero (c : Clientv3.Client) (key : string) (withPrefix : bool) :
  failure c = None ->
  exists r, Get c key withPrefix = Ok r
    /\ ((Count r =? 0) = true <->
        Forall (fun kv => (if withPrefix then Strings.HasPrefix (Key kv) key
                           else String.eqb (Key kv) key) = false) (keyspace c)).
Proof.
  intros Hf. unfold Get. rewrite Hf. eexists. split; [reflexivity |]. simpl.
  rewrite <- filter_nil_Forall. rewrite Z.eqb_eq.
  destruct (List.filter _ (keyspace c)); simpl; split; intros H;
    first [reflexivity | discriminate H | lia].
Qed.

(** X4: when a fetch reports that the key is not there.  For a path
    without a final slash, [get] fails with [errKeyNotFound] exactly when
    the backend answers and no pair has the path as its key nor, on a
    recursive fetch, a key under the path. *)
Theorem get_key_not_found (e : ETCD) (path : string) (recursive : bool) :
  Strings.HasSuffix path "/" = false ->
  (get e path recursive = Err errKeyNotFound
   <-> failure (Client e) = None
       /\ Forall (fun kv => Key kv <> path
                            /\ (recursive = true ->
                                Strings.HasPrefix (Key kv) (path ++ "/") = false))
            (keyspace (Client e))).
Proof.
  intros Hs. split.
  - intros H. destruct (failure (Client e)) as [m |] eqn:Hf.
    { rewrite (get_backend_failure e path recursive m Hf) in H. discriminate H. }
    split; [reflexivity |]. unfold get in H. rewrite Hs in H. simpl negb in H. cbv iota in H.
    destruct recursive.
    + destruct (Get_count_zero (Client e) (path ++ "/") true Hf) as (r1 & H1 & Hz1).
      rewrite H1 in H. destruct (Count r1 =? 0); [| discriminate H].
      rewrite TrimSuffix_app in H.
      destruct (Get_count_zero (Client e) path false Hf) as (r2 & H2 & Hz2).
      rewrite H2 in H. destruct (Count r2 =? 0); [| discriminate H].
      pose proof (proj1 Hz1 eq_refl) as F1. pose proof (proj1 Hz2 eq_refl) as F2.
      rewrite List.Forall_forall in *. intros kv Hkv. split.
      * apply String.eqb_neq, F2, Hkv.
      * intros _. apply F1, Hkv.
    + destruct (Get_count_zero (Client e) path false Hf) as (r2 & H2 & Hz2).
      rewrite H2 in H. destruct (Count r2 =? 0); [| discriminate H].
      pose proof (proj1 Hz2 eq_refl) as F2.
      rewrite List.Forall_forall in *. intros kv Hkv. split; [| discriminate].
      apply String.eqb_neq, F2, Hkv.
  - intros [Hf HF]. unfold get. rewrite Hs. simpl negb. cbv iota.
    assert (F2 : Forall (fun kv => String.eqb (Key kv) path = false) (keyspace (Client e))).
    { eapply List.Forall_impl; [| exact HF]. simpl. intros kv [Hne _].
      apply String.eqb_neq, Hne. }
    destruct (Get_count_zero (Client e) path false Hf) as (r2 & H2 & Hz2).
    apply Hz2 in F2. destruct recursive.
    + assert (F1 : Forall (fun kv => Strings.HasPrefix (Key kv) (path ++ "/") = false)
                     (keyspace (Client e))).
      { eapply List.Forall_impl; [| exact HF]. simpl. intros kv [_ Hp]. apply Hp. reflexivity. }
      destruct (Get_count_zero (Client e) (path ++ "/") true Hf) as (r1 & H1 & Hz1).
      apply Hz1 in F1. rewrite H1, F1, TrimSuffix_app, H2, F2. reflexivity.
    + rewrite H2, F2. reflexivity.
Qed.

Lemma get_key_not_found_witness :
  get (S1_config [S1_pair_rooted]) "/rdnsv3/example/lb/1_2_3_4" true = Err errKeyNotFound.
Proof.
  apply (proj2 (get_key_not_found (S1_config [S1_pair_rooted])
                  "/rdnsv3/example/lb/1_2_3_4" true ltac:(vm_compute; reflexivity))).
  split; [reflexivity |].
  apply List.Forall_cons; [| apply List.Forall_nil].
  split; [vm_compute; discriminate | intros _; vm_compute; reflexivity].
Defined.

(** X5: a name under which nothing is stored.  When the backend answers
    and holds no pair at all, every name outside the zone filter gets
    [errKeyNotFound], which [IsNameError] reports as a name error. *)
Theorem Records_nothing_stored (e : ETCD) (name : string) (qType : Z) (exact : bool) :
  failure (Client e) = None ->
  keyspace (Client e) = [] ->
  List.existsb (fun zone => Strings.HasPrefix name zone) (Zones e) = false ->
  Records e name qType exact = Err errKeyNotFound
  /\ IsNameError errKeyNotFound = true.
Proof.
  intros Hf Hk Hz. split; [| reflexivity].
  unfold Records. rewrite Hz.
  destruct (Msg.PathWithWildcard _ _) as [path star].
  replace (get e path (negb exact)) with (@Err GetResponse errKeyNotFound); [reflexivity |].
  unfold get, Get. rewrite Hf, Hk. simpl. destruct (negb exact); reflexivity.
Qed.

Lemma Records_nothing_stored_witness :
  Records (S1_config []) "web.lb.example." Dns.TypeA false = Err errKeyNotFound
  /\ IsNameError errKeyNotFound = true.
Proof.
  apply (Records_nothing_stored (S1_config []) "web.lb.example." Dns.TypeA false);
    vm_compute; reflexivity.
Defined.


(** ** The loop over the pairs *)

Lemma matchParts_spec (nameParts keyParts : list string) (i : nat) :
  matchParts i nameParts keyParts = true
  <-> (nameParts = [] \/ (i + length nameParts <= length keyParts)%nat)
      /\ forall (j : nat) (n : string),
           nameParts !! j = Some n ->
           n = "*"%string \/ n = "any"%string \/ keyParts !! (i + j)%nat = Some n.
Proof.
  revert i. induction nameParts as [| n rest IH]; intros i.
  - simpl. split; [| reflexivity]. intros _. split; [left; reflexivity |].
    intros j m H. discriminate H.
  - cbn [matchParts]. unfold len.
    destruct (Z.gtb_spec (Z.of_nat i) (Z.of_nat (length keyParts) - 1)) as [Hgt | Hle].
    + split; [discriminate |]. intros [[Hnil | Hlen] _]; [discriminate Hnil |].
      simpl in Hlen. lia.
    + assert (Hi : (i < length keyParts)%nat) by lia.
      destruct (lookup_lt_is_Some_2 keyParts i Hi) as [k Hk].
      assert (Hnth : nth i keyParts EmptyString = k).
      { apply nth_lookup_Some with (d := EmptyString) in Hk. exact Hk. }
      rewrite Hnth.
      assert (Hrest : matchParts (S i) rest keyParts = true
                      <-> (i + length (n :: rest) <= length keyParts)%nat
                          /\ forall (j : nat) (m : string),
                               rest !! j = Some m ->
                               m = "*"%string \/ m = "any"%string
                               \/ keyParts !! (i + S j)%nat = Some m).
      { rewrite IH. simpl length. split.
        - intros [Hl Hall]. split.
          + destruct Hl as [-> | Hl]; simpl; lia.
          + intros j m Hj. specialize (Hall j m Hj).
            replace (i + S j)%nat with (S i + j)%nat by lia. exact Hall.
        - intros [Hl Hall]. split; [right; lia |].
          intros j m Hj. specialize (Hall j m Hj).
          replace (S i + j)%nat with (i + S j)%nat by lia. exact Hall. }
      assert (Hhead : forall P : Prop,
                 (P <-> (i + length (n :: rest) <= length keyParts)%nat
                        /\ forall (j : nat) (m : string),
                             rest !! j = Some m ->
                             m = "*"%string \/ m = "any"%string
                             \/ keyParts !! (i + S j)%nat = Some m) ->
                 (n = "*"%string \/ n = "any"%string \/ k = n) ->
                 (P <-> (n :: rest = [] \/ (i + length (n :: rest) <= length keyParts)%nat)
                        /\ forall (j : nat) (m : string),
                             (n :: rest) !! j = Some m ->
                             m = "*"%string \/ m = "any"%string
                             \/ keyParts !! (i + j)%nat = Some m)).
      { intros P HP Hn. rewrite HP. split.
        - intros [Hl Hall]. split; [right; exact Hl |].
          intros [| j] m Hj.
          + simpl in Hj. inversion Hj. subst m. rewrite Nat.add_0_r, Hk.
            destruct Hn as [Hn | [Hn | Hn]]; [tauto | tauto | right; right; congruence].
          + apply Hall. exact Hj.
        - intros [[Hnil | Hl] Hall]; [discriminate Hnil |]. split; [exact Hl |].
          intros j m Hj. apply (Hall (S j) m). exact Hj. }
      destruct (String.eqb_spec n "*") as [Hstar | Hstar]; simpl orb.
      { apply Hhead; [exact Hrest | tauto]. }
      destruct (String.eqb_spec n "any") as [Hany | Hany]; simpl orb.
      { apply Hhead; [exact Hrest | tauto]. }
      cbv iota.
      destruct (String.eqb_spec k n) as [Heq | Hne]; simpl negb; cbv iota.
      { apply Hhead; [exact Hrest | tauto]. }
      split; [discriminate |]. intros [_ Hall].
      specialize (Hall 0%nat n eq_refl). rewrite Nat.add_0_r, Hk in Hall.
      destruct Hall as [? | [? | Heq]]; [contradiction | contradiction |].
      inversion Heq. contradiction.
Qed.

(** X6: which keys a wildcard query examines.  The inner loop of
    [loopNodes] lets a key pass exactly when the key has a part for every
    part of the name and agrees with the name at every part that is
    neither [*] nor [any]; parts of the key beyond the name are not
    looked at. *)
Theorem matchParts_parts_match (nameParts keyParts : list string) :
  matchParts 0 nameParts keyParts = true <-> parts_match nameParts keyParts.
Proof.
  rewrite matchParts_spec. unfold parts_match. simpl. split.
  - intros [Hl Hall]. split; [| exact Hall].
    destruct Hl as [-> | Hl]; simpl; lia.
  - intros [Hl Hall]. split; [right; exact Hl | exact Hall].
Qed.


Lemma TTL_not_zero (kv : KeyValue) (serv : Msg.Service) : TTL kv serv <> 0.
Proof.
  unfold TTL, ttl.
  destruct (Z.eqb_spec (Int.uint32 (Lease kv)) 0) as [He | He];
    destruct (Z.eqb_spec (Msg.TTL serv) 0) as [Hs | Hs]; simpl; try lia.
  destruct (Int.uint32 (Lease kv) <? Msg.TTL serv); assumption.
Qed.

Lemma TTL_within_lease (kv : KeyValue) (serv : Msg.Service) :
  Int.uint32 (Lease kv) <> 0 -> TTL kv serv <= Int.uint32 (Lease kv).
Proof.
  intros He. unfold TTL.
  destruct (Z.eqb_spec (Int.uint32 (Lease kv)) 0) as [| _]; [contradiction |].
  destruct (Z.eqb_spec (Msg.TTL serv) 0); simpl; [lia |].
  destruct (Z.ltb_spec (Int.uint32 (Lease kv)) (Msg.TTL serv)); lia.
Qed.

Lemma answers_incl (kv kv' : list KeyValue) (qType : Z) (serv : Msg.Service) :
  (forall n, In n kv -> In n kv') -> answers kv qType serv -> answers kv' qType serv.
Proof.
  intros Hincl (Hp & Ht & Hs & n & Hin & Hk). repeat (split; [assumption |]).
  exists n. split; [apply Hincl, Hin | exact Hk].
Qed.

Lemma loopNodes_loop_answers (all kv : list KeyValue) (nameParts : list string)
    (star : bool) (qType : Z) (bx sx0 sx : list Msg.Service) :
  (forall n, In n kv -> In n all) ->
  Forall (answers all qType) sx0 ->
  loopNodes_loop kv nameParts star qType bx sx0 = Ok sx ->
  Forall (answers all qType) sx /\ (length sx <= length sx0 + length kv)%nat.
Proof.
  revert bx sx0. induction kv as [| n kv IH]; intros bx sx0 Hincl Hsx0;
    cbn [loopNodes_loop].
  - intros H. inversion H. subst sx. split; [exact Hsx0 | simpl; lia].
  - assert (Hincl' : forall k, In k kv -> In k all) by (intros k Hk; apply Hincl; right; exact Hk).
    assert (Hskip : forall bx', loopNodes_loop kv nameParts star qType bx' sx0 = Ok sx ->
              Forall (answers all qType) sx /\ (length sx <= length sx0 + S (length kv))%nat).
    { intros bx' H. destruct (IH bx' sx0 Hincl' Hsx0 H) as [Ha Hl].
      split; [exact Ha | simpl; lia]. }
    destruct (star && negb (matchParts 0 nameParts (Strings.Split (Key n) "/")));
      [apply Hskip |].
    destruct (JSON.Unmarshal Msg.fields (Value n) Msg.zero) as [serv | err];
      [| discriminate].
    destruct (bool_decide _); [apply Hskip |].
    set (serv1 := Msg.with_TTL (TTL n (Msg.with_Key (Key n) serv))
                    (Msg.with_Key (Key n) serv)).
    set (serv2 := if Msg.Priority serv1 =? 0 then Msg.with_Priority priority serv1
                  else serv1).
    destruct (shouldInclude serv2 qType) eqn:Hs; [| apply Hskip].
    intros H. apply IH in H; [| exact Hincl' |].
    + destruct H as [Ha Hl]. split; [exact Ha |]. rewrite length_app in Hl. simpl in Hl. simpl. lia.
    + apply Forall_app. split; [exact Hsx0 |]. constructor; [| constructor].
      assert (Hfields : Msg.TTL serv2 = TTL n (Msg.with_Key (Key n) serv)
                        /\ Msg.Key serv2 = Key n /\ Msg.Priority serv2 <> 0).
      { unfold serv2. destruct (Z.eqb_spec (Msg.Priority serv1) 0) as [Hz | Hz].
        - repeat split. unfold priority. simpl. discriminate.
        - repeat split. exact Hz. }
      destruct Hfields as (Httl & Hkey & Hprio).
      split; [exact Hprio |]. split; [rewrite Httl; apply TTL_not_zero |].
      split; [exact Hs |]. exists n. split; [apply Hincl; left; reflexivity |].
      split; [exact Hkey |]. intros Hlease. rewrite Httl. apply TTL_within_lease, Hlease.
Qed.

(** X7: the services of an answer.  Every service [loopNodes] returns
    comes from one of the pairs and carries its key; its priority and its
    TTL are set (never zero), the TTL is not beyond the lease of the pair
    when the pair has one, and the service has the field the question
    asks for.  There is at most one service per pair. *)
Theorem loopNodes_answers (kv : list KeyValue) (nameParts : list string) (star : bool)
    (qType : Z) (sx : list Msg.Service) :
  loopNodes kv nameParts star qType = Ok sx ->
  Forall (answers kv qType) sx /\ (length sx <= length kv)%nat.
Proof.
  intros H. unfold loopNodes in H.
  apply (loopNodes_loop_answers kv) in H; [exact H | auto | constructor].
Qed.

Lemma loopNodes_answers_witness :
  let sx := [ {| Msg.Host := "1.1.1.1"; Msg.Text := ""; Msg.TTL := 300;
                 Msg.Priority := 10; Msg.Mail := false;
                 Msg.Key := "/rdnsv3/example/lb/web/1_1_1_1" |} ] in
  Forall (answers [S_web_good] Dns.TypeA) sx /\ (length sx <= length [S_web_good])%nat.
Proof.
  apply (loopNodes_answers [S_web_good] [""; "rdnsv3"; "example"; "lb"; "web"] false
           Dns.TypeA).
  vm_compute. reflexivity.
Defined.

(** X8: the answers of [Records].  Every service returned is made from
    a pair of the key space whose key starts with the path of the name
    looked up (the name after the wildcard collapse); its priority and
    its TTL are set and it has the field the question asks for. *)
Theorem Records_answers (e : ETCD) (name : string) (qType : Z) (exact : bool)
    (sx : list Msg.Service) :
  Records e name qType exact = Ok sx ->
  Forall (fun serv =>
            answers (keyspace (Client e)) qType serv
            /\ Strings.HasPrefix (Msg.Key serv)
                 (Strings.TrimSuffix
                    (fst (Msg.PathWithWildcard (collapse e name qType) (PathPrefix e)))
                    "/") = true) sx.
Proof.
  unfold Records. destruct (List.existsb _ _).
  { intros H. inversion H. constructor. }
  destruct (Msg.PathWithWildcard _ _) as [path star]. cbn [fst].
  destruct (get e path (negb exact)) as [r | err] eqn:Hg; [| discriminate].
  destruct (get_found e path (negb exact) r Hg) as (_ & _ & Hr).
  destruct (filterKvs e (Kvs r) _ qType) as [kvs |] eqn:Hf; [| discriminate].
  assert (Hsub : forall n, In n kvs -> In n (Kvs r)).
  { intros n Hn. unfold filterKvs in Hf. destruct (qType =? Dns.TypeA).
    - unfold Strings.Split in Hf.
      destruct (exists_last (SplitByte_nonempty "/"
                  (Msg.Path (collapse e name qType) (PathPrefix e)))) as (init & leaf & Heq).
      rewrite Heq, filterKvs_loop_filter in Hf. inversion Hf. subst kvs.
      simpl in Hn. apply List.filter_In in Hn as [Hn _]. exact Hn.
    - inversion Hf. subst kvs. exact Hn. }
  intros H. apply loopNodes_answers in H as [H _].
  eapply List.Forall_impl; [| exact H]. intros serv (Hp & Ht & Hs & n & Hin & Hk & Hl).
  rewrite List.Forall_forall in Hr. destruct (Hr n (Hsub n Hin)) as (Hks & Hpre & _).
  split.
  - repeat (split; [assumption |]). exists n. repeat (split; [assumption |]). exact Hl.
  - rewrite Hk. exact Hpre.
Qed.

Lemma Records_answers_witness :
  Forall (fun serv =>
            answers [S_web_good] Dns.TypeA serv
            /\ Strings.HasPrefix (Msg.Key serv)
                 (Strings.TrimSuffix "/rdnsv3/example/lb/web" "/") = true)
    [ {| Msg.Host := "1.1.1.1"; Msg.Text := ""; Msg.TTL := 300;
         Msg.Priority := 10; Msg.Mail := false;
         Msg.Key := "/rdnsv3/example/lb/web/1_1_1_1" |} ].
Proof.
  apply (Records_answers (S1_config [S_web_good]) "web.lb.example." Dns.TypeA false).
  vm_compute. reflexivity.
Defined.

(** ** The check before the wildcard collapse *)

(** X9: [pathExist] compares strings, not path segments: it holds as
    soon as some key starts with the path of the name, also in the middle
    of a segment, and then a name longer than the wildcard bound is looked
    up as it is. *)
Theorem pathExist_string_prefix (e : ETCD) (ss : list string) (kv : KeyValue)
    (rest : string) :
  failure (Client e) = None ->
  In kv (keyspace (Client e)) ->
  Key kv = (fst (Msg.PathWithWildcard (Strings.Join ss ".") (PathPrefix e)) ++ rest)%string ->
  pathExist e ss = true.
Proof.
  intros Hf Hin Hk. unfold pathExist.
  destruct (Msg.PathWithWildcard _ _) as [path star]. cbn [fst] in Hk.
  unfold Get. rewrite Hf. cbn [Count].
  destruct (List.filter _ (keyspace (Client e))) as [| x l] eqn:Hfl.
  - exfalso. apply filter_nil_Forall in Hfl. rewrite List.Forall_forall in Hfl.
    specialize (Hfl kv Hin). cbv beta in Hfl. unfold Strings.HasPrefix in Hfl.
    rewrite Hk, prefix_app_r in Hfl. discriminate Hfl.
  - simpl length. apply Z.gtb_lt. lia.
Qed.

Lemma pathExist_string_prefix_witness :
  pathExist
    (S1_config [ {| Key := "/rdnsv3/example/lb/1_2_3_4/baz/bar/food/9_9_9_9";
                    Value := JSON.js "{'host':'9.9.9.9'}"; Lease := 0 |} ])
    ["foo"; "bar"; "baz"; "1_2_3_4"; "lb"; "example"] = true.
Proof.
  apply (pathExist_string_prefix _ _
           {| Key := "/rdnsv3/example/lb/1_2_3_4/baz/bar/food/9_9_9_9";
              Value := JSON.js "{'host':'9.9.9.9'}"; Lease := 0 |} "d/9_9_9_9").
  - reflexivity.
  - simpl. left. reflexivity.
  - vm_compute. reflexivity.
Defined.

End ResolverCoverage.
